(** * The video assembly service of [server.js]

    A shallow embedding of the [POST /create-video] handler, of the
    helpers it is built from ([run], [downloadToFile], the ffconcat list
    builder, the storage upload) and of the application around it (the
    CORS middleware and the liveness route), followed by the properties
    of the pipeline: shape of the timeline text, validation, failure
    mapping, ordering of the external calls, the derived URLs, and the
    confinement of files and commands to the workspace.

    Conventions.
    - A JavaScript string is a [string] holding its UTF-8 bytes, so only
      well-formed Unicode text is represented.
    - A JavaScript number is a binary64 datum ([spec_float] at precision 53
      and exponent bound 1024).  The two conversions between numbers and
      text that the engine provides, [Number::toString] and
      [StringToNumber], are not code of the service: the development is
      parametric in them, through the class [Runtime].
    - Every awaited call to the outside (clock, file system, HTTP, child
      process) asks an oracle, the [world], for its outcome and is recorded,
      with its arguments and its outcome, in a chronological trace. *)

From Stdlib Require Import ZArith String Ascii List Lia Bool SpecFloat.
From Stdlib Require Import Decimal DecimalString DecimalZ DecimalPos.
From Stdlib Require DecimalNat.
From stdpp Require Import base decidable option list strings gmap.

Set Warnings "-register-all".
Local Open Scope string_scope.
Local Open Scope list_scope.

(** ** Characters and text helpers *)

(** The line feed, written as backslash-n in the source. *)
Definition nl : string := String (ascii_of_nat 10) EmptyString.

(** The double quote that the command templates put around file names. *)
Definition dq : string := String (ascii_of_nat 34) EmptyString.

(** [String(i)] for an array index and [String(t)] for an integral
    time stamp: plain decimal digits. *)
Definition nat_to_string (n : nat) : string :=
  NilZero.string_of_uint (Nat.to_uint n).

Definition Z_to_string (z : Z) : string :=
  NilZero.string_of_int (Z.to_int z).

Fixpoint repeat_string (n : nat) (pad : string) : string :=
  match n with
  | O => EmptyString
  | S n' => pad +:+ repeat_string n' pad
  end.

(** [s.padStart(target, pad)] for a one-character [pad]. *)
Definition padStart (target : nat) (pad : string) (s : string) : string :=
  repeat_string (target - String.length s) pad +:+ s.

(** [path.join(dir, name)].  Both call sites join an absolute directory
    without a trailing slash and a plain file name, for which the
    normalisation done by [path.join] changes nothing. *)
Definition path_join (dir name : string) : string := dir +:+ "/" +:+ name.

(** [sep.join(parts)]. *)
Fixpoint join (sep : string) (parts : list string) : string :=
  match parts with
  | [] => EmptyString
  | [p] => p
  | p :: rest => p +:+ sep +:+ join sep rest
  end.

(** *** [encodeURIComponent] *)

Definition uri_unreserved (c : ascii) : bool :=
  let n := nat_of_ascii c in
  (Nat.leb 65 n && Nat.leb n 90) || (Nat.leb 97 n && Nat.leb n 122)
  || (Nat.leb 48 n && Nat.leb n 57)
  || existsb (Ascii.eqb c) ["-"; "_"; "."; "!"; "~"; "*"; "'"; "("; ")"]%char.

Definition hex_digit (n : nat) : ascii :=
  nth n (list_ascii_of_string "0123456789ABCDEF") "0"%char.

Definition percent_encode (c : ascii) : string :=
  let n := nat_of_ascii c in
  String "%" (String (hex_digit (Nat.div n 16)) (String (hex_digit (Nat.modulo n 16)) EmptyString)).

Definition encode_char (c : ascii) : string :=
  if uri_unreserved c then String c EmptyString else percent_encode c.

(** Works byte by byte on the UTF-8 text, which is what the built-in does
    on the code points of a well-formed string. *)
Fixpoint encodeURIComponent (s : string) : string :=
  match s with
  | EmptyString => EmptyString
  | String c rest => encode_char c +:+ encodeURIComponent rest
  end.

(** ** JavaScript values *)

Definition number : Type := spec_float.

Definition num_of_Z (z : Z) : number := binary_normalize 53 1024 z 0 false.
Definition num_of_nat (n : nat) : number := num_of_Z (Z.of_nat n).
Definition NaN : number := S754_nan.

Inductive value : Type :=
| VUndefined
| VNull
| VBool (b : bool)
| VNumber (n : number)
| VString (s : string)
| VArray (elems : list value)
| VObject (fields : list (string * value)).

(** A thrown [Error]: its [message] and the [details] property that [run]
    attaches ([VUndefined] when the property was never set). *)
Record error : Type := mkError { message : string; details : value }.

Definition new_Error (msg : string) : error := mkError msg VUndefined.

Inductive result (A : Type) : Type :=
| Ok (a : A)
| Throw (e : error).
Arguments Ok {A} a.
Arguments Throw {A} e.

Definition num_falsy (n : number) : bool :=
  match n with
  | S754_zero _ | S754_nan => true
  | _ => false
  end.

(** [ToBoolean]. *)
Definition truthy (v : value) : bool :=
  match v with
  | VUndefined | VNull => false
  | VBool b => b
  | VNumber n => negb (num_falsy n)
  | VString s => negb (String.eqb s EmptyString)
  | VArray _ | VObject _ => true
  end.

(** [a || b]. *)
Definition js_or (a b : value) : value := if truthy a then a else b.

Fixpoint lookup_field (fields : list (string * value)) (k : string) : value :=
  match fields with
  | [] => VUndefined
  | (k', v) :: rest => if String.eqb k' k then v else lookup_field rest k
  end.

Definition has_own (fields : list (string * value)) (k : string) : bool :=
  existsb (fun kv => String.eqb (fst kv) k) fields.

(** [v[k]] for a [v] that is neither [null] nor [undefined] and a key [k]
    that no built-in prototype defines (the handler reads [images],
    [audio], [outputPath], [width], [height], [fps], [url] and
    [duration]): an own property of an object, [undefined] otherwise. *)
Definition get_prop (v : value) (k : string) : value :=
  match v with
  | VObject fields => lookup_field fields k
  | _ => VUndefined
  end.

(** [v.k]: reading a property of [null] or [undefined] throws. *)
Definition get_member (v : value) (k : string) : result value :=
  match v with
  | VUndefined =>
      Throw (new_Error ("Cannot read properties of undefined (reading '" +:+ k +:+ "')"))
  | VNull =>
      Throw (new_Error ("Cannot read properties of null (reading '" +:+ k +:+ "')"))
  | _ => Ok (get_prop v k)
  end.

(** A destructuring default [{ k = dflt }]: used when the property is
    [undefined], and only then. *)
Definition field_or (v : value) (k : string) (dflt : value) : value :=
  match get_prop v k with
  | VUndefined => dflt
  | x => x
  end.

Definition not_primitive : error :=
  new_Error "Cannot convert object to primitive value".

(** The two conversions of the engine between numbers and text:
    [Number::toString(n)] and [StringToNumber(s)]. *)
Class Runtime : Type := mkRuntime {
  NumberToString : number -> string;
  StringToNumber : string -> number
}.

Section Conversions.

Context {rt : Runtime}.

(** [ToString].  An array is joined with commas, [null] and [undefined]
    elements giving the empty text.  An object parsed from JSON has no
    callable property, so an own [toString] property makes the conversion
    throw; without one the inherited method answers the fixed text
    [[object Object]]. *)
Fixpoint ToString (v : value) : result string :=
  match v with
  | VUndefined => Ok "undefined"
  | VNull => Ok "null"
  | VBool true => Ok "true"
  | VBool false => Ok "false"
  | VNumber n => Ok (NumberToString n)
  | VString s => Ok s
  | VArray elems =>
      let fix parts (l : list value) : result (list string) :=
        match l with
        | [] => Ok []
        | x :: rest =>
            match (match x with
                   | VUndefined | VNull => Ok EmptyString
                   | _ => ToString x
                   end) with
            | Throw e => Throw e
            | Ok s =>
                match parts rest with
                | Throw e => Throw e
                | Ok ss => Ok (s :: ss)
                end
            end
        end in
      match parts elems with
      | Throw e => Throw e
      | Ok ss => Ok (join "," ss)
      end
  | VObject fields =>
      if has_own fields "toString" then Throw not_primitive
      else Ok "[object Object]"
  end.

(** [Number(v)], that is [ToNumber]. *)
Definition ToNumber (v : value) : result number :=
  match v with
  | VUndefined => Ok NaN
  | VNull => Ok (num_of_Z 0)
  | VBool true => Ok (num_of_Z 1)
  | VBool false => Ok (num_of_Z 0)
  | VNumber n => Ok n
  | VString s => Ok (StringToNumber s)
  | VArray _ =>
      match ToString v with
      | Throw e => Throw e
      | Ok s => Ok (StringToNumber s)
      end
  | VObject fields =>
      if has_own fields "toString" then Throw not_primitive
      else Ok NaN
  end.

End Conversions.

(** ** The outside world and the trace of a request *)

Definition bytes : Type := list Byte.byte.

(** What the callback of [exec] receives. *)
Record exec_outcome : Type := mkExec {
  exec_err : option error;
  exec_stdout : string;
  exec_stderr : string
}.

(** One awaited interaction with the outside, with its arguments and its
    outcome.  A rejected promise carries the error it rejects with; an HTTP
    exchange that resolves carries the status of the answer. *)
Inductive event : Type :=
| EvNow (t : Z)
| EvMkdir (dir : string) (r : option error)
| EvFetch (url : value) (r : error + nat)
| EvArrayBuffer (r : error + bytes)
| EvWriteFile (file : string) (data : bytes) (r : option error)
| EvExec (cmd : string) (r : exec_outcome)
| EvReadFile (file : string) (r : error + bytes)
| EvUpload (url : string) (headers : list (string * string)) (data : bytes)
           (r : error + nat)
| EvText (r : error + string)
| EvLog (e : error).

(** The oracle: each outcome may depend on everything that happened
    before in the request. *)
Record world : Type := mkWorld {
  w_now : list event -> Z;
  w_mkdir : list event -> string -> option error;
  w_fetch : list event -> value -> error + nat;
  w_arrayBuffer : list event -> error + bytes;
  w_writeFile : list event -> string -> bytes -> option error;
  w_exec : list event -> string -> exec_outcome;
  w_readFile : list event -> string -> error + bytes;
  w_upload : list event -> string -> list (string * string) -> bytes -> error + nat;
  w_text : list event -> error + string
}.

(** [res.ok] of a fetch response. *)
Definition res_ok (status : nat) : bool := Nat.leb 200 status && Nat.ltb status 300.

(** *** The monad of the handler: a trace that grows, and exceptions *)

Definition M (A : Type) : Type := list event -> result A * list event.

Definition ret {A} (a : A) : M A := fun tr => (Ok a, tr).

Definition throw {A} (e : error) : M A := fun tr => (Throw e, tr).

Definition bind {A B} (m : M A) (k : A -> M B) : M B :=
  fun tr =>
    match m tr with
    | (Ok a, tr') => k a tr'
    | (Throw e, tr') => (Throw e, tr')
    end.

Definition lift {A} (r : result A) : M A := fun tr => (r, tr).

Notation "'let*' x ':=' c 'in' k" := (bind c (fun x => k))
  (at level 10, x pattern, c at level 100, k at level 200).

Definition of_option (r : option error) : result unit :=
  match r with
  | None => Ok tt
  | Some e => Throw e
  end.

Definition of_sum {A} (r : error + A) : result A :=
  match r with
  | inl e => Throw e
  | inr a => Ok a
  end.

(** ** Configuration and HTTP boundary *)

(** The environment variables the service reads; [None] is an unset
    variable. *)
Record env : Type := mkEnv {
  env_AUTH_TOKEN : option string;
  env_SUPABASE_URL : option string;
  env_SUPABASE_BUCKET_VIDEOS : option string;
  env_SUPABASE_SERVICE_ROLE_KEY : option string
}.

(** [process.env.X || dflt]. *)
Definition env_or (x : option string) (dflt : string) : string :=
  match x with
  | Some s => if String.eqb s EmptyString then dflt else s
  | None => dflt
  end.

(** [!process.env.X]. *)
Definition env_missing (x : option string) : bool :=
  match x with
  | Some s => String.eqb s EmptyString
  | None => true
  end.

(** The text of a variable; the handler reads it only after it found the
    variable set and not empty. *)
Definition env_get (x : option string) : string := env_or x EmptyString.

Record request : Type := mkRequest {
  x_auth_token : option string;
  req_body : value
}.

Record response : Type := mkResponse {
  status : nat;
  body : value
}.

Record local_asset : Type := mkAsset {
  file : string;
  duration : number
}.

(** ** The service *)

(** The workspace of a request whose clock reading is [t]. *)
Definition workDir_of (t : Z) : string := "/tmp/work-" +:+ Z_to_string t.

(** The local file of the image at index [i]. *)
Definition img_file (workDir : string) (i : nat) : string :=
  path_join workDir ("img_" +:+ padStart 3 "0" (nat_to_string i) +:+ ".png").

Definition isArray (v : value) : bool :=
  match v with
  | VArray _ => true
  | _ => false
  end.

Definition elements (v : value) : list value :=
  match v with
  | VArray l => l
  | _ => []
  end.

(** The token check: a token is configured and the header differs. *)
Definition unauthorized (e : env) (req : request) : bool :=
  let AUTH_TOKEN := env_or (env_AUTH_TOKEN e) EmptyString in
  negb (String.eqb AUTH_TOKEN EmptyString)
  && match x_auth_token req with
     | Some t => negb (String.eqb t AUTH_TOKEN)
     | None => true
     end.

Definition error_body (msg : string) : value := VObject [("error", VString msg)].

Definition success_body (url : string) (size frames : nat) (fps width height : value)
  : value :=
  VObject [("success", VBool true);
           ("url", VString url);
           ("size", VNumber (num_of_nat size));
           ("frames", VNumber (num_of_nat frames));
           ("fps", fps);
           ("width", width);
           ("height", height)].

(** The body of the [catch] clause, after [console.error(err)]. *)
Definition failure_response (err : error) : response :=
  mkResponse 500
    (VObject [("error", VString (message err));
              ("details", js_or (details err) (VString EmptyString))]).

(** *** Steps 4 and 5: the two encoder commands *)
Definition video_filter (width height : string) : string :=
  "scale=" +:+ width +:+ ":" +:+ height
    +:+ ":force_original_aspect_ratio=decrease,pad=" +:+ width +:+ ":" +:+ height
    +:+ ":(ow-iw)/2:(oh-ih)/2,format=yuv420p".

Definition render_cmd (concatTxt vf videoFile : string) : string :=
  "ffmpeg -y -f concat -safe 0 -i " +:+ dq +:+ concatTxt +:+ dq
    +:+ " -vf " +:+ dq +:+ vf +:+ dq
    +:+ " -pix_fmt yuv420p -c:v libx264 -vsync vfr " +:+ dq +:+ videoFile +:+ dq.

Definition mux_cmd (videoFile audioFile finalFile : string) : string :=
  "ffmpeg -y -i " +:+ dq +:+ videoFile +:+ dq +:+ " -i " +:+ dq +:+ audioFile +:+ dq
    +:+ " -c:v copy -c:a aac -shortest " +:+ dq +:+ finalFile +:+ dq.

(** *** Step 6: the two URLs of the stored object *)
Definition object_url (base segment bucket key : string) : string :=
  base +:+ segment +:+ encodeURIComponent bucket +:+ "/" +:+ encodeURIComponent key.

Definition uploadUrl (base bucket key : string) : string :=
  object_url base "/storage/v1/object/" bucket key.

Definition publicUrl (base bucket key : string) : string :=
  object_url base "/storage/v1/object/public/" bucket key.

Definition upload_headers (key : string) : list (string * string) :=
  [("Authorization", "Bearer " +:+ key);
   ("Content-Type", "video/mp4");
   ("x-upsert", "true")].

Section Service.

Context {rt : Runtime}.
Variable w : world.

(** *** Awaited primitives *)

Definition now : M Z :=
  fun tr => let t := w_now w tr in (Ok t, tr ++ [EvNow t]).

Definition mkdir (dir : string) : M unit :=
  fun tr => let r := w_mkdir w tr dir in (of_option r, tr ++ [EvMkdir dir r]).

Definition fetch (url : value) : M nat :=
  fun tr => let r := w_fetch w tr url in (of_sum r, tr ++ [EvFetch url r]).

Definition arrayBuffer : M bytes :=
  fun tr => let r := w_arrayBuffer w tr in (of_sum r, tr ++ [EvArrayBuffer r]).

Definition writeFile (f : string) (data : bytes) : M unit :=
  fun tr =>
    let r := w_writeFile w tr f data in (of_option r, tr ++ [EvWriteFile f data r]).

Definition readFile (f : string) : M bytes :=
  fun tr => let r := w_readFile w tr f in (of_sum r, tr ++ [EvReadFile f r]).

Definition upload (url : string) (headers : list (string * string)) (data : bytes)
  : M nat :=
  fun tr =>
    let r := w_upload w tr url headers data in
    (of_sum r, tr ++ [EvUpload url headers data r]).

Definition text : M string :=
  fun tr => let r := w_text w tr in (of_sum r, tr ++ [EvText r]).

(** *** [run]: one child process; a failure carries the captured standard
    error in [details]. *)
Definition run (cmd : string) : M string :=
  fun tr =>
    let r := w_exec w tr cmd in
    (match exec_err r with
     | Some err => Throw (mkError (message err) (VString (exec_stderr r)))
     | None => Ok (exec_stdout r)
     end,
     tr ++ [EvExec cmd r]).

(** *** [downloadToFile] *)
Definition downloadToFile (url : value) (outPath : string) : M string :=
  let* res := fetch url in
  if negb (res_ok res) then
    let* u := lift (ToString url) in
    throw (new_Error ("Download failed: " +:+ u +:+ " -> " +:+ nat_to_string res))
  else
    let* buf := arrayBuffer in
    let* _ := writeFile outPath buf in
    ret outPath.

(** [Number(images[i].duration || 3)], given [images[i].duration]. *)
Definition duration_of (d : value) : result number :=
  ToNumber (js_or d (VNumber (num_of_Z 3))).

(** *** Step 1: the loop over [images], from index [i] on, pushing onto
    [localImgs]. *)
Fixpoint download_images (workDir : string) (images : list value) (i : nat)
         (localImgs : list local_asset) : M (list local_asset) :=
  match images with
  | [] => ret localImgs
  | img :: rest =>
      let* imgUrl := lift (get_member img "url") in
      let* d := lift (get_member img "duration") in
      let* dur := lift (duration_of d) in
      let out := img_file workDir i in
      let* _ := downloadToFile imgUrl out in
      download_images workDir rest (S i) (localImgs ++ [mkAsset out dur])
  end.

(** *** Step 3: the ffconcat list.  The last line reads the file of
    [localImgs[localImgs.length - 1]], which throws on an empty list. *)
Definition concat_entry (acc : string) (i : local_asset) : string :=
  (acc +:+ ("file " +:+ file i +:+ nl))
    +:+ ("duration " +:+ NumberToString (duration i) +:+ nl).

Definition concatContent (localImgs : list local_asset) : result string :=
  let content := fold_left concat_entry localImgs ("ffconcat version 1.0" +:+ nl) in
  match last localImgs with
  | None =>
      Throw (new_Error "Cannot read properties of undefined (reading 'file')")
  | Some l => Ok (content +:+ ("file " +:+ file l +:+ nl))
  end.

(** *** Steps 0 to 3: workspace, downloads, list file.  Returns the
    workspace. *)
Definition prepare (images : list value) (audio : value) : M string :=
  let* t := now in
  let workDir := workDir_of t in
  let* _ := mkdir workDir in
  let* localImgs := download_images workDir images 0 [] in
  let audioFile := path_join workDir "audio.mp3" in
  let* _ := downloadToFile audio audioFile in
  let concatTxt := path_join workDir "list.txt" in
  let* content := lift (concatContent localImgs) in
  let* _ := writeFile concatTxt (list_byte_of_string content) in
  ret workDir.

(** *** Steps 4 and 5: render the stills, then mux the audio.  Returns
    the path of the muxed file. *)
Definition encode (workDir : string) (width height : value) : M string :=
  let audioFile := path_join workDir "audio.mp3" in
  let concatTxt := path_join workDir "list.txt" in
  let videoFile := path_join workDir "video.mp4" in
  let* sw := lift (ToString width) in
  let* sh := lift (ToString height) in
  let vf := video_filter sw sh in
  let* _ := run (render_cmd concatTxt vf videoFile) in
  let finalFile := path_join workDir "final.mp4" in
  let* _ := run (mux_cmd videoFile audioFile finalFile) in
  ret finalFile.

(** *** Step 6: upload to the object store.  Returns the public URL and
    the size of the uploaded buffer. *)
Definition publish (e : env) (finalFile : string) (outputPath : value)
  : M (string * nat) :=
  let SUPABASE_URL := env_SUPABASE_URL e in
  let SUPABASE_BUCKET := env_or (env_SUPABASE_BUCKET_VIDEOS e) "videos" in
  let SUPABASE_SERVICE_ROLE_KEY := env_SUPABASE_SERVICE_ROLE_KEY e in
  if env_missing SUPABASE_URL || env_missing SUPABASE_SERVICE_ROLE_KEY then
    throw (new_Error "Missing SUPABASE_URL or SUPABASE_SERVICE_ROLE_KEY")
  else
    let* fileBuffer := readFile finalFile in
    let* key := lift (ToString outputPath) in
    let* upRes :=
      upload (uploadUrl (env_get SUPABASE_URL) SUPABASE_BUCKET key)
             (upload_headers (env_get SUPABASE_SERVICE_ROLE_KEY)) fileBuffer in
    if negb (res_ok upRes) then
      let* txt := text in
      throw (new_Error ("Supabase upload failed: " +:+ nat_to_string upRes
                          +:+ " " +:+ txt))
    else
      ret (publicUrl (env_get SUPABASE_URL) SUPABASE_BUCKET key,
           length fileBuffer).

(** *** The handler of [POST /create-video] *)

(** The body of the [try] block. *)
Definition try_block (e : env) (req : request) : M response :=
  if unauthorized e req then ret (mkResponse 401 (error_body "Unauthorized"))
  else
    let b := js_or (req_body req) (VObject []) in
    let images := field_or b "images" (VArray []) in
    let audio := get_prop b "audio" in
    let outputPath := field_or b "outputPath" (VString "stories/output.mp4") in
    let width := field_or b "width" (VNumber (num_of_Z 1920)) in
    let height := field_or b "height" (VNumber (num_of_Z 1080)) in
    let fps := field_or b "fps" (VNumber (num_of_Z 25)) in
    if negb (isArray images) || Nat.eqb (length (elements images)) 0 then
      ret (mkResponse 400 (error_body "images[] required"))
    else if negb (truthy audio) then
      ret (mkResponse 400 (error_body "audio url required"))
    else
      let* workDir := prepare (elements images) audio in
      let* finalFile := encode workDir width height in
      let* up := publish e finalFile outputPath in
      ret (mkResponse 200
             (success_body (fst up) (snd up) (length (elements images))
                           fps width height)).

(** A request from its arrival to its response: the trace of what it did
    outside and the response sent. *)
Definition create_video (e : env) (req : request) : list event * response :=
  match try_block e req [] with
  | (Ok r, tr) => (tr, r)
  | (Throw err, tr) => (tr ++ [EvLog err], failure_response err)
  end.

End Service.

(** ** Vocabulary of the statements *)

(** *** Reading an ffconcat text *)

Definition is_nl (c : ascii) : bool := Ascii.eqb c (ascii_of_nat 10).

Definition no_newline (s : string) : bool :=
  forallb (fun c => negb (is_nl c)) (list_ascii_of_string s).

(** The lines of a text, as [text.split] at line feeds gives them: a text
    that ends with a line feed has an empty last line. *)
Fixpoint split_lines (s : string) : list string :=
  match s with
  | EmptyString => [EmptyString]
  | String c rest =>
      if is_nl c then EmptyString :: split_lines rest
      else match split_lines rest with
           | [] => [String c EmptyString]
           | l :: ls => String c l :: ls
           end
  end.

Fixpoint strip_prefix (p s : string) : option string :=
  match p, s with
  | EmptyString, _ => Some s
  | String a p', String b s' => if Ascii.eqb a b then strip_prefix p' s' else None
  | String _ _, EmptyString => None
  end.

(** One line of an ffconcat list, by its keyword. *)
Inductive directive : Type :=
| File (path : string)
| Duration (seconds : string)
| Other (line : string).

Definition read_directive (line : string) : directive :=
  match strip_prefix "file " line with
  | Some path => File path
  | None =>
      match strip_prefix "duration " line with
      | Some d => Duration d
      | None => Other line
      end
  end.

Definition directives (content : string) : list directive :=
  map read_directive (split_lines content).

Definition is_File (d : directive) : bool :=
  match d with
  | File _ => true
  | _ => false
  end.

(** The lines that one local asset contributes to the list. *)
Definition entry_lines {rt : Runtime} (a : local_asset) : list directive :=
  [File (file a); Duration (NumberToString (duration a))].

(** The text that one local asset contributes to the list. *)
Definition entry_text {rt : Runtime} (a : local_asset) : string :=
  ("file " +:+ file a +:+ nl) +:+ ("duration " +:+ NumberToString (duration a) +:+ nl).

(** An asset whose path and printed duration stay on one line. *)
Definition printable {rt : Runtime} (a : local_asset) : Prop :=
  no_newline (file a) = true /\ no_newline (NumberToString (duration a)) = true.

(** *** Reading a trace *)

Definition is_fetch (ev : event) : bool :=
  match ev with
  | EvFetch _ _ => true
  | _ => false
  end.

Definition is_exec (ev : event) : bool :=
  match ev with
  | EvExec _ _ => true
  | _ => false
  end.

Definition is_upload (ev : event) : bool :=
  match ev with
  | EvUpload _ _ _ _ => true
  | _ => false
  end.

(** The events of steps 0 to 3. *)
Definition is_preparation (ev : event) : bool :=
  match ev with
  | EvNow _ | EvMkdir _ _ | EvFetch _ _ | EvArrayBuffer _ | EvWriteFile _ _ _ => true
  | _ => false
  end.

(** The addresses fetched, in the order of the fetches. *)
Definition fetched (tr : list event) : list value :=
  flat_map (fun ev => match ev with
                      | EvFetch url _ => [url]
                      | _ => []
                      end) tr.

(** A fetch that did not deliver: the promise rejected, or the status is
    outside 200 to 299. *)
Definition fetch_failed (r : error + nat) : bool :=
  match r with
  | inl _ => true
  | inr st => negb (res_ok st)
  end.

(** The downloads a request asks for, in order: address and local file
    of each image, from index [i] on. *)
Fixpoint image_jobs (workDir : string) (images : list value) (i : nat)
  : list (value * string) :=
  match images with
  | [] => []
  | img :: rest => (get_prop img "url", img_file workDir i) :: image_jobs workDir rest (S i)
  end.

Definition jobs (workDir : string) (images : list value) (audio : value)
  : list (value * string) :=
  image_jobs workDir images 0 ++ [(audio, path_join workDir "audio.mp3")].

(** [downloaded js tr]: the trace [tr] is the complete download of each job
    of [js] in turn, one after the other: fetch answered with a success
    status, body read, file written, and only then the next fetch. *)
Inductive downloaded : list (value * string) -> list event -> Prop :=
| downloaded_nil : downloaded [] []
| downloaded_cons url out st buf js tr :
    res_ok st = true ->
    downloaded js tr ->
    downloaded ((url, out) :: js)
               (EvFetch url (inr st) :: EvArrayBuffer (inr buf)
                  :: EvWriteFile out buf None :: tr).

(** [download_failure url out tr]: the trace of a [downloadToFile] that
    throws, by the step that failed. *)
Inductive download_failure (url : value) (out : string) : list event -> Prop :=
| failure_fetch e :
    download_failure url out [EvFetch url (inl e)]
| failure_status st :
    res_ok st = false ->
    download_failure url out [EvFetch url (inr st)]
| failure_body st e :
    res_ok st = true ->
    download_failure url out [EvFetch url (inr st); EvArrayBuffer (inl e)]
| failure_write st buf e :
    res_ok st = true ->
    download_failure url out
      [EvFetch url (inr st); EvArrayBuffer (inr buf); EvWriteFile out buf (Some e)].

(** [aborted js tr]: the trace [tr] completes some first jobs of [js] and
    then stops, either inside the next download or by an exception that no
    outside call raised. *)
Inductive aborted : list (value * string) -> list event -> Prop :=
| aborted_inside url out js tr :
    download_failure url out tr ->
    aborted ((url, out) :: js) tr
| aborted_between js :
    aborted js []
| aborted_later url out st buf js tr :
    res_ok st = true ->
    aborted js tr ->
    aborted ((url, out) :: js)
            (EvFetch url (inr st) :: EvArrayBuffer (inr buf)
               :: EvWriteFile out buf None :: tr).

(** *** The fields of a request, as the handler destructures them *)

Definition request_images (req : request) : value :=
  field_or (js_or (req_body req) (VObject [])) "images" (VArray []).

Definition request_audio (req : request) : value :=
  get_prop (js_or (req_body req) (VObject [])) "audio".

Definition request_outputPath (req : request) : value :=
  field_or (js_or (req_body req) (VObject [])) "outputPath" (VString "stories/output.mp4").

Definition request_width (req : request) : value :=
  field_or (js_or (req_body req) (VObject [])) "width" (VNumber (num_of_Z 1920)).

Definition request_height (req : request) : value :=
  field_or (js_or (req_body req) (VObject [])) "height" (VNumber (num_of_Z 1080)).

Definition request_fps (req : request) : value :=
  field_or (js_or (req_body req) (VObject [])) "fps" (VNumber (num_of_Z 25)).

(** The two validation checks. *)
Definition rejected_images (req : request) : bool :=
  negb (isArray (request_images req))
  || Nat.eqb (length (elements (request_images req))) 0.

Definition rejected_audio (req : request) : bool := negb (truthy (request_audio req)).

(** A request that passes the token check and both validation checks. *)
Definition accepted (e : env) (req : request) : bool :=
  negb (unauthorized e req) && negb (rejected_images req) && negb (rejected_audio req).

(** The addresses a request asks to download, in order: each image,
    then the audio track. *)
Definition addresses (req : request) : list value :=
  map (fun img => get_prop img "url") (elements (request_images req))
  ++ [request_audio req].

(** *** Outcomes of the stages

    Each stage extends the trace by one of a few shapes; the relations
    below name them.  They speak of the events a stage adds and of what it
    returns or throws. *)

Section Outcomes.

Context {rt : Runtime}.

(** The local assets that the loop of step 1 pushes for [images], from
    index [i] on. *)
Inductive assets_of (workDir : string) : list value -> nat -> list local_asset -> Prop :=
| assets_nil i : assets_of workDir [] i []
| assets_cons img rest i dur l :
    duration_of (get_prop img "duration") = Ok dur ->
    assets_of workDir rest (S i) l ->
    assets_of workDir (img :: rest) i (mkAsset (img_file workDir i) dur :: l).

(** Steps 0 to 3. *)
Inductive prepare_outcome (images : list value) (audio : value)
  : result string -> list event -> Prop :=
| prepare_done t dl assets content :
    downloaded (jobs (workDir_of t) images audio) dl ->
    assets_of (workDir_of t) images 0 assets ->
    concatContent assets = Ok content ->
    prepare_outcome images audio (Ok (workDir_of t))
      (EvNow t :: EvMkdir (workDir_of t) None
         :: dl ++ [EvWriteFile (path_join (workDir_of t) "list.txt")
                               (list_byte_of_string content) None])
| prepare_no_workspace t e :
    prepare_outcome images audio (Throw e) [EvNow t; EvMkdir (workDir_of t) (Some e)]
| prepare_aborted t e tr :
    aborted (jobs (workDir_of t) images audio) tr ->
    prepare_outcome images audio (Throw e)
      (EvNow t :: EvMkdir (workDir_of t) None :: tr)
| prepare_no_list t dl data e :
    downloaded (jobs (workDir_of t) images audio) dl ->
    prepare_outcome images audio (Throw e)
      (EvNow t :: EvMkdir (workDir_of t) None
         :: dl ++ [EvWriteFile (path_join (workDir_of t) "list.txt") data (Some e)]).

(** Steps 4 and 5, for the frame size [width] by [height] of the
    request. *)
Inductive encode_outcome (workDir : string) (width height : value)
  : result string -> list event -> Prop :=
| encode_no_width e :
    ToString width = Throw e ->
    encode_outcome workDir width height (Throw e) []
| encode_no_height sw e :
    ToString width = Ok sw ->
    ToString height = Throw e ->
    encode_outcome workDir width height (Throw e) []
| encode_render_failed sw sh r err :
    ToString width = Ok sw ->
    ToString height = Ok sh ->
    exec_err r = Some err ->
    encode_outcome workDir width height
      (Throw (mkError (message err) (VString (exec_stderr r))))
      [EvExec (render_cmd (path_join workDir "list.txt") (video_filter sw sh)
                          (path_join workDir "video.mp4")) r]
| encode_mux_failed sw sh r1 r2 err :
    ToString width = Ok sw ->
    ToString height = Ok sh ->
    exec_err r1 = None ->
    exec_err r2 = Some err ->
    encode_outcome workDir width height
      (Throw (mkError (message err) (VString (exec_stderr r2))))
      [EvExec (render_cmd (path_join workDir "list.txt") (video_filter sw sh)
                          (path_join workDir "video.mp4")) r1;
       EvExec (mux_cmd (path_join workDir "video.mp4") (path_join workDir "audio.mp3")
                       (path_join workDir "final.mp4")) r2]
| encode_done sw sh r1 r2 :
    ToString width = Ok sw ->
    ToString height = Ok sh ->
    exec_err r1 = None ->
    exec_err r2 = None ->
    encode_outcome workDir width height (Ok (path_join workDir "final.mp4"))
      [EvExec (render_cmd (path_join workDir "list.txt") (video_filter sw sh)
                          (path_join workDir "video.mp4")) r1;
       EvExec (mux_cmd (path_join workDir "video.mp4") (path_join workDir "audio.mp3")
                       (path_join workDir "final.mp4")) r2].

Definition configured (e : env) : bool :=
  negb (env_missing (env_SUPABASE_URL e) || env_missing (env_SUPABASE_SERVICE_ROLE_KEY e)).

Definition store_base (e : env) : string := env_get (env_SUPABASE_URL e).
Definition store_bucket (e : env) : string := env_or (env_SUPABASE_BUCKET_VIDEOS e) "videos".
Definition store_headers (e : env) : list (string * string) :=
  upload_headers (env_get (env_SUPABASE_SERVICE_ROLE_KEY e)).

Definition missing_configuration : error :=
  new_Error "Missing SUPABASE_URL or SUPABASE_SERVICE_ROLE_KEY".

(** Step 6. *)
Inductive publish_outcome (e : env) (finalFile : string) (outputPath : value)
  : result (string * nat) -> list event -> Prop :=
| publish_unconfigured :
    configured e = false ->
    publish_outcome e finalFile outputPath (Throw missing_configuration) []
| publish_unreadable err :
    configured e = true ->
    publish_outcome e finalFile outputPath (Throw err) [EvReadFile finalFile (inl err)]
| publish_no_key buf err :
    configured e = true ->
    ToString outputPath = Throw err ->
    publish_outcome e finalFile outputPath (Throw err) [EvReadFile finalFile (inr buf)]
| publish_unreachable buf key err :
    configured e = true ->
    ToString outputPath = Ok key ->
    publish_outcome e finalFile outputPath (Throw err)
      [EvReadFile finalFile (inr buf);
       EvUpload (uploadUrl (store_base e) (store_bucket e) key) (store_headers e) buf
                (inl err)]
| publish_refused_unread buf key st err :
    configured e = true ->
    ToString outputPath = Ok key ->
    res_ok st = false ->
    publish_outcome e finalFile outputPath (Throw err)
      [EvReadFile finalFile (inr buf);
       EvUpload (uploadUrl (store_base e) (store_bucket e) key) (store_headers e) buf
                (inr st);
       EvText (inl err)]
| publish_refused buf key st txt :
    configured e = true ->
    ToString outputPath = Ok key ->
    res_ok st = false ->
    publish_outcome e finalFile outputPath
      (Throw (new_Error ("Supabase upload failed: " +:+ nat_to_string st +:+ " " +:+ txt)))
      [EvReadFile finalFile (inr buf);
       EvUpload (uploadUrl (store_base e) (store_bucket e) key) (store_headers e) buf
                (inr st);
       EvText (inr txt)]
| publish_done buf key st :
    configured e = true ->
    ToString outputPath = Ok key ->
    res_ok st = true ->
    publish_outcome e finalFile outputPath
      (Ok (publicUrl (store_base e) (store_bucket e) key, length buf))
      [EvReadFile finalFile (inr buf);
       EvUpload (uploadUrl (store_base e) (store_bucket e) key) (store_headers e) buf
                (inr st)].

(** A whole request: the trace and the response, by the place where the
    handler left the [try] block. *)
Inductive run_outcome (e : env) (req : request) : list event -> response -> Prop :=
| run_unauthorized :
    unauthorized e req = true ->
    run_outcome e req [] (mkResponse 401 (error_body "Unauthorized"))
| run_no_images :
    unauthorized e req = false ->
    rejected_images req = true ->
    run_outcome e req [] (mkResponse 400 (error_body "images[] required"))
| run_no_audio :
    unauthorized e req = false ->
    rejected_images req = false ->
    rejected_audio req = true ->
    run_outcome e req [] (mkResponse 400 (error_body "audio url required"))
| run_prepare_failed err tr1 :
    accepted e req = true ->
    prepare_outcome (elements (request_images req)) (request_audio req) (Throw err) tr1 ->
    run_outcome e req (tr1 ++ [EvLog err]) (failure_response err)
| run_encode_failed workDir tr1 err tr2 :
    accepted e req = true ->
    prepare_outcome (elements (request_images req)) (request_audio req) (Ok workDir) tr1 ->
    encode_outcome workDir (request_width req) (request_height req) (Throw err) tr2 ->
    run_outcome e req (tr1 ++ tr2 ++ [EvLog err]) (failure_response err)
| run_publish_failed workDir tr1 finalFile tr2 err tr3 :
    accepted e req = true ->
    prepare_outcome (elements (request_images req)) (request_audio req) (Ok workDir) tr1 ->
    encode_outcome workDir (request_width req) (request_height req) (Ok finalFile) tr2 ->
    publish_outcome e finalFile (request_outputPath req) (Throw err) tr3 ->
    run_outcome e req (tr1 ++ tr2 ++ tr3 ++ [EvLog err]) (failure_response err)
| run_done workDir tr1 finalFile tr2 url size tr3 :
    accepted e req = true ->
    prepare_outcome (elements (request_images req)) (request_audio req) (Ok workDir) tr1 ->
    encode_outcome workDir (request_width req) (request_height req) (Ok finalFile) tr2 ->
    publish_outcome e finalFile (request_outputPath req) (Ok (url, size)) tr3 ->
    run_outcome e req (tr1 ++ tr2 ++ tr3)
      (mkResponse 200
         (success_body url size (length (elements (request_images req)))
                       (request_fps req) (request_width req) (request_height req))).

End Outcomes.

(** *** Traces that a world explains *)

(** The outcome recorded in [ev] is the one the world gives after [pre]. *)
Definition answered (w : world) (pre : list event) (ev : event) : Prop :=
  match ev with
  | EvNow t => t = w_now w pre
  | EvMkdir dir r => r = w_mkdir w pre dir
  | EvFetch url r => r = w_fetch w pre url
  | EvArrayBuffer r => r = w_arrayBuffer w pre
  | EvWriteFile f data r => r = w_writeFile w pre f data
  | EvExec cmd r => r = w_exec w pre cmd
  | EvReadFile f r => r = w_readFile w pre f
  | EvUpload url headers data r => r = w_upload w pre url headers data
  | EvText r => r = w_text w pre
  | EvLog _ => True
  end.

Inductive consistent (w : world) : list event -> Prop :=
| consistent_nil : consistent w []
| consistent_snoc tr ev :
    consistent w tr -> answered w tr ev -> consistent w (tr ++ [ev]).

(** A computation that keeps the trace explained by the world. *)
Definition preserves (w : world) {A} (m : M A) : Prop :=
  forall tr, consistent w tr -> consistent w (snd (m tr)).

(** *** The object store *)

(** Modelled from the spec: the store behind the upload address, which is
    a remote service and no code of the repository.  Its write has the
    upsert semantics of the interface description: a write to a free key
    stores the object; a write to a key that holds an object overwrites it
    when the request asks for upsert and is refused otherwise. *)
Definition upsert_requested (headers : list (string * string)) : bool :=
  existsb (fun h => String.eqb (fst h) "x-upsert" && String.eqb (snd h) "true") headers.

Definition store_write (s : gmap string bytes) (url : string)
           (headers : list (string * string)) : nat :=
  match s !! url with
  | Some _ => if upsert_requested headers then 200 else 409
  | None => 200
  end.

Definition stored_by (s : gmap string bytes) (ev : event) : gmap string bytes :=
  match ev with
  | EvUpload url _ data (inr st) => if res_ok st then <[url := data]> s else s
  | _ => s
  end.

(** The store after the uploads of a trace. *)
Definition store_after (s : gmap string bytes) (tr : list event) : gmap string bytes :=
  fold_left stored_by tr s.

(** The world [w] with its upload answered by a store that holds [s] when
    the request starts. *)
Definition with_store (w : world) (s : gmap string bytes) : world :=
  {| w_now := w_now w;
     w_mkdir := w_mkdir w;
     w_fetch := w_fetch w;
     w_arrayBuffer := w_arrayBuffer w;
     w_writeFile := w_writeFile w;
     w_exec := w_exec w;
     w_readFile := w_readFile w;
     w_upload := fun tr url headers _ => inr (store_write (store_after s tr) url headers);
     w_text := w_text w |}.

(** *** Outcomes on which the handler throws *)

Definition is_log (ev : event) : bool :=
  match ev with
  | EvLog _ => true
  | _ => false
  end.

Section Throws.

Context {rt : Runtime}.

(** What [downloadToFile] throws on a status outside 200 to 299.  The
    template literal prints the address first, which may itself throw. *)
Definition download_error (url : value) (st : nat) : error :=
  match ToString url with
  | Ok u => new_Error ("Download failed: " +:+ u +:+ " -> " +:+ nat_to_string st)
  | Throw e => e
  end.

(** What the handler throws once it has read the body [txt] of an upload
    answered with the status [st]. *)
Definition upload_error (st : nat) (txt : string) : error :=
  new_Error ("Supabase upload failed: " +:+ nat_to_string st +:+ " " +:+ txt).

(** [thrown_by pre ev]: the exception that the code raises on the outcome
    recorded in [ev], which follows the events [pre]; [None] when the code
    goes on.  A rejected promise throws the error it rejects with; [run]
    rejects with the error of [exec], its [details] set to the standard
    error; [downloadToFile] throws on a fetch status outside 200 to 299;
    the body of an upload answer is read only to be thrown. *)
Definition thrown_by (pre : list event) (ev : event) : option error :=
  match ev with
  | EvNow _ => None
  | EvMkdir _ r => r
  | EvFetch _ (inl e) => Some e
  | EvFetch url (inr st) => if res_ok st then None else Some (download_error url st)
  | EvArrayBuffer (inl e) => Some e
  | EvArrayBuffer (inr _) => None
  | EvWriteFile _ _ r => r
  | EvExec _ r =>
      match exec_err r with
      | Some err => Some (mkError (message err) (VString (exec_stderr r)))
      | None => None
      end
  | EvReadFile _ (inl e) => Some e
  | EvReadFile _ (inr _) => None
  | EvUpload _ _ _ (inl e) => Some e
  | EvUpload _ _ _ (inr _) => None
  | EvText (inl e) => Some e
  | EvText (inr txt) =>
      match last pre with
      | Some (EvUpload _ _ _ (inr st)) => Some (upload_error st txt)
      | _ => None
      end
  | EvLog _ => None
  end.

(** After [tr], none of the events [new] makes the code throw. *)
Fixpoint quiet (tr new : list event) : Prop :=
  match new with
  | [] => True
  | ev :: rest => thrown_by tr ev = None /\ quiet (tr ++ [ev]) rest
  end.

(** A stretch [new] of calls that ends with the result [r]: either no
    call of it makes the code throw, or the last one does, [r] is the
    exception it raises, and no call before it does. *)
Definition halted {A} (tr new : list event) (r : result A) : Prop :=
  quiet tr new
  \/ exists before ev err,
      new = before ++ [ev] /\ quiet tr before /\
      thrown_by (tr ++ before) ev = Some err /\ r = Throw err.

(** A computation that makes no call after one that throws. *)
Definition fails_fast {A} (m : M A) : Prop :=
  forall tr, exists new, snd (m tr) = tr ++ new /\ halted tr new (fst (m tr)).

End Throws.

(** *** Image entries that the loop can process

    The loop of step 1 reads [url] and [duration] of an entry and converts
    the duration before it calls anything outside: the entry must be
    neither [null] nor [undefined], and [Number] must not throw on its
    duration. *)
Definition readable {rt : Runtime} (img : value) : Prop :=
  img <> VNull /\ img <> VUndefined
  /\ exists dur, duration_of (get_prop img "duration") = Ok dur.

(** A fetch recorded in a trace did not fail. *)
Definition fetch_delivered (ev : event) : bool :=
  match ev with
  | EvFetch _ r => negb (fetch_failed r)
  | _ => true
  end.

(** *** Plain file names

    The characters of the names that the service gives to its files:
    lower-case letters, digits, dot, underscore and hyphen; a path has
    slashes besides. *)
Definition name_char (c : ascii) : bool :=
  let n := nat_of_ascii c in
  (Nat.leb 97 n && Nat.leb n 122) || (Nat.leb 48 n && Nat.leb n 57)
  || existsb (Ascii.eqb c) ["."; "_"; "-"]%char.

Definition plain_name (s : string) : bool :=
  forallb name_char (list_ascii_of_string s).

Definition plain_path (s : string) : bool :=
  forallb (fun c => name_char c || Ascii.eqb c "/") (list_ascii_of_string s).

(** ** The application: middleware and routes

    The application registers, in this order, the JSON body parser of the
    framework, a middleware that sets the CORS headers and answers every
    preflight, the handler of [POST /create-video] and a liveness route
    [GET /].  Two things are done by the framework and are inputs here:
    parsing the body, which either hands the request on or raises an error
    (a malformed or oversized body), and matching the request against the
    registered routes. *)

Inductive route : Type :=
| CreateVideo
| Root.

(** What a handler hands to the framework as the body of its answer:
    [res.json(v)], [res.send(s)], or the text of the status for
    [res.sendStatus]. *)
Inductive payload : Type :=
| Json (v : value)
| Text (s : string)
| StatusText.

Record http_response : Type := mkHttp {
  http_headers : gmap string string;
  http_status : nat;
  http_payload : payload
}.

(** A request is answered by the code of the application, or left to the
    framework: to its error handler when the body parser raised an error,
    which skips the middleware and the routes registered after it, or to
    its default answer when no route matches, with the headers set so
    far. *)
Inductive served : Type :=
| Sent (r : http_response)
| Unparsed
| Unrouted (headers : gmap string string).

(** The headers that the code of the application has set on the answer. *)
Definition served_headers (s : served) : gmap string string :=
  match s with
  | Sent r => http_headers r
  | Unparsed => ∅
  | Unrouted headers => headers
  end.

(** [res.setHeader(name, text)]. *)
Definition setHeader (name text : string) (headers : gmap string string)
  : gmap string string := <[name := text]> headers.

(** The CORS middleware: the headers after it, and the answer when it
    ends the request instead of calling [next]. *)
Definition cors (method : string) (headers : gmap string string)
  : gmap string string * option (nat * payload) :=
  let h1 := setHeader "Access-Control-Allow-Origin" "*" headers in
  let h2 := setHeader "Access-Control-Allow-Headers"
                      "Content-Type, Authorization, X-Auth-Token" h1 in
  let h3 := setHeader "Access-Control-Allow-Methods" "POST, OPTIONS" h2 in
  (h3, if String.eqb method "OPTIONS" then Some (204, StatusText) else None).

(** One request through the application [app]: the calls made outside and
    what is served.  [parsed] is the request as the body parser hands it on,
    [None] when the parser raised an error; [matched] is the route that
    the framework selects for it. *)
Definition app_handle {rt : Runtime} (w : world) (e : env) (method : string)
           (matched : option route) (parsed : option request) : list event * served :=
  match parsed with
  | None => ([], Unparsed)
  | Some req =>
      let (headers, ended) := cors method ∅ in
      match ended with
      | Some (st, p) => ([], Sent (mkHttp headers st p))
      | None =>
          match matched with
          | Some CreateVideo =>
              let (tr, resp) := create_video w e req in
              (tr, Sent (mkHttp headers (status resp) (Json (body resp))))
          | Some Root => ([], Sent (mkHttp headers 200 (Text "OK")))
          | None => ([], Unrouted headers)
          end
      end
  end.

(** ** A concrete engine and concrete worlds for the examples *)

(** An instance of the engine's conversions, used to run the examples.  It
    prints zeros, infinities, NaN and integral values below ten to the
    twenty-first as the engine does; a value with a fractional part is
    printed as the quotient it denotes, which is not the engine's text. *)
Definition demo_NumberToString (n : number) : string :=
  match n with
  | S754_nan => "NaN"
  | S754_zero _ => "0"
  | S754_infinity false => "Infinity"
  | S754_infinity true => "-Infinity"
  | S754_finite s m e =>
      (if s then "-" else EmptyString) +:+
      (if (0 <=? e)%Z then Z_to_string (Z.pos m * 2 ^ e)
       else if (Z.pos m mod 2 ^ (- e) =? 0)%Z then Z_to_string (Z.pos m / 2 ^ (- e))
       else Z_to_string (Z.pos m) +:+ "/2^" +:+ Z_to_string (- e))
  end.

(** It reads the empty text and a text of decimal digits as the engine
    does, and answers NaN for every other text (the engine also reads
    blanks, signs, fractions, exponents and other radixes). *)
Definition demo_StringToNumber (s : string) : number :=
  if String.eqb s EmptyString then num_of_Z 0
  else match NilEmpty.uint_of_string s with
       | Some d => num_of_Z (Z.of_uint d)
       | None => NaN
       end.

Instance demo_runtime : Runtime :=
  {| NumberToString := demo_NumberToString; StringToNumber := demo_StringToNumber |}.

(** A world in which everything succeeds: the clock reads [t], every
    download answers 200 with the bytes [payload], the encoder exits with
    status zero, the muxed file holds [artifact] and the store answers
    200. *)
Definition happy_world (t : Z) (payload artifact : bytes) : world :=
  {| w_now := fun _ => t;
     w_mkdir := fun _ _ => None;
     w_fetch := fun _ _ => inr 200;
     w_arrayBuffer := fun _ => inr payload;
     w_writeFile := fun _ _ _ => None;
     w_exec := fun _ _ => mkExec None EmptyString EmptyString;
     w_readFile := fun _ _ => inr artifact;
     w_upload := fun _ _ _ _ => inr 200;
     w_text := fun _ => inr EmptyString |}.

(** The same world with an encoder that exits with a failure and writes
    [stderr]. *)
Definition failing_encoder_world (t : Z) (payload : bytes) (msg stderr : string) : world :=
  {| w_now := fun _ => t;
     w_mkdir := fun _ _ => None;
     w_fetch := fun _ _ => inr 200;
     w_arrayBuffer := fun _ => inr payload;
     w_writeFile := fun _ _ _ => None;
     w_exec := fun _ _ => mkExec (Some (new_Error msg)) EmptyString stderr;
     w_readFile := fun _ _ => inl (new_Error "ENOENT");
     w_upload := fun _ _ _ _ => inr 200;
     w_text := fun _ => inr EmptyString |}.

(** The same world with downloads answered by the status [st]. *)
Definition failing_fetch_world (t : Z) (st : nat) : world :=
  {| w_now := fun _ => t;
     w_mkdir := fun _ _ => None;
     w_fetch := fun _ _ => inr st;
     w_arrayBuffer := fun _ => inr [];
     w_writeFile := fun _ _ _ => None;
     w_exec := fun _ _ => mkExec None EmptyString EmptyString;
     w_readFile := fun _ _ => inr [];
     w_upload := fun _ _ _ _ => inr 200;
     w_text := fun _ => inr EmptyString |}.

(** Sample requests. *)
Definition image (url : string) (seconds : Z) : value :=
  VObject [("url", VString url); ("duration", VNumber (num_of_Z seconds))].

Definition sample_request : request :=
  mkRequest None
    (VObject [("images", VArray [image "http://cdn/a.png" 2; image "http://cdn/b.png" 0]);
              ("audio", VString "http://cdn/track.mp3")]).

Definition other_request : request :=
  mkRequest None
    (VObject [("images", VArray [image "http://cdn/c.png" 4]);
              ("audio", VString "http://cdn/voice.mp3");
              ("outputPath", VString "stories/other.mp4")]).

(** A request without token and without images. *)
Definition anonymous_request : request :=
  mkRequest None (VObject [("audio", VString "http://cdn/track.mp3")]).

Definition sample_assets : list local_asset :=
  [mkAsset (img_file (workDir_of 0) 0) (num_of_Z 2);
   mkAsset (img_file (workDir_of 0) 1) (num_of_Z 3)].

(** The first encoder command of a request that arrives at time 0 with the
    default frame size. *)
Definition sample_render_cmd : string :=
  render_cmd (path_join (workDir_of 0) "list.txt") (video_filter "1920" "1080")
             (path_join (workDir_of 0) "video.mp4").

(** Its second encoder command. *)
Definition sample_mux_cmd : string :=
  mux_cmd (path_join (workDir_of 0) "video.mp4") (path_join (workDir_of 0) "audio.mp3")
          (path_join (workDir_of 0) "final.mp4").

(** What the callback of [exec] receives from an encoder that exits with
    status zero and prints nothing. *)
Definition quiet_success : exec_outcome := mkExec None EmptyString EmptyString.

Definition sample_artifact : bytes := [Byte.x00; Byte.x00; Byte.x00; Byte.x18].

(** A second request that publishes to the default output path. *)
Definition repeat_request : request :=
  mkRequest None
    (VObject [("images", VArray [image "http://cdn/c.png" 4]);
              ("audio", VString "http://cdn/voice.mp3")]).

(** What the callback of [exec] receives from an encoder that cannot
    read its input. *)
Definition sample_failure : exec_outcome :=
  mkExec (Some (new_Error "Command failed")) EmptyString "list.txt: Invalid data found".

Definition sample_upload_url : string :=
  "https://proj.supabase.co/storage/v1/object/videos/stories%2Foutput.mp4".

Definition sample_env : env :=
  mkEnv None (Some "https://proj.supabase.co") None (Some "service-key").

Definition unconfigured_env : env := mkEnv None (Some "https://proj.supabase.co") None None.

Definition guarded_env : env :=
  mkEnv (Some "s3cret") (Some "https://proj.supabase.co") None (Some "service-key").

(** A world whose file system refuses to create the workspace. *)
Definition readonly_world (t : Z) : world :=
  {| w_now := fun _ => t;
     w_mkdir := fun _ _ => Some (new_Error "EROFS: read-only file system, mkdir");
     w_fetch := fun _ _ => inr 200;
     w_arrayBuffer := fun _ => inr [];
     w_writeFile := fun _ _ _ => None;
     w_exec := fun _ _ => mkExec None EmptyString EmptyString;
     w_readFile := fun _ _ => inr [];
     w_upload := fun _ _ _ _ => inr 200;
     w_text := fun _ => inr EmptyString |}.

(** A world whose store answers every upload with the status [st] and the
    body [txt]. *)
Definition refusing_store_world (t : Z) (artifact : bytes) (st : nat) (txt : string)
  : world :=
  {| w_now := fun _ => t;
     w_mkdir := fun _ _ => None;
     w_fetch := fun _ _ => inr 200;
     w_arrayBuffer := fun _ => inr [];
     w_writeFile := fun _ _ _ => None;
     w_exec := fun _ _ => mkExec None EmptyString EmptyString;
     w_readFile := fun _ _ => inr artifact;
     w_upload := fun _ _ _ _ => inr st;
     w_text := fun _ => inr txt |}.

(** A request whose second image entry is [null]. *)
Definition holed_request : request :=
  mkRequest None
    (VObject [("images", VArray [image "http://cdn/a.png" 2; VNull;
                                 image "http://cdn/c.png" 1]);
              ("audio", VString "http://cdn/track.mp3")]).

(** The sample request asking for 60 frames per second. *)
Definition fast_request : request :=
  mkRequest None
    (VObject [("images", VArray [image "http://cdn/a.png" 2; image "http://cdn/b.png" 0]);
              ("audio", VString "http://cdn/track.mp3");
              ("fps", VNumber (num_of_Z 60))]).

(** A request whose only image has an object as duration, with an own
    [toString] property that is no function. *)
Definition opaque_duration_request : request :=
  mkRequest None
    (VObject [("images",
               VArray [VObject [("url", VString "http://cdn/a.png");
                                ("duration", VObject [("toString", VNull)])]]);
              ("audio", VString "http://cdn/track.mp3")]).

(** A request whose durations are a text that is no number, a plain
    object, and the empty text. *)
Definition odd_durations_request : request :=
  mkRequest None
    (VObject [("images",
               VArray [VObject [("url", VString "http://cdn/a.png");
                                ("duration", VString "soon")];
                       VObject [("url", VString "http://cdn/b.png");
                                ("duration", VObject [])];
                       VObject [("url", VString "http://cdn/c.png");
                                ("duration", VString EmptyString)]]);
              ("audio", VString "http://cdn/track.mp3")]).

(** A request whose width closes the double quote of the filter argument
    and adds a command of its own. *)
Definition quoting_request : request :=
  mkRequest None
    (VObject [("images", VArray [image "http://cdn/a.png" 2]);
              ("audio", VString "http://cdn/track.mp3");
              ("width", VString ("1" +:+ dq +:+ "; id; " +:+ dq))]).

(** * Properties *)

(** ** Text *)

Lemma append_cons (x : ascii) (a b : string) : String x a +:+ b = String x (a +:+ b).
Proof. reflexivity. Qed.

Lemma append_nil_l (a : string) : EmptyString +:+ a = a.
Proof. reflexivity. Qed.

Lemma append_assoc (a b c : string) : (a +:+ b) +:+ c = a +:+ (b +:+ c).
Proof.
  induction a as [|x a IH]; [reflexivity|].
  rewrite !append_cons. now f_equal.
Qed.

Lemma append_nil_r (a : string) : a +:+ EmptyString = a.
Proof.
  induction a as [|x a IH]; [reflexivity|].
  rewrite append_cons. now f_equal.
Qed.

Lemma list_ascii_append (a b : string) :
  list_ascii_of_string (a +:+ b) = list_ascii_of_string a ++ list_ascii_of_string b.
Proof.
  induction a as [|x a IH]; [reflexivity|].
  rewrite append_cons. simpl. now f_equal.
Qed.

Lemma no_newline_append (a b : string) :
  no_newline (a +:+ b) = no_newline a && no_newline b.
Proof. unfold no_newline. now rewrite list_ascii_append, forallb_app. Qed.

Lemma split_lines_nonempty (s : string) : split_lines s <> [].
Proof.
  induction s as [|c s IH]; simpl; [discriminate|].
  destruct (is_nl c); [discriminate|].
  destruct (split_lines s); [congruence | discriminate].
Qed.

(** A line without line feed, then a line feed: the first line of the text. *)
Lemma split_lines_line (a rest : string) :
  no_newline a = true ->
  split_lines (a +:+ nl +:+ rest) = a :: split_lines rest.
Proof.
  induction a as [|c a IH]; intros Ha.
  - reflexivity.
  - unfold no_newline in Ha. simpl in Ha. apply andb_true_iff in Ha as [Hc Ha].
    apply negb_true_iff in Hc.
    rewrite append_cons. cbn [split_lines]. rewrite Hc. now rewrite (IH Ha).
Qed.

Lemma read_directive_file (path : string) : read_directive ("file " +:+ path) = File path.
Proof. reflexivity. Qed.

Lemma read_directive_duration (d : string) :
  read_directive ("duration " +:+ d) = Duration d.
Proof. reflexivity. Qed.

(** ** The timeline text *)

Section Timeline.

Context {rt : Runtime}.

(** The loop of step 3 appends the text of each asset, in order. *)
Lemma fold_left_concat_entry (l : list local_asset) (acc : string) :
  fold_left concat_entry l acc = acc +:+ fold_right (fun a r => entry_text a +:+ r) EmptyString l.
Proof.
  revert acc. induction l as [|a l IH]; intros acc; simpl.
  - now rewrite append_nil_r.
  - rewrite IH. unfold concat_entry, entry_text.
    now rewrite !append_assoc.
Qed.

Lemma directives_entries (l : list local_asset) (tail : string) :
  Forall printable l ->
  directives (fold_right (fun a r => entry_text a +:+ r) EmptyString l +:+ tail)
  = flat_map entry_lines l ++ directives tail.
Proof.
  induction 1 as [|a l [Hf Hd] _ IH]; simpl.
  - reflexivity.
  - unfold entry_text at 1. rewrite !append_assoc.
    unfold directives in *.
    rewrite <- (append_assoc "file " (file a)).
    rewrite split_lines_line by (rewrite no_newline_append, Hf; reflexivity).
    rewrite <- (append_assoc "duration " (NumberToString (duration a))).
    rewrite split_lines_line by (rewrite no_newline_append, Hd; reflexivity).
    cbn [map]. rewrite IH. reflexivity.
Qed.

Lemma count_file_entries (l : list local_asset) :
  length (List.filter is_File (flat_map entry_lines l)) = length l.
Proof. induction l as [|a l IH]; simpl; [reflexivity | now rewrite IH]. Qed.

(** The text of step 3, line by line. *)
Lemma directives_concat (localImgs : list local_asset) (final : local_asset) :
  last localImgs = Some final ->
  Forall printable localImgs ->
  directives (fold_left concat_entry localImgs ("ffconcat version 1.0" +:+ nl)
                +:+ "file " +:+ file final +:+ nl)
  = Other "ffconcat version 1.0"
      :: flat_map entry_lines localImgs ++ [File (file final); Other EmptyString].
Proof.
  intros Hlast Hprint.
  rewrite fold_left_concat_entry, !append_assoc.
  unfold directives at 1. rewrite split_lines_line by reflexivity.
  cbn [map]. f_equal.
  change (map read_directive (split_lines ?x)) with (directives x).
  rewrite directives_entries by assumption. f_equal.
  unfold directives. rewrite <- (append_assoc "file " (file final)).
  assert (Hf : no_newline (file final) = true).
  { apply last_Some in Hlast as [l' ->].
    apply Forall_app in Hprint as [_ Hp]. inversion Hp as [|? ? [Hf _] _]. exact Hf. }
  rewrite <- (append_nil_r nl) at 1.
  rewrite split_lines_line by (rewrite no_newline_append, Hf; reflexivity).
  reflexivity.
Qed.

Lemma count_timeline_files (localImgs : list local_asset) (final : local_asset) :
  length (List.filter is_File
            (Other "ffconcat version 1.0"
               :: flat_map entry_lines localImgs ++ [File (file final); Other EmptyString]))
  = S (length localImgs).
Proof.
  cbn [List.filter is_File]. rewrite List.filter_app, length_app, count_file_entries.
  simpl. lia.
Qed.

(** C1.  For a non-empty list of [N] local assets whose paths and printed
    durations hold no line feed, the ffconcat text reads, line by line: the
    version header; for each asset in input order its [file] line followed
    at once by its [duration] line; one more [file] line that repeats the
    path of the last asset; and nothing after it.  It holds exactly [N + 1]
    [file] lines. *)
Theorem concat_timeline_entries (localImgs : list local_asset) :
  localImgs <> [] ->
  Forall printable localImgs ->
  exists content final,
    concatContent localImgs = Ok content /\
    last localImgs = Some final /\
    directives content
    = Other "ffconcat version 1.0"
        :: flat_map entry_lines localImgs ++ [File (file final); Other EmptyString] /\
    length (List.filter is_File (directives content)) = S (length localImgs).
Proof.
  intros Hne Hprint.
  destruct (last localImgs) as [final|] eqn:Hlast.
  2: { apply last_None in Hlast. contradiction. }
  unfold concatContent. rewrite Hlast.
  eexists _, final. split; [reflexivity|]. split; [reflexivity|].
  rewrite (directives_concat localImgs final Hlast Hprint).
  split; [reflexivity | apply count_timeline_files].
Qed.

End Timeline.

(** ** Runs of the pipeline stages *)

Section Runs.

Context {rt : Runtime}.
Variable w : world.

(** One download either completes its three steps or throws at one of
    them. *)
Lemma downloadToFile_run (url : value) (out : string) (tr : list event) :
  (exists st buf,
      res_ok st = true /\
      downloadToFile w url out tr
      = (Ok out, tr ++ [EvFetch url (inr st); EvArrayBuffer (inr buf);
                        EvWriteFile out buf None]))
  \/ (exists e new,
         downloadToFile w url out tr = (Throw e, tr ++ new) /\
         download_failure url out new).
Proof.
  unfold downloadToFile, bind, fetch.
  destruct (w_fetch w tr url) as [e|st] eqn:Hfetch; cbn [of_sum].
  - right. exists e, [EvFetch url (inl e)]. split; [reflexivity | constructor].
  - destruct (res_ok st) eqn:Hok; cbn [negb].
    + unfold arrayBuffer.
      destruct (w_arrayBuffer w (tr ++ [EvFetch url (inr st)])) as [e|buf] eqn:Hbody;
        cbn [of_sum].
      * right. exists e, [EvFetch url (inr st); EvArrayBuffer (inl e)].
        rewrite <- app_assoc. split; [reflexivity | now constructor].
      * unfold writeFile, ret.
        destruct (w_writeFile w ((tr ++ [EvFetch url (inr st)]) ++ [EvArrayBuffer (inr buf)])
                    out buf) as [e|] eqn:Hwrite; cbn [of_option].
        -- right. exists e. eexists. rewrite <- !app_assoc. cbn [app].
           split; [reflexivity | now constructor].
        -- left. exists st, buf. rewrite <- !app_assoc. cbn [app]. now split.
    + right. unfold lift, throw.
      destruct (ToString url) as [u|e].
      * eexists. exists [EvFetch url (inr st)]. split; [reflexivity | now constructor].
      * exists e, [EvFetch url (inr st)]. split; [reflexivity | now constructor].
Qed.

Lemma downloaded_app js1 js2 tr1 tr2 :
  downloaded js1 tr1 -> downloaded js2 tr2 -> downloaded (js1 ++ js2) (tr1 ++ tr2).
Proof.
  induction 1 as [|url out st buf js tr Hok _ IH]; intros H2; simpl; [exact H2|].
  constructor; [exact Hok | exact (IH H2)].
Qed.

Lemma aborted_app_l js1 js2 tr : aborted js1 tr -> aborted (js1 ++ js2) tr.
Proof.
  induction 1 as [url out js tr Hf| js |url out st buf js tr Hok _ IH]; simpl.
  - now apply aborted_inside.
  - apply aborted_between.
  - now apply aborted_later.
Qed.

Lemma aborted_after js1 js2 tr1 tr2 :
  downloaded js1 tr1 -> aborted js2 tr2 -> aborted (js1 ++ js2) (tr1 ++ tr2).
Proof.
  induction 1 as [|url out st buf js tr Hok _ IH]; intros H2; simpl; [exact H2|].
  apply aborted_later; [exact Hok | exact (IH H2)].
Qed.

(** The loop of step 1 either downloads every image in turn, pushing one
    local asset for each, or stops at the first failure. *)
Lemma download_images_run (workDir : string) (images : list value) (i : nat)
      (acc : list local_asset) (tr : list event) :
  (exists assets dl,
      download_images w workDir images i acc tr = (Ok (acc ++ assets), tr ++ dl) /\
      assets_of workDir images i assets /\
      downloaded (image_jobs workDir images i) dl)
  \/ (exists e new,
         download_images w workDir images i acc tr = (Throw e, tr ++ new) /\
         aborted (image_jobs workDir images i) new).
Proof.
  revert i acc tr. induction images as [|img rest IH]; intros i acc tr.
  - left. exists [], []. rewrite !app_nil_r. repeat split; constructor.
  - cbn [download_images image_jobs].
    assert (Hstop : forall e, exists e' new,
               (Throw e : result (list local_asset), tr) = (Throw e', tr ++ new) /\
               aborted ((get_prop img "url", img_file workDir i)
                          :: image_jobs workDir rest (S i)) new).
    { intros e. exists e, []. rewrite app_nil_r. split; [reflexivity | constructor 2]. }
    unfold bind, lift.
    destruct (get_member img "url") as [imgUrl|e] eqn:Hurl; cbv beta iota;
      [|right; apply Hstop].
    assert (imgUrl = get_prop img "url") as ->.
    { destruct img; cbn in Hurl; first [discriminate | injection Hurl as <-; reflexivity]. }
    destruct (get_member img "duration") as [d|e] eqn:Hd; cbv beta iota;
      [|right; apply Hstop].
    assert (d = get_prop img "duration") as ->.
    { destruct img; cbn in Hd; first [discriminate | injection Hd as <-; reflexivity]. }
    destruct (duration_of (get_prop img "duration")) as [dur|e] eqn:Hdur; cbv beta iota;
      [|right; apply Hstop].
    destruct (downloadToFile_run (get_prop img "url") (img_file workDir i) tr)
      as [(st & buf & Hok & ->)|(e & new & -> & Hfail)]; cbv beta iota.
    + destruct (IH (S i) (acc ++ [mkAsset (img_file workDir i) dur])
                  (tr ++ [EvFetch (get_prop img "url") (inr st); EvArrayBuffer (inr buf);
                          EvWriteFile (img_file workDir i) buf None]))
        as [(assets & dl & -> & Hassets & Hdl)|(e & new & -> & Habort)].
      * left. exists (mkAsset (img_file workDir i) dur :: assets). eexists.
        rewrite <- !app_assoc. cbn [app]. split; [reflexivity|].
        split; [now constructor | now constructor].
      * right. exists e. eexists. rewrite <- !app_assoc. cbn [app].
        split; [reflexivity | now apply aborted_later].
    + right. exists e, new. split; [reflexivity | now apply aborted_inside].
Qed.

(** Steps 0 to 3 from the arrival of the request. *)
Lemma prepare_run (images : list value) (audio : value) :
  prepare_outcome images audio
                  (fst (prepare w images audio [])) (snd (prepare w images audio [])).
Proof.
  unfold prepare, bind, lift, now, mkdir. cbv beta iota zeta. cbn [app].
  set (t := w_now w []). set (wd := workDir_of t).
  destruct (w_mkdir w [EvNow t] wd) as [e|] eqn:Hmk; cbn [of_option app]; cbv beta iota.
  { apply prepare_no_workspace. }
  destruct (download_images_run wd images 0 [] [EvNow t; EvMkdir wd None])
    as [(assets & dl & -> & Hassets & Hdl)|(e & new & -> & Habort)]; cbv beta iota.
  2: { cbn [fst snd app]. apply prepare_aborted. now apply aborted_app_l. }
  cbn [app].
  destruct (downloadToFile_run audio (path_join wd "audio.mp3")
              (EvNow t :: EvMkdir wd None :: dl))
    as [(st & buf & Hok & ->)|(e & new & -> & Hfail)]; cbv beta iota.
  2: { cbn [fst snd app]. apply prepare_aborted. apply aborted_after; [exact Hdl|].
       now apply aborted_inside. }
  assert (Hall : downloaded (jobs wd images audio)
                   (dl ++ [EvFetch audio (inr st); EvArrayBuffer (inr buf);
                           EvWriteFile (path_join wd "audio.mp3") buf None])).
  { apply downloaded_app; [exact Hdl|]. constructor; [exact Hok | constructor]. }
  destruct (concatContent assets) as [content|e] eqn:Hcontent;
    cbv beta iota.
  2: { cbn [fst snd app]. apply prepare_aborted.
       pose proof (aborted_after _ [] _ [] Hall (aborted_between [])) as Hstop.
       now rewrite !app_nil_r in Hstop. }
  unfold writeFile, ret. cbv beta zeta.
  match goal with
  | |- context [w_writeFile w ?h ?f ?d] => destruct (w_writeFile w h f d) as [e|] eqn:Hw
  end; cbn [of_option fst snd app].
  - rewrite app_comm_cons, app_comm_cons.
    change (EvNow t :: EvMkdir wd None :: ?a ++ ?b)
      with ((EvNow t :: EvMkdir wd None :: a) ++ b).
    cbn [app]. now apply prepare_no_list.
  - now apply prepare_done with (assets := assets).
Qed.

(** Steps 4 and 5 from any trace. *)
Lemma encode_run (workDir : string) (width height : value) (tr : list event) :
  exists new,
    snd (encode w workDir width height tr) = tr ++ new /\
    encode_outcome workDir width height (fst (encode w workDir width height tr)) new.
Proof.
  unfold encode, bind, lift, run, ret. cbv beta zeta.
  destruct (ToString width) as [sw|e] eqn:Hw; cbv beta iota.
  2: { exists []. rewrite app_nil_r. split; [reflexivity | now apply encode_no_width]. }
  destruct (ToString height) as [sh|e] eqn:Hh; cbv beta iota.
  2: { exists []. rewrite app_nil_r. split; [reflexivity | now apply encode_no_height with sw]. }
  match goal with
  | |- context [w_exec w tr ?c] => destruct (w_exec w tr c) as [err1 o1 e1] eqn:H1
  end.
  cbn [exec_err exec_stdout exec_stderr].
  destruct err1 as [err1|]; cbv beta iota.
  { eexists. split; [reflexivity|]. cbn [fst].
    now apply encode_render_failed with (r := mkExec (Some err1) o1 e1). }
  match goal with
  | |- context [w_exec w (tr ++ ?h) ?c] =>
      destruct (w_exec w (tr ++ h) c) as [err2 o2 e2] eqn:H2
  end.
  cbn [exec_err exec_stdout exec_stderr].
  destruct err2 as [err2|]; cbv beta iota; cbn [fst snd]; rewrite <- app_assoc; cbn [app];
    eexists; (split; [reflexivity|]).
  - now apply encode_mux_failed
      with (r1 := mkExec None o1 e1) (r2 := mkExec (Some err2) o2 e2).
  - now apply encode_done with (r1 := mkExec None o1 e1) (r2 := mkExec None o2 e2).
Qed.

(** Step 6 from any trace. *)
Lemma publish_run (e : env) (finalFile : string) (outputPath : value) (tr : list event) :
  exists new,
    snd (publish w e finalFile outputPath tr) = tr ++ new /\
    publish_outcome e finalFile outputPath
                    (fst (publish w e finalFile outputPath tr)) new.
Proof.
  unfold publish. cbv zeta.
  destruct (env_missing (env_SUPABASE_URL e) || env_missing (env_SUPABASE_SERVICE_ROLE_KEY e))
    eqn:Hcfg.
  { exists []. rewrite app_nil_r. unfold throw. split; [reflexivity|].
    apply publish_unconfigured. unfold configured. now rewrite Hcfg. }
  assert (Hc : configured e = true) by (unfold configured; now rewrite Hcfg).
  unfold bind, lift, readFile, upload, text, throw, ret. cbv beta zeta.
  destruct (w_readFile w tr finalFile) as [err|buf] eqn:Hread; cbn [of_sum]; cbv beta iota.
  { eexists. split; [reflexivity|]. now apply publish_unreadable. }
  destruct (ToString outputPath) as [key|err] eqn:Hkey; cbv beta iota.
  2: { eexists. split; [reflexivity|]. now apply publish_no_key. }
  match goal with
  | |- context [w_upload w ?h ?u ?hd ?d] => destruct (w_upload w h u hd d) as [err|st] eqn:Hup
  end; cbn [of_sum]; cbv beta iota.
  { rewrite <- app_assoc. eexists. split; [reflexivity|]. now apply publish_unreachable. }
  destruct (res_ok st) eqn:Hok; cbn [negb]; cbv beta iota.
  { rewrite <- app_assoc. eexists. split; [reflexivity|]. now apply publish_done. }
  match goal with
  | |- context [w_text w ?h] => destruct (w_text w h) as [err|txt] eqn:Htxt
  end; cbn [of_sum]; cbv beta iota; rewrite <- !app_assoc; cbn [app];
    eexists; (split; [reflexivity|]).
  - now apply publish_refused_unread.
  - now apply publish_refused.
Qed.

(** Every request ends in one of the outcomes of [run_outcome]. *)
Lemma create_video_run (e : env) (req : request) :
  run_outcome e req
              (fst (create_video w e req)) (snd (create_video w e req)).
Proof.
  unfold create_video, try_block.
  destruct (unauthorized e req) eqn:Hauth.
  { apply run_unauthorized. exact Hauth. }
  cbv zeta.
  change (field_or (js_or (req_body req) (VObject [])) "images" (VArray []))
    with (request_images req).
  change (get_prop (js_or (req_body req) (VObject [])) "audio") with (request_audio req).
  change (field_or (js_or (req_body req) (VObject [])) "outputPath"
                   (VString "stories/output.mp4")) with (request_outputPath req).
  change (field_or (js_or (req_body req) (VObject [])) "width" (VNumber (num_of_Z 1920)))
    with (request_width req).
  change (field_or (js_or (req_body req) (VObject [])) "height" (VNumber (num_of_Z 1080)))
    with (request_height req).
  change (field_or (js_or (req_body req) (VObject [])) "fps" (VNumber (num_of_Z 25)))
    with (request_fps req).
  change (negb (isArray (request_images req))
          || Nat.eqb (length (elements (request_images req))) 0)
    with (rejected_images req).
  change (negb (truthy (request_audio req))) with (rejected_audio req).
  destruct (rejected_images req) eqn:Himg.
  { now apply run_no_images. }
  destruct (rejected_audio req) eqn:Haud.
  { now apply run_no_audio. }
  assert (Hacc : accepted e req = true).
  { unfold accepted. now rewrite Hauth, Himg, Haud. }
  unfold bind, ret.
  pose proof (prepare_run (elements (request_images req)) (request_audio req)) as H1.
  destruct (prepare w (elements (request_images req)) (request_audio req) [])
    as [[workDir|err] tr1]; cbn [fst snd] in H1 |- *.
  2: { now apply run_prepare_failed. }
  destruct (encode_run workDir (request_width req) (request_height req) tr1)
    as (tr2 & Htr2 & H2).
  destruct (encode w workDir (request_width req) (request_height req) tr1)
    as [[finalFile|err] tr12]; cbn [fst snd] in Htr2, H2 |- *; subst tr12.
  2: { rewrite <- app_assoc. now apply run_encode_failed with (workDir := workDir). }
  destruct (publish_run e finalFile (request_outputPath req) (tr1 ++ tr2))
    as (tr3 & Htr3 & H3).
  destruct (publish w e finalFile (request_outputPath req) (tr1 ++ tr2))
    as [[[url size]|err] tr123]; cbn [fst snd] in Htr3, H3 |- *; subst tr123.
  - rewrite <- app_assoc.
    now apply run_done with (workDir := workDir) (finalFile := finalFile).
  - rewrite <- !app_assoc.
    now apply run_publish_failed with (workDir := workDir) (finalFile := finalFile).
Qed.

End Runs.

(** ** What the traces of the stages hold *)

Lemma js_or_text (s : string) : js_or (VString s) (VString EmptyString) = VString s.
Proof. destruct s; reflexivity. Qed.

Lemma downloaded_preparation js tr :
  downloaded js tr -> Forall (fun ev => is_preparation ev = true) tr.
Proof. induction 1; repeat constructor; assumption. Qed.

Lemma download_failure_preparation url out tr :
  download_failure url out tr -> Forall (fun ev => is_preparation ev = true) tr.
Proof. destruct 1; repeat constructor. Qed.

Lemma aborted_preparation js tr :
  aborted js tr -> Forall (fun ev => is_preparation ev = true) tr.
Proof.
  induction 1 as [url out js tr Hf| |]; repeat constructor; try assumption.
  eapply download_failure_preparation, Hf.
Qed.

Lemma downloaded_mkdir_free js tr dir r :
  downloaded js tr -> In (EvMkdir dir r) tr -> False.
Proof.
  induction 1 as [|url out st buf js tr _ _ IH]; simpl; [tauto|].
  intros [H|[H|[H|H]]]; try discriminate. exact (IH H).
Qed.

Lemma aborted_mkdir_free js tr dir r :
  aborted js tr -> In (EvMkdir dir r) tr -> False.
Proof.
  induction 1 as [url out js tr Hf| |url out st buf js tr _ _ IH]; simpl.
  - destruct Hf; simpl; intuition discriminate.
  - tauto.
  - intros [H|[H|[H|H]]]; try discriminate. exact (IH H).
Qed.

Lemma downloaded_fetched js tr : downloaded js tr -> fetched tr = map fst js.
Proof. induction 1; simpl; [reflexivity | now f_equal]. Qed.

Lemma downloaded_fetch_ok js tr url r :
  downloaded js tr -> In (EvFetch url r) tr -> fetch_failed r = false.
Proof.
  induction 1 as [|url' out st buf js tr Hok _ IH]; simpl; [tauto|].
  intros [H|[H|[H|H]]]; try discriminate; [|now apply IH].
  injection H as _ <-. simpl. now rewrite Hok.
Qed.

Lemma download_failure_fetched url out tr :
  download_failure url out tr -> fetched tr = [url].
Proof. destruct 1; reflexivity. Qed.

Lemma aborted_fetched js tr :
  aborted js tr -> exists rest, map fst js = fetched tr ++ rest.
Proof.
  induction 1 as [url out js tr Hf| js |url out st buf js tr Hok _ [rest IH]].
  - exists (map fst js). now rewrite (download_failure_fetched _ _ _ Hf).
  - now exists (map fst js).
  - exists rest. simpl. now rewrite IH.
Qed.

Lemma fetched_app tr1 tr2 : fetched (tr1 ++ tr2) = fetched tr1 ++ fetched tr2.
Proof. unfold fetched. now rewrite flat_map_app. Qed.

Lemma fetched_none tr :
  Forall (fun ev => is_fetch ev = false) tr -> fetched tr = [].
Proof.
  induction 1 as [|ev tr Hev _ IH]; [reflexivity|].
  destruct ev; try discriminate; exact IH.
Qed.

Lemma image_jobs_addresses workDir images i :
  map fst (image_jobs workDir images i) = map (fun img => get_prop img "url") images.
Proof.
  revert i. induction images as [|img rest IH]; intros i; simpl; [reflexivity|].
  now rewrite IH.
Qed.

Lemma jobs_addresses workDir req :
  map fst (jobs workDir (elements (request_images req)) (request_audio req))
  = addresses req.
Proof.
  unfold jobs, addresses. rewrite map_app, image_jobs_addresses. reflexivity.
Qed.

Section StageTraces.

Context {rt : Runtime}.

Lemma prepare_preparation images audio r tr :
  prepare_outcome images audio r tr -> Forall (fun ev => is_preparation ev = true) tr.
Proof.
  destruct 1 as [t dl assets content Hdl _ _|t e|t e tr Hab|t dl data e Hdl];
    repeat (apply List.Forall_cons; [reflexivity|]).
  - apply Forall_app. split; [now apply downloaded_preparation in Hdl | repeat constructor].
  - constructor.
  - now apply aborted_preparation in Hab.
  - apply Forall_app. split; [now apply downloaded_preparation in Hdl | repeat constructor].
Qed.

Lemma encode_execs workDir width height r tr :
  encode_outcome workDir width height r tr -> Forall (fun ev => is_exec ev = true) tr.
Proof. destruct 1; repeat constructor. Qed.

Lemma publish_events e finalFile outputPath r tr :
  publish_outcome e finalFile outputPath r tr ->
  Forall (fun ev => is_preparation ev = false /\ is_exec ev = false) tr.
Proof. destruct 1; repeat constructor. Qed.

End StageTraces.

(** ** Every recorded outcome comes from the world *)

Lemma consistent_inv (w : world) (pre post : list event) (ev : event) :
  consistent w (pre ++ ev :: post) -> answered w pre ev.
Proof.
  revert pre ev. induction post as [|x post IH] using rev_ind; intros pre ev H.
  - inversion H as [E|tr ev' Htr Hev E].
    + destruct pre; discriminate.
    + apply app_inj_tail in E as [-> ->]. exact Hev.
  - apply IH. inversion H as [E|tr ev' Htr Hev E].
    + destruct pre; discriminate.
    + rewrite app_comm_cons, app_assoc in E. apply app_inj_tail in E as [-> _]. exact Htr.
Qed.

Section Consistency.

Context {rt : Runtime}.
Variable w : world.

Lemma preserves_ret {A} (a : A) : preserves w (ret a).
Proof. intros tr H. exact H. Qed.

Lemma preserves_throw {A} (e : error) : preserves w (throw (A := A) e).
Proof. intros tr H. exact H. Qed.

Lemma preserves_lift {A} (r : result A) : preserves w (lift r).
Proof. intros tr H. exact H. Qed.

Lemma preserves_bind {A B} (m : M A) (k : A -> M B) :
  preserves w m -> (forall a, preserves w (k a)) -> preserves w (bind m k).
Proof.
  intros Hm Hk tr H. unfold bind. specialize (Hm tr H).
  destruct (m tr) as [[a|e] tr']; cbn [snd] in *; [now apply Hk | exact Hm].
Qed.

Lemma preserves_if {A} (b : bool) (m1 m2 : M A) :
  preserves w m1 -> preserves w m2 -> preserves w (if b then m1 else m2).
Proof. destruct b; auto. Qed.

Ltac one_call := intros tr H; cbn [snd]; constructor; [exact H | reflexivity].

Lemma preserves_now : preserves w (now w).
Proof. one_call. Qed.

Lemma preserves_mkdir dir : preserves w (mkdir w dir).
Proof. one_call. Qed.

Lemma preserves_fetch url : preserves w (fetch w url).
Proof. one_call. Qed.

Lemma preserves_arrayBuffer : preserves w (arrayBuffer w).
Proof. one_call. Qed.

Lemma preserves_writeFile f data : preserves w (writeFile w f data).
Proof. one_call. Qed.

Lemma preserves_readFile f : preserves w (readFile w f).
Proof. one_call. Qed.

Lemma preserves_upload url headers data : preserves w (upload w url headers data).
Proof. one_call. Qed.

Lemma preserves_text : preserves w (text w).
Proof. one_call. Qed.

Lemma preserves_run cmd : preserves w (run w cmd).
Proof. one_call. Qed.

Create HintDb calls.
#[local] Hint Resolve preserves_ret preserves_throw preserves_lift preserves_now preserves_mkdir
     preserves_fetch preserves_arrayBuffer preserves_writeFile preserves_readFile
     preserves_upload preserves_text preserves_run : calls.

(** Walks down a sequence of statements. *)
Ltac walk :=
  repeat first [ solve [auto with calls]
               | apply preserves_bind; [|intros ?]
               | apply preserves_if ].

Lemma preserves_downloadToFile url out : preserves w (downloadToFile w url out).
Proof. unfold downloadToFile. walk. Qed.

#[local] Hint Resolve preserves_downloadToFile : calls.

Lemma preserves_download_images workDir images i acc :
  preserves w (download_images w workDir images i acc).
Proof.
  revert i acc. induction images as [|img rest IH]; intros i acc; cbn [download_images].
  - auto with calls.
  - walk.
Qed.

#[local] Hint Resolve preserves_download_images : calls.

Lemma preserves_prepare images audio :
  preserves w (prepare w images audio).
Proof.
  unfold prepare. walk.
Qed.

Lemma preserves_encode workDir width height :
  preserves w (encode w workDir width height).
Proof. unfold encode. walk. Qed.

Lemma preserves_publish e finalFile outputPath :
  preserves w (publish w e finalFile outputPath).
Proof. unfold publish. cbv zeta. walk. Qed.

#[local] Hint Resolve preserves_prepare preserves_encode preserves_publish : calls.

Lemma preserves_try_block e req :
  preserves w (try_block w e req).
Proof.
  unfold try_block. cbv zeta. walk.
Qed.

(** The trace of a request is explained by its world. *)
Lemma create_video_consistent e req :
  consistent w (fst (create_video w e req)).
Proof.
  unfold create_video.
  pose proof (preserves_try_block e req [] (consistent_nil w)) as H.
  destruct (try_block w e req []) as [[r|err] tr];
    cbn [fst snd] in *; [exact H|].
  constructor; [exact H | exact I].
Qed.

End Consistency.

(** ** The handler *)

Lemma preparation_not_exec ev : is_preparation ev = true -> is_exec ev = false.
Proof. destruct ev; simpl; congruence. Qed.

Lemma preparation_not_upload ev : is_preparation ev = true -> is_upload ev = false.
Proof. destruct ev; simpl; congruence. Qed.

Lemma exec_not_upload ev : is_exec ev = true -> is_upload ev = false.
Proof. destruct ev; simpl; congruence. Qed.

Lemma exec_not_fetch ev : is_exec ev = true -> is_fetch ev = false.
Proof. destruct ev; simpl; congruence. Qed.

Lemma not_preparation_not_fetch ev : is_preparation ev = false -> is_fetch ev = false.
Proof. destruct ev; simpl; congruence. Qed.

(** Splits a membership in a trace along its segments. *)
Ltac split_in H :=
  repeat match type of H with
         | In _ (_ ++ _) => apply in_app_or in H; destruct H as [H|H]
         | In _ (_ :: _) => destruct H as [H|H]
         | In _ [] => destruct H
         end.

(** Closes a goal whose hypothesis puts an event of the wrong kind in a
    segment. *)
Ltac wrong_kind H :=
  match goal with
  | HF : Forall _ ?tr |- _ =>
      match type of H with
      | In _ tr =>
          let K := fresh in
          pose proof (proj1 (List.Forall_forall _ _) HF _ H) as K;
          simpl in K; (discriminate || (destruct K; discriminate))
      end
  end.

Lemma get_prop_body (v : value) (k : string) :
  get_prop (js_or v (VObject [])) k = get_prop v k.
Proof.
  unfold js_or. destruct (truthy v) eqn:Ht; [reflexivity|].
  destruct v; try reflexivity; discriminate.
Qed.

Lemma filter_none {A} (f : A -> bool) (l : list A) :
  Forall (fun x => f x = false) l -> List.filter f l = [].
Proof. induction 1 as [|x l Hx _ IH]; simpl; [reflexivity | now rewrite Hx]. Qed.

(** The encoded text holds no slash, and a slash of the key becomes
    [%2F]. *)
Lemma hex_digit_no_slash (n : nat) : hex_digit n <> "/"%char.
Proof.
  unfold hex_digit.
  do 16 (destruct n as [|n]; [discriminate|]).
  simpl. destruct n; discriminate.
Qed.

Lemma encode_char_no_slash (c : ascii) :
  ~ In "/"%char (list_ascii_of_string (encode_char c)).
Proof.
  unfold encode_char. destruct (uri_unreserved c) eqn:Hc.
  - simpl. intros [->|[]]. vm_compute in Hc. discriminate.
  - unfold percent_encode. cbv zeta. cbn [list_ascii_of_string In].
    intros [H|[H|[H|[]]]]; [discriminate| |]; eapply hex_digit_no_slash, H.
Qed.

Lemma encodeURIComponent_no_slash (s : string) :
  ~ In "/"%char (list_ascii_of_string (encodeURIComponent s)).
Proof.
  induction s as [|c s IH]; simpl; [tauto|].
  rewrite list_ascii_append, in_app_iff. intros [H|H]; [|exact (IH H)].
  exact (encode_char_no_slash c H).
Qed.

Lemma encodeURIComponent_append (a b : string) :
  encodeURIComponent (a +:+ b) = encodeURIComponent a +:+ encodeURIComponent b.
Proof.
  induction a as [|c a IH]; [reflexivity|].
  rewrite append_cons. simpl. now rewrite IH, append_assoc.
Qed.

Lemma encodeURIComponent_slash (a b : string) :
  encodeURIComponent (a +:+ "/" +:+ b)
  = encodeURIComponent a +:+ "%2F" +:+ encodeURIComponent b.
Proof. now rewrite !encodeURIComponent_append. Qed.

Section Handler.

Context {rt : Runtime}.
Variable w : world.

(** C3.  When an encoder invocation of the request exits with a failure,
    the response is 500, its [error] is the message of the failure and its
    [details] is the captured standard error; the failing invocation is the
    last call to the outside (only the log of the error follows it), and
    the trace holds no upload. *)
Theorem encoder_failure_response (e : env) (req : request) (cmd : string)
        (r : exec_outcome) (err : error) :
  In (EvExec cmd r) (fst (create_video w e req)) ->
  exec_err r = Some err ->
  snd (create_video w e req)
  = mkResponse 500 (VObject [("error", VString (message err));
                             ("details", VString (exec_stderr r))])
  /\ Forall (fun ev => is_upload ev = false) (fst (create_video w e req))
  /\ exists before thrown,
      fst (create_video w e req) = before ++ [EvExec cmd r; EvLog thrown].
Proof.
  intros Hin Herr.
  pose proof (create_video_run w e req) as Hrun.
  destruct (create_video w e req) as [tr resp]. cbn [fst snd] in *.
  destruct Hrun as [ | | |thrown tr1 _ H1|workDir tr1 thrown tr2 _ H1 H2
                   |workDir tr1 finalFile tr2 thrown tr3 _ H1 H2 H3
                   |workDir tr1 finalFile tr2 url size tr3 _ H1 H2 H3];
    try (destruct Hin; fail).
  - apply prepare_preparation in H1. split_in Hin; try discriminate. wrong_kind Hin.
  - pose proof (prepare_preparation _ _ _ _ H1) as P1.
    assert (U1 : Forall (fun ev => is_upload ev = false) tr1).
    { eapply Forall_impl; [exact P1 | intros ev; apply preparation_not_upload]. }
    inversion H2 as [e0 Hw|sw e0 Hw Hh|sw sh r1 err1 Hw Hh E1
                    |sw sh r1 r2 err2 Hw Hh E1 E2|]; subst;
      split_in Hin; try discriminate; try wrong_kind Hin.
    + injection Hin as <- <-. rewrite E1 in Herr. injection Herr as <-.
      split; [unfold failure_response; cbn [message details]; now rewrite js_or_text|].
      split.
      * apply Forall_app. split; [exact U1 | repeat constructor].
      * exists tr1. eexists. reflexivity.
    + injection Hin as <- <-. congruence.
    + injection Hin as <- <-. rewrite E2 in Herr. injection Herr as <-.
      split; [unfold failure_response; cbn [message details]; now rewrite js_or_text|].
      split.
      * apply Forall_app. split; [exact U1 | repeat constructor].
      * eexists (tr1 ++ [EvExec _ r1]). eexists. now rewrite <- app_assoc.
  - apply prepare_preparation in H1. apply publish_events in H3.
    inversion H2 as [| | | |sw sh r1 r2 Hw Hh E1 E2]; subst.
    split_in Hin; try discriminate; try wrong_kind Hin;
      injection Hin as <- <-; congruence.
  - apply prepare_preparation in H1. apply publish_events in H3.
    inversion H2 as [| | | |sw sh r1 r2 Hw Hh E1 E2]; subst.
    split_in Hin; try discriminate; try wrong_kind Hin;
      injection Hin as <- <-; congruence.
Qed.

(** C2, amended.  A request that passes the token check and whose [images]
    field is missing, is not an array or is an empty array, or whose
    [audio] field is missing, is answered 400 with an error message, and the
    handler calls nothing outside: no clock, no file system, no network, no
    child process. *)
Theorem invalid_request_rejected (e : env) (req : request) :
  unauthorized e req = false ->
  get_prop (req_body req) "images" = VUndefined
  \/ isArray (get_prop (req_body req) "images") = false
  \/ get_prop (req_body req) "images" = VArray []
  \/ get_prop (req_body req) "audio" = VUndefined ->
  create_video w e req = ([], mkResponse 400 (error_body "images[] required"))
  \/ create_video w e req = ([], mkResponse 400 (error_body "audio url required")).
Proof.
  intros Hauth Hbad.
  assert (Hrej : rejected_images req = true \/ rejected_audio req = true).
  { unfold rejected_images, rejected_audio, request_images, request_audio, field_or.
    rewrite !get_prop_body.
    destruct Hbad as [H|[H|[H|H]]]; rewrite ?H; auto.
    left. destruct (get_prop (req_body req) "images"); try discriminate; reflexivity. }
  pose proof (create_video_run w e req) as Hrun.
  destruct (create_video w e req) as [tr resp]. cbn [fst snd] in Hrun.
  destruct Hrun as [Hu|_ _|_ _ _|? ? Hacc _|? ? ? ? Hacc _ _|? ? ? ? ? ? Hacc _ _ _
                   |? ? ? ? ? ? ? Hacc _ _ _]; auto; try congruence;
    unfold accepted in Hacc; rewrite Hauth in Hacc;
    destruct Hrej as [Hr|Hr]; rewrite Hr in Hacc;
    destruct (rejected_images req); discriminate.
Qed.

(** C5.  When the upload of the request is answered with a success status,
    the response is 200 and its body holds [success] true, the public URL
    of the object (the upload URL with the segment [public/] inserted
    before the same encoded bucket and key), the byte length of the
    uploaded buffer, the number of images, and the [fps], [width] and
    [height] of the request or their defaults. *)
Theorem success_response (e : env) (req : request) (url : string)
        (headers : list (string * string)) (data : bytes) (st : nat) :
  In (EvUpload url headers data (inr st)) (fst (create_video w e req)) ->
  res_ok st = true ->
  exists key,
    ToString (request_outputPath req) = Ok key /\
    url = store_base e +:+ "/storage/v1/object/"
            +:+ encodeURIComponent (store_bucket e) +:+ "/" +:+ encodeURIComponent key /\
    snd (create_video w e req)
    = mkResponse 200
        (VObject [("success", VBool true);
                  ("url", VString (store_base e +:+ "/storage/v1/object/public/"
                                     +:+ encodeURIComponent (store_bucket e)
                                     +:+ "/" +:+ encodeURIComponent key));
                  ("size", VNumber (num_of_nat (length data)));
                  ("frames", VNumber (num_of_nat (length (elements (request_images req)))));
                  ("fps", request_fps req);
                  ("width", request_width req);
                  ("height", request_height req)]).
Proof.
  intros Hin Hok.
  pose proof (create_video_run w e req) as Hrun.
  destruct (create_video w e req) as [tr resp]. cbn [fst snd] in *.
  destruct Hrun as [ | | |thrown tr1 _ H1|workDir tr1 thrown tr2 _ H1 H2
                   |workDir tr1 finalFile tr2 thrown tr3 _ H1 H2 H3
                   |workDir tr1 finalFile tr2 url' size tr3 _ H1 H2 H3];
    try (destruct Hin; fail);
    apply prepare_preparation in H1; try apply encode_execs in H2.
  - split_in Hin; try discriminate. wrong_kind Hin.
  - split_in Hin; try discriminate; wrong_kind Hin.
  - inversion H3; subst; split_in Hin; try discriminate; try wrong_kind Hin;
      injection Hin as <- <- <- <-; congruence.
  - inversion H3 as [| | | | | |buf key st' Hc Hkey Hok']; subst.
    split_in Hin; try discriminate; try wrong_kind Hin.
    injection Hin as <- <- <- <-. exists key. repeat split; assumption || reflexivity.
Qed.

(** The fetches of a request are, in order, a first part of: each image
    in request order, then the audio track.  When an encoder invocation
    occurs, the trace starts with the workspace and then the complete
    download of every image in turn and of the audio track, each download
    finished (fetched, read, written) before the next fetch, and no fetch
    follows.  When a fetch of the request fails, no encoder invocation
    occurs and the response is 500. *)
Lemma fetch_order (e : env) (req : request) :
  (exists rest, addresses req = fetched (fst (create_video w e req)) ++ rest)
  /\ (forall cmd r,
        In (EvExec cmd r) (fst (create_video w e req)) ->
        exists t dl rest,
          fst (create_video w e req)
          = EvNow t :: EvMkdir (workDir_of t) None :: dl ++ rest /\
          downloaded (jobs (workDir_of t) (elements (request_images req))
                           (request_audio req)) dl /\
          fetched dl = addresses req /\
          Forall (fun ev => is_fetch ev = false) rest)
  /\ (forall url r,
        In (EvFetch url r) (fst (create_video w e req)) ->
        fetch_failed r = true ->
        Forall (fun ev => is_exec ev = false) (fst (create_video w e req))
        /\ status (snd (create_video w e req)) = 500).
Proof.
  pose proof (create_video_run w e req) as Hrun.
  destruct (create_video w e req) as [tr resp]. cbn [fst snd] in *.
  assert (Hshape :
            (tr = [] \/
             exists err tr1,
               prepare_outcome
                 (elements (request_images req)) (request_audio req) (Throw err) tr1 /\
               tr = tr1 ++ [EvLog err] /\ resp = failure_response err)
            \/ exists t dl content rest,
                tr = EvNow t :: EvMkdir (workDir_of t) None
                       :: dl ++ EvWriteFile (path_join (workDir_of t) "list.txt")
                                            content None :: rest /\
                downloaded (jobs (workDir_of t) (elements (request_images req))
                                 (request_audio req)) dl /\
                Forall (fun ev => is_fetch ev = false) rest).
  { assert (Hok : forall workDir tr1 rest,
               prepare_outcome
                 (elements (request_images req)) (request_audio req) (Ok workDir) tr1 ->
               Forall (fun ev => is_fetch ev = false) rest ->
               exists t dl content rest',
                 tr1 ++ rest
                 = EvNow t :: EvMkdir (workDir_of t) None
                     :: dl ++ EvWriteFile (path_join (workDir_of t) "list.txt")
                                          content None :: rest' /\
                 downloaded (jobs (workDir_of t) (elements (request_images req))
                                  (request_audio req)) dl /\
                 Forall (fun ev => is_fetch ev = false) rest').
    { intros workDir tr1 rest H1 Hrest.
      inversion H1 as [t dl assets content Hdl _ _| | |]; subst.
      exists t, dl, (list_byte_of_string content), rest.
      cbn [app]. rewrite <- app_assoc. cbn [app]. auto. }
    destruct Hrun as [ | | |thrown tr1 _ H1|workDir tr1 thrown tr2 _ H1 H2
                     |workDir tr1 finalFile tr2 thrown tr3 _ H1 H2 H3
                     |workDir tr1 finalFile tr2 url' size tr3 _ H1 H2 H3];
      auto.
    - left. right. eauto.
    - right. apply (Hok workDir); [exact H1|].
      apply encode_execs in H2. apply Forall_app. split; [|repeat constructor].
      eapply Forall_impl; [exact H2 | intros ev; apply exec_not_fetch].
    - right. apply (Hok workDir); [exact H1|].
      apply encode_execs in H2. apply publish_events in H3.
      apply Forall_app. split.
      { eapply Forall_impl; [exact H2 | intros ev; apply exec_not_fetch]. }
      apply Forall_app. split; [|repeat constructor].
      eapply Forall_impl; [exact H3 | intros ev [Hp _]; now apply not_preparation_not_fetch].
    - right. apply (Hok workDir); [exact H1|].
      apply encode_execs in H2. apply publish_events in H3.
      apply Forall_app. split.
      { eapply Forall_impl; [exact H2 | intros ev; apply exec_not_fetch]. }
      eapply Forall_impl; [exact H3 | intros ev [Hp _]; now apply not_preparation_not_fetch]. }
  destruct Hshape as [[->|(err & tr1 & H1 & -> & ->)]|(t & dl & content & rest & -> & Hdl & Hrest)].
  - split; [now exists (addresses req)|]. split; intros ? ? [].
  - pose proof (prepare_preparation _ _ _ _ H1) as P1.
    split; [|split].
    + rewrite fetched_app, app_nil_r.
      inversion H1 as [|t e0|t e0 tr0 Hab|t dl data e0 Hdl]; subst; cbn [fetched flat_map app].
      * now exists (addresses req).
      * apply aborted_fetched in Hab as [rest Hab]. rewrite jobs_addresses in Hab.
        now exists rest.
      * fold (fetched (dl ++ [EvWriteFile (path_join (workDir_of t) "list.txt") data (Some err)])).
        rewrite fetched_app, (downloaded_fetched _ _ Hdl), jobs_addresses.
        exists []. now rewrite !app_nil_r.
    + intros cmd r Hin. split_in Hin; try discriminate. wrong_kind Hin.
    + intros url r _ _. split; [|reflexivity].
      apply Forall_app. split; [|repeat constructor].
      eapply Forall_impl; [exact P1 | intros ev; apply preparation_not_exec].
  - pose proof (downloaded_fetched _ _ Hdl) as Hf. rewrite jobs_addresses in Hf.
    split; [|split].
    + exists []. cbn [fetched flat_map app].
      fold (fetched (dl ++ EvWriteFile (path_join (workDir_of t) "list.txt") content None :: rest)).
      rewrite fetched_app. cbn [fetched flat_map app]. fold (fetched rest).
      now rewrite (fetched_none _ Hrest), Hf, !app_nil_r.
    + intros cmd r _. exists t, dl. eexists. split; [reflexivity|].
      split; [exact Hdl|]. split; [exact Hf|]. now constructor.
    + intros url r Hin Hfail. exfalso.
      split_in Hin; try discriminate.
      * rewrite (downloaded_fetch_ok _ _ _ _ Hdl Hin) in Hfail. discriminate.
      * wrong_kind Hin.
Qed.

(** The calls of steps 0 to 5 do not depend on the storage configuration:
    two deployments with the same token that differ in their storage
    settings prepare and encode a request by the same calls with the same
    outcomes. *)
Lemma encoding_ignores_storage (e e' : env) (req : request) :
  env_AUTH_TOKEN e = env_AUTH_TOKEN e' ->
  List.filter (fun ev => is_preparation ev || is_exec ev) (fst (create_video w e req))
  = List.filter (fun ev => is_preparation ev || is_exec ev) (fst (create_video w e' req)).
Proof.
  intros Htoken.
  assert (Hlate : forall (x : env) f out tr2,
             List.filter (fun ev => is_preparation ev || is_exec ev)
               (fst (match publish w x f out tr2 with
                     | (Ok up, tr) =>
                         (tr, mkResponse 200
                                (success_body (fst up) (snd up)
                                   (length (elements (request_images req)))
                                   (request_fps req) (request_width req)
                                   (request_height req)))
                     | (Throw err, tr) => (tr ++ [EvLog err], failure_response err)
                     end))
             = List.filter (fun ev => is_preparation ev || is_exec ev) tr2).
  { intros x f out tr2.
    destruct (publish_run w x f out tr2) as (new & Hnew & Hout).
    apply publish_events in Hout.
    assert (Hnone : List.filter (fun ev => is_preparation ev || is_exec ev) new = []).
    { apply filter_none. eapply Forall_impl; [exact Hout|].
      intros ev [-> ->]. reflexivity. }
    destruct (publish w x f out tr2) as [[up|err] tr]; cbn [fst snd] in *; subst tr;
      rewrite ?List.filter_app, Hnone, ?app_nil_r; reflexivity. }
  unfold create_video, try_block.
  replace (unauthorized e' req) with (unauthorized e req)
    by (unfold unauthorized; now rewrite Htoken).
  destruct (unauthorized e req); [reflexivity|]. cbv zeta.
  match goal with |- context [if ?c then _ else _] => destruct c end; [reflexivity|].
  match goal with |- context [if ?c then _ else _] => destruct c end; [reflexivity|].
  unfold bind at 1 4.
  match goal with |- context [prepare w ?i ?a []] => destruct (prepare w i a []) as [[workDir|err] tr1] end;
    [|reflexivity].
  unfold bind at 1 3.
  match goal with |- context [encode w ?d ?x ?y tr1] => destruct (encode w d x y tr1) as [[finalFile|err] tr2] end;
    [|reflexivity].
  unfold bind, ret.
  match goal with
  | |- List.filter _ (fst ?a) = List.filter _ (fst ?b) =>
      transitivity (List.filter (fun ev => is_preparation ev || is_exec ev) tr2)
  end.
  - rewrite <- (Hlate e finalFile (request_outputPath req) tr2).
    unfold request_outputPath, request_images, request_fps, request_width, request_height.
    destruct (publish w e finalFile _ tr2) as [[up|err] tr]; reflexivity.
  - rewrite <- (Hlate e' finalFile (request_outputPath req) tr2).
    unfold request_outputPath, request_images, request_fps, request_width, request_height.
    destruct (publish w e' finalFile _ tr2) as [[up|err] tr]; reflexivity.
Qed.

Lemma filter_exec_of_encoding (tr : list event) :
  List.filter is_exec (List.filter (fun ev => is_preparation ev || is_exec ev) tr)
  = List.filter is_exec tr.
Proof.
  induction tr as [|ev tr IH]; [reflexivity|].
  destruct ev; simpl; rewrite ?IH; reflexivity.
Qed.

(** C8.  When the storage address or the storage credential is missing
    from the configuration, no response is 200 and no response body holds a
    [url].  Moreover the encoder passes still run: when both encoder
    invocations of the request run and the second exits with status zero in
    a deployment with the same token and any storage settings, the same two
    invocations, with the same outcomes, occur with the incomplete
    configuration; only preparation precedes them, nothing follows them but
    the log of the configuration error, and the response is 500 with that
    error. *)
Theorem missing_storage_configuration (e : env) (req : request) :
  configured e = false ->
  (status (snd (create_video w e req)) <> 200
   /\ get_prop (body (snd (create_video w e req))) "url" = VUndefined)
  /\ (forall e' cmd1 r1 cmd2 r2,
        env_AUTH_TOKEN e' = env_AUTH_TOKEN e ->
        List.filter is_exec (fst (create_video w e' req))
        = [EvExec cmd1 r1; EvExec cmd2 r2] ->
        exec_err r2 = None ->
        (exists before,
            fst (create_video w e req)
            = before ++ [EvExec cmd1 r1; EvExec cmd2 r2; EvLog missing_configuration] /\
            Forall (fun ev => is_preparation ev = true) before)
        /\ exec_err r1 = None
        /\ snd (create_video w e req)
           = mkResponse 500
               (VObject [("error",
                          VString "Missing SUPABASE_URL or SUPABASE_SERVICE_ROLE_KEY");
                         ("details", VString EmptyString)])).
Proof.
  intros Hcfg.
  assert (Hsame : forall e' cmd1 r1 cmd2 r2,
             env_AUTH_TOKEN e' = env_AUTH_TOKEN e ->
             List.filter is_exec (fst (create_video w e' req))
             = [EvExec cmd1 r1; EvExec cmd2 r2] ->
             List.filter is_exec (fst (create_video w e req))
             = [EvExec cmd1 r1; EvExec cmd2 r2]).
  { intros e' cmd1 r1 cmd2 r2 Htoken <-.
    rewrite <- (filter_exec_of_encoding (fst (create_video w e req))).
    rewrite <- (filter_exec_of_encoding (fst (create_video w e' req))).
    f_equal. now apply encoding_ignores_storage. }
  pose proof (create_video_run w e req) as Hrun.
  destruct (create_video w e req) as [tr resp]. cbn [fst snd] in *.
  assert (Hprep : forall tr1 r,
             prepare_outcome
               (elements (request_images req)) (request_audio req) r tr1 ->
             List.filter is_exec tr1 = []).
  { intros tr1 r H1. apply prepare_preparation in H1. apply filter_none.
    eapply Forall_impl; [exact H1 | intros ev; apply preparation_not_exec]. }
  split.
  { destruct Hrun as [ | | |thrown tr1 _ H1|workDir tr1 thrown tr2 _ H1 H2
                     |workDir tr1 finalFile tr2 thrown tr3 _ H1 H2 H3
                     |workDir tr1 finalFile tr2 url' size tr3 _ H1 H2 H3];
      try (split; [discriminate | reflexivity]).
    inversion H3; subst; congruence. }
  intros e' cmd1 r1 cmd2 r2 Htoken Hex' Hr2.
  pose proof (Hsame _ _ _ _ _ Htoken Hex') as Hex. clear Hsame Hex'.
  destruct Hrun as [ | | |thrown tr1 _ H1|workDir tr1 thrown tr2 _ H1 H2
                   |workDir tr1 finalFile tr2 thrown tr3 _ H1 H2 H3
                   |workDir tr1 finalFile tr2 url' size tr3 _ H1 H2 H3];
    try discriminate Hex.
  - rewrite List.filter_app, (Hprep _ _ H1) in Hex. discriminate.
  - rewrite !List.filter_app, (Hprep _ _ H1) in Hex.
    inversion H2 as [e0 Hw|sw e0 Hw Hh|sw sh x1 err Hw Hh E1
                    |sw sh x1 x2 err Hw Hh E1 E2|]; subst; cbn in Hex;
      try discriminate.
    injection Hex as <- <- <- <-. congruence.
  - inversion H3 as [Hc| | | | | |]; subst; try congruence.
    rewrite !List.filter_app, (Hprep _ _ H1) in Hex.
    inversion H2 as [| | | |sw sh x1 x2 Hw Hh E1 E2]; subst. cbn in Hex.
    injection Hex as <- <- <- <-.
    split; [|split; [exact E1 | reflexivity]].
    exists tr1. split; [reflexivity|]. eapply prepare_preparation, H1.
  - inversion H3; subst; congruence.
Qed.

(** [Number(d || 3)]: [Number] of [d] when [d] is truthy and 3 when it
    is falsy: missing, [null], the number zero and the empty text all give
    3. *)
Lemma duration_of_defaults (d : value) :
  duration_of d
  = (if truthy d then ToNumber d else Ok (num_of_Z 3))
  /\ duration_of VUndefined = Ok (num_of_Z 3)
  /\ duration_of VNull = Ok (num_of_Z 3)
  /\ duration_of (VNumber (num_of_Z 0)) = Ok (num_of_Z 3)
  /\ duration_of (VString EmptyString) = Ok (num_of_Z 3)
  /\ (forall fields,
        has_own fields "duration" = false ->
        get_prop (VObject fields) "duration" = VUndefined)
  /\ (forall s,
        duration_of (VString s)
        = Ok (if String.eqb s EmptyString then num_of_Z 3 else StringToNumber s)).
Proof.
  split.
  { unfold duration_of, js_or. destruct (truthy d); reflexivity. }
  repeat split; try reflexivity.
  - intros fields. simpl. induction fields as [|[k v] fields IH]; simpl; [reflexivity|].
    destruct (String.eqb k "duration"); [discriminate | exact IH].
  - intros s. unfold duration_of, js_or. simpl.
    destruct (String.eqb s EmptyString); reflexivity.
Qed.

(** C10.  The address of every upload of a request is the storage base, the
    object segment, the encoded bucket, a slash and the encoded output key;
    the [url] of a 200 response is the same text with [public/] inserted
    after the object segment, so both end with the same encoded bucket and
    key.  The encoded key holds no slash: each slash of the output path is
    written [%2F], and the default path is written
    [stories%2Foutput.mp4]. *)
Theorem storage_urls_agree (e : env) (req : request) (url : string)
        (headers : list (string * string)) (data : bytes) (r : error + nat) :
  In (EvUpload url headers data r) (fst (create_video w e req)) ->
  exists key,
    ToString (request_outputPath req) = Ok key /\
    url = store_base e +:+ "/storage/v1/object/"
            +:+ encodeURIComponent (store_bucket e) +:+ "/" +:+ encodeURIComponent key /\
    (status (snd (create_video w e req)) = 200 ->
     get_prop (body (snd (create_video w e req))) "url"
     = VString (store_base e +:+ "/storage/v1/object/public/"
                  +:+ encodeURIComponent (store_bucket e)
                  +:+ "/" +:+ encodeURIComponent key)) /\
    ~ In "/"%char (list_ascii_of_string (encodeURIComponent key)) /\
    (forall a b, key = a +:+ "/" +:+ b ->
                 encodeURIComponent key
                 = encodeURIComponent a +:+ "%2F" +:+ encodeURIComponent b) /\
    (get_prop (req_body req) "outputPath" = VUndefined ->
     encodeURIComponent key = "stories%2Foutput.mp4").
Proof.
  intros Hin.
  assert (Hdefault : forall key,
             ToString (request_outputPath req) = Ok key ->
             get_prop (req_body req) "outputPath" = VUndefined ->
             encodeURIComponent key = "stories%2Foutput.mp4").
  { intros key Hkey Hnone. unfold request_outputPath, field_or in Hkey.
    rewrite get_prop_body, Hnone in Hkey. injection Hkey as <-. reflexivity. }
  pose proof (create_video_run w e req) as Hrun.
  destruct (create_video w e req) as [tr resp]. cbn [fst snd] in *.
  destruct Hrun as [ | | |thrown tr1 _ H1|workDir tr1 thrown tr2 _ H1 H2
                   |workDir tr1 finalFile tr2 thrown tr3 _ H1 H2 H3
                   |workDir tr1 finalFile tr2 url' size tr3 _ H1 H2 H3];
    try (destruct Hin; fail);
    apply prepare_preparation in H1; try apply encode_execs in H2.
  - split_in Hin; try discriminate. wrong_kind Hin.
  - split_in Hin; try discriminate; wrong_kind Hin.
  - inversion H3 as [| | |buf key err Hc Hkey|buf key st err Hc Hkey Hst
                    |buf key st txt Hc Hkey Hst|]; subst;
      split_in Hin; try discriminate; try wrong_kind Hin;
      injection Hin as <- <- <- <-; exists key;
      (split; [exact Hkey|]); (split; [reflexivity|]); (split; [discriminate|]);
      (split; [apply encodeURIComponent_no_slash|]);
      (split; [intros a b ->; apply encodeURIComponent_slash | now apply Hdefault]).
  - inversion H3 as [| | | | | |buf key st Hc Hkey Hst]; subst.
    split_in Hin; try discriminate; try wrong_kind Hin.
    injection Hin as <- <- <- <-. exists key.
    split; [exact Hkey|]. split; [reflexivity|]. split; [reflexivity|].
    split; [apply encodeURIComponent_no_slash|].
    split; [intros a b ->; apply encodeURIComponent_slash | now apply Hdefault].
Qed.

End Handler.

(** ** Publishing to a store with upsert *)

Lemma store_after_app s tr1 tr2 :
  store_after s (tr1 ++ tr2) = store_after (store_after s tr1) tr2.
Proof. unfold store_after. apply fold_left_app. Qed.

Lemma store_after_no_upload s tr :
  Forall (fun ev => is_upload ev = false) tr -> store_after s tr = s.
Proof.
  unfold store_after. induction 1 as [|ev tr Hev _ IH]; [reflexivity|].
  destruct ev; try discriminate; exact IH.
Qed.

Lemma store_write_upsert s url key : store_write s url (upload_headers key) = 200.
Proof. unfold store_write. destruct (s !! url); reflexivity. Qed.

Section Idempotence.

Context {rt : Runtime}.

(** In a world whose uploads go to the store, a request that reaches the
    upload succeeds: the write is accepted, the response is 200 with the
    public URL, and the store holds the uploaded bytes under the upload
    address. *)
Lemma published (w : world) (s : gmap string bytes) (e : env) (req : request)
      (url : string) (headers : list (string * string)) (data : bytes) (a : error + nat) :
  In (EvUpload url headers data a) (fst (create_video (with_store w s) e req)) ->
  exists key,
    ToString (request_outputPath req) = Ok key /\
    url = uploadUrl (store_base e) (store_bucket e) key /\
    headers = store_headers e /\
    a = inr 200 /\
    snd (create_video (with_store w s) e req)
    = mkResponse 200
        (success_body (publicUrl (store_base e) (store_bucket e) key) (length data)
                      (length (elements (request_images req)))
                      (request_fps req) (request_width req) (request_height req)) /\
    store_after s (fst (create_video (with_store w s) e req)) = <[url := data]> s.
Proof.
  intros Hin.
  pose proof (create_video_consistent (with_store w s) e req) as Hcons.
  pose proof (create_video_run (with_store w s) e req) as Hrun.
  destruct (create_video (with_store w s) e req) as [tr resp]. cbn [fst snd] in *.
  assert (Hans : forall tr1 tr2 f buf u h d x post,
             tr = tr1 ++ tr2 ++ (EvReadFile f buf :: EvUpload u h d x :: post) ->
             h = upload_headers (env_get (env_SUPABASE_SERVICE_ROLE_KEY e)) ->
             x = inr 200).
  { intros tr1 tr2 f buf u h d x post -> ->.
    replace (tr1 ++ tr2 ++ EvReadFile f buf :: EvUpload u _ d x :: post)
      with ((tr1 ++ tr2 ++ [EvReadFile f buf]) ++ EvUpload u
              (upload_headers (env_get (env_SUPABASE_SERVICE_ROLE_KEY e))) d x :: post)
      in Hcons by (rewrite <- !app_assoc; reflexivity).
    apply consistent_inv in Hcons. cbn in Hcons. now rewrite store_write_upsert in Hcons. }
  destruct Hrun as [ | | |thrown tr1 _ H1|workDir tr1 thrown tr2 _ H1 H2
                   |workDir tr1 finalFile tr2 thrown tr3 _ H1 H2 H3
                   |workDir tr1 finalFile tr2 url' size tr3 _ H1 H2 H3];
    try (destruct Hin; fail);
    apply prepare_preparation in H1; try apply encode_execs in H2.
  - split_in Hin; try discriminate. wrong_kind Hin.
  - split_in Hin; try discriminate; wrong_kind Hin.
  - exfalso.
    inversion H3 as [| | |buf key err Hc Hkey|buf key st err Hc Hkey Hst
                    |buf key st txt Hc Hkey Hst|]; subst;
      split_in Hin; try discriminate; try wrong_kind Hin.
    + specialize (Hans _ _ _ _ _ _ _ _ _ eq_refl eq_refl). discriminate.
    + specialize (Hans _ _ _ _ _ _ _ _ _ eq_refl eq_refl). injection Hans as ->. discriminate.
    + specialize (Hans _ _ _ _ _ _ _ _ _ eq_refl eq_refl). injection Hans as ->. discriminate.
  - inversion H3 as [| | | | | |buf key st Hc Hkey Hst]; subst.
    specialize (Hans _ _ _ _ _ _ _ _ _ eq_refl eq_refl). injection Hans as ->.
    split_in Hin; try discriminate; try wrong_kind Hin.
    injection Hin as <- <- <- <-. exists key.
    repeat (split; [assumption || reflexivity|]).
    rewrite !store_after_app.
    rewrite (store_after_no_upload s tr1)
      by (eapply Forall_impl; [exact H1 | intros ev; apply preparation_not_upload]).
    rewrite (store_after_no_upload s tr2)
      by (eapply Forall_impl; [exact H2 | intros ev; apply exec_not_upload]).
    reflexivity.
Qed.

(** C6.  Two requests with the same output path are published, one after
    the other, to a store that overwrites on upsert.  When each reaches its
    upload: both writes go to the same address and carry the upsert
    header; the second write finds the object of the first and is accepted
    all the same; both responses are 200 with the same public [url]; and
    when both upload the same bytes, the second write leaves the store as
    the first left it. *)
Theorem publishing_twice_same_url (w1 w2 : world) (s0 : gmap string bytes) (e : env)
        (req1 req2 : request) (url1 url2 : string)
        (headers1 headers2 : list (string * string)) (data1 data2 : bytes)
        (a1 a2 : error + nat) :
  let run1 := create_video (with_store w1 s0) e req1 in
  let s1 := store_after s0 (fst run1) in
  let run2 := create_video (with_store w2 s1) e req2 in
  request_outputPath req1 = request_outputPath req2 ->
  In (EvUpload url1 headers1 data1 a1) (fst run1) ->
  In (EvUpload url2 headers2 data2 a2) (fst run2) ->
  url1 = url2
  /\ upsert_requested headers1 = true /\ upsert_requested headers2 = true
  /\ s1 !! url2 = Some data1
  /\ a1 = inr 200 /\ a2 = inr 200
  /\ status (snd run1) = 200 /\ status (snd run2) = 200
  /\ (exists public,
        get_prop (body (snd run1)) "url" = VString public /\
        get_prop (body (snd run2)) "url" = VString public)
  /\ (data1 = data2 -> store_after s1 (fst run2) = s1).
Proof.
  intros run1 s1 run2 Hpath Hin1 Hin2.
  destruct (published w1 s0 e req1 _ _ _ _ Hin1)
    as (key1 & Hkey1 & -> & -> & -> & Hresp1 & Hstore1).
  destruct (published w2 s1 e req2 _ _ _ _ Hin2)
    as (key2 & Hkey2 & -> & -> & -> & Hresp2 & Hstore2).
  assert (key1 = key2) as <- by congruence.
  fold run1 in Hresp1, Hstore1. fold s1 in Hstore1. fold run2 in Hresp2, Hstore2.
  split; [reflexivity|]. split; [reflexivity|]. split; [reflexivity|].
  split; [rewrite Hstore1; apply lookup_insert_eq|].
  split; [reflexivity|]. split; [reflexivity|].
  split; [now rewrite Hresp1|]. split; [now rewrite Hresp2|].
  split.
  - eexists. rewrite Hresp1, Hresp2. split; reflexivity.
  - intros <-. rewrite Hstore2, Hstore1. apply insert_insert_eq.
Qed.

End Idempotence.

(** ** Workspaces *)

Lemma Z_to_string_inj (a b : Z) : Z_to_string a = Z_to_string b -> a = b.
Proof.
  intros H. apply DecimalZ.to_int_inj.
  assert (Hread : forall z, NilZero.int_of_string (Z_to_string z) = Some (Z.to_int z)).
  { intros z. apply NilZero.isi; destruct z; simpl; intros K; try discriminate;
      injection K; apply Unsigned.to_uint_nonnil. }
  pose proof (Hread a) as Ha. rewrite H, Hread in Ha. now injection Ha.
Qed.

(** X3.  Two workspaces are the same exactly when the clock read the same
    millisecond. *)
Lemma workDir_of_inj (t1 t2 : Z) : workDir_of t1 = workDir_of t2 <-> t1 = t2.
Proof.
  split; [|now intros ->].
  unfold workDir_of. intros H. apply Z_to_string_inj.
  repeat (rewrite !append_cons in H; injection H as H). exact H.
Qed.

(** The workspace of a request is named after the first reading of the
    clock, and after nothing else. *)
Lemma workspace_named_by_clock {rt : Runtime} (w : world) (e : env) (req : request)
      (dir : string) (r : option error) :
  In (EvMkdir dir r) (fst (create_video w e req)) -> dir = workDir_of (w_now w []).
Proof.
  intros Hin.
  pose proof (create_video_consistent w e req) as Hcons.
  pose proof (create_video_run w e req) as Hrun.
  destruct (create_video w e req) as [tr resp]. cbn [fst snd] in *.
  assert (Hfirst : forall t rest, tr = EvNow t :: rest -> t = w_now w []).
  { intros t rest ->. exact (consistent_inv w [] rest (EvNow t) Hcons). }
  assert (Hprep : forall r1 tr1 rest,
             prepare_outcome (elements (request_images req)) (request_audio req) r1 tr1 ->
             tr = tr1 ++ rest ->
             (forall d x, In (EvMkdir d x) rest -> False) ->
             dir = workDir_of (w_now w [])).
  { intros r1 tr1 rest H1 -> Hrest.
    apply in_app_or in Hin as [Hin|Hin]; [|now apply Hrest in Hin].
    inversion H1 as [t dl assets content Hdl _ _|t e0|t e0 tr0 Hab|t dl data e0 Hdl]; subst;
      rewrite <- (Hfirst t _ eq_refl);
      split_in Hin; try discriminate; try (injection Hin as <- _; reflexivity);
      exfalso; eauto using downloaded_mkdir_free, aborted_mkdir_free. }
  destruct Hrun as [ | | |thrown tr1 _ H1|workDir tr1 thrown tr2 _ H1 H2
                   |workDir tr1 finalFile tr2 thrown tr3 _ H1 H2 H3
                   |workDir tr1 finalFile tr2 url' size tr3 _ H1 H2 H3];
    try (destruct Hin; fail).
  - eapply Hprep; [exact H1 | reflexivity|]. intros d x [K|[]]. discriminate.
  - eapply Hprep; [exact H1 | reflexivity|]. intros d x K.
    apply encode_execs in H2. split_in K; try discriminate. wrong_kind K.
  - eapply Hprep; [exact H1 | reflexivity|]. intros d x K.
    apply encode_execs in H2. apply publish_events in H3.
    split_in K; try discriminate; wrong_kind K.
  - eapply Hprep; [exact H1 | reflexivity|]. intros d x K.
    apply encode_execs in H2. apply publish_events in H3.
    split_in K; try discriminate; wrong_kind K.
Qed.

(** ** The timeline of a request *)

Lemma no_newline_uint (d : uint) : no_newline (NilEmpty.string_of_uint d) = true.
Proof. induction d; simpl; [reflexivity | exact IHd ..]. Qed.

Lemma no_newline_nat_to_string (n : nat) : no_newline (nat_to_string n) = true.
Proof.
  unfold nat_to_string, NilZero.string_of_uint.
  destruct (Nat.to_uint n) eqn:E; try reflexivity; rewrite <- E; apply no_newline_uint.
Qed.

Lemma no_newline_Z_to_string (z : Z) : no_newline (Z_to_string z) = true.
Proof.
  assert (H : forall d, no_newline (NilZero.string_of_uint d) = true).
  { intros d. unfold NilZero.string_of_uint.
    destruct d eqn:E; try reflexivity; rewrite <- E; apply no_newline_uint. }
  unfold Z_to_string, NilZero.string_of_int. destruct (Z.to_int z) as [d|d].
  - apply H.
  - change (String "-" ?x) with ("-" +:+ x). now rewrite no_newline_append, H.
Qed.

Lemma no_newline_repeat_zero (n : nat) : no_newline (repeat_string n "0") = true.
Proof.
  induction n as [|n IH]; [reflexivity|].
  cbn [repeat_string]. now rewrite no_newline_append, IH.
Qed.

Lemma no_newline_img_file (t : Z) (i : nat) : no_newline (img_file (workDir_of t) i) = true.
Proof.
  unfold img_file, path_join, workDir_of, padStart.
  now rewrite !no_newline_append, no_newline_Z_to_string, no_newline_repeat_zero,
    no_newline_nat_to_string.
Qed.

Section Pipeline.

Context {rt : Runtime}.
Variable w : world.

(** An engine prints every number on one line. *)
Hypothesis one_line : forall n, no_newline (NumberToString n) = true.

Lemma assets_of_printable t images i assets :
  assets_of (workDir_of t) images i assets -> Forall printable assets.
Proof.
  induction 1 as [|img rest i dur l _ _ IH]; constructor; [|exact IH].
  split; [apply no_newline_img_file | apply one_line].
Qed.

Lemma assets_of_length workDir images i assets :
  assets_of workDir images i assets -> length assets = length images.
Proof. induction 1; simpl; [reflexivity | now f_equal]. Qed.

(** X1.  Whenever the encoder runs, the list it reads was written for the
    images of the request: one local asset per image, in order, each with
    the duration of its image, read line by line as the header, a [file]
    and a [duration] line per asset, and the path of the last asset once
    more; one [file] line more than the request has images. *)
Theorem timeline_of_request (e : env) (req : request) (cmd : string) (r : exec_outcome) :
  In (EvExec cmd r) (fst (create_video w e req)) ->
  exists t assets content final,
    In (EvWriteFile (path_join (workDir_of t) "list.txt") (list_byte_of_string content) None)
       (fst (create_video w e req)) /\
    assets_of (workDir_of t) (elements (request_images req)) 0 assets /\
    last assets = Some final /\
    directives content
    = Other "ffconcat version 1.0"
        :: flat_map entry_lines assets ++ [File (file final); Other EmptyString] /\
    length (List.filter is_File (directives content))
    = S (length (elements (request_images req))).
Proof.
  intros Hin.
  pose proof (create_video_run w e req) as Hrun.
  destruct (create_video w e req) as [tr resp]. cbn [fst snd] in *.
  assert (Hdone : forall workDir tr1 rest,
             prepare_outcome (elements (request_images req)) (request_audio req)
                             (Ok workDir) tr1 ->
             exists t assets content final,
               In (EvWriteFile (path_join (workDir_of t) "list.txt")
                               (list_byte_of_string content) None) (tr1 ++ rest) /\
               assets_of (workDir_of t) (elements (request_images req)) 0 assets /\
               last assets = Some final /\
               directives content
               = Other "ffconcat version 1.0"
                   :: flat_map entry_lines assets ++ [File (file final); Other EmptyString] /\
               length (List.filter is_File (directives content))
               = S (length (elements (request_images req)))).
  { intros workDir tr1 rest H1.
    inversion H1 as [t dl assets content Hdl Hassets Hcontent| | |]; subst.
    unfold concatContent in Hcontent.
    destruct (last assets) as [final|] eqn:Hlast; [|discriminate].
    injection Hcontent as <-.
    exists t, assets. eexists. exists final.
    split.
    { apply in_or_app. left. right. right. apply in_or_app. right. left. reflexivity. }
    split; [exact Hassets|]. split; [exact Hlast|].
    rewrite (directives_concat assets final Hlast (assets_of_printable _ _ _ _ Hassets)).
    split; [reflexivity|].
    rewrite count_timeline_files. f_equal. eapply assets_of_length, Hassets. }
  destruct Hrun as [ | | |thrown tr1 _ H1|workDir tr1 thrown tr2 _ H1 H2
                   |workDir tr1 finalFile tr2 thrown tr3 _ H1 H2 H3
                   |workDir tr1 finalFile tr2 url' size tr3 _ H1 H2 H3];
    try (destruct Hin; fail); try (eapply Hdone; exact H1).
  apply prepare_preparation in H1. split_in Hin; try discriminate. wrong_kind Hin.
Qed.

(** X2.  A request is answered 200, 400, 401 or 500, and only a request
    that fails the token check is answered 401, without any call outside. *)
Theorem response_statuses (e : env) (req : request) :
  In (status (snd (create_video w e req))) [200; 400; 401; 500]
  /\ (unauthorized e req = true <->
      create_video w e req = ([], mkResponse 401 (error_body "Unauthorized"))).
Proof.
  pose proof (create_video_run w e req) as Hrun.
  destruct (create_video w e req) as [tr resp]. cbn [fst snd] in *.
  assert (Hno : accepted e req = true -> unauthorized e req = false).
  { unfold accepted. destruct (unauthorized e req); [discriminate | reflexivity]. }
  destruct Hrun as [Hu|Hu _|Hu _ _|? ? Hacc _|? ? ? ? Hacc _ _|? ? ? ? ? ? Hacc _ _ _
                   |? ? ? ? ? ? ? Hacc _ _ _];
    (split; [simpl; tauto|]); try apply Hno in Hacc as Hu;
    (split; [intros K; congruence|]); intros K; first [exact Hu | discriminate K].
Qed.

End Pipeline.

(** ** No call after one that throws *)

Section FailFast.

Context {rt : Runtime}.
Variable w : world.

Lemma quiet_app (tr a b : list event) :
  quiet tr a -> quiet (tr ++ a) b -> quiet tr (a ++ b).
Proof.
  revert tr. induction a as [|x a IH]; intros tr Ha Hb.
  - now rewrite app_nil_r in Hb.
  - destruct Ha as [Hx Ha]. split; [exact Hx|].
    apply IH; [exact Ha|]. now rewrite <- app_assoc.
Qed.

Lemma quiet_split (tr pre post : list event) (ev : event) :
  quiet tr (pre ++ ev :: post) -> thrown_by (tr ++ pre) ev = None.
Proof.
  revert tr. induction pre as [|x pre IH]; intros tr H.
  - rewrite app_nil_r. exact (proj1 H).
  - destruct H as [_ H]. apply IH in H. now rewrite <- app_assoc in H.
Qed.

(** In a stretch that is quiet up to one event and quiet after it, that
    event is the only one that throws. *)
Lemma first_throw (tr before tail pre post : list event) (ev' ev : event) :
  quiet tr before ->
  quiet (tr ++ before ++ [ev']) tail ->
  before ++ ev' :: tail = pre ++ ev :: post ->
  thrown_by (tr ++ pre) ev <> None ->
  pre = before /\ ev = ev' /\ post = tail.
Proof.
  revert tr pre. induction before as [|b before IH]; intros tr pre Hb Ht E Hev.
  - destruct pre as [|x pre]; cbn [app] in E.
    + injection E as -> ->. auto.
    + injection E as -> ->. apply quiet_split in Ht.
      rewrite <- app_assoc in Ht. cbn [app] in Ht. contradiction.
  - destruct Hb as [Hb0 Hb]. destruct pre as [|x pre]; cbn [app] in E.
    + injection E as -> _. rewrite app_nil_r in Hev. contradiction.
    + injection E as -> E.
      destruct (IH (tr ++ [x]) pre Hb) as (-> & -> & ->); auto.
      * now rewrite <- app_assoc.
      * now rewrite <- app_assoc.
Qed.

Lemma halted_quiet {A} (tr new : list event) (a : A) :
  halted tr new (Ok a) -> quiet tr new.
Proof. intros [Q|(before & ev & err & _ & _ & _ & K)]; [exact Q | discriminate]. Qed.

Lemma fails_fast_ret {A} (a : A) : fails_fast (ret a).
Proof. intros tr. exists []. rewrite app_nil_r. split; [reflexivity | now left]. Qed.

Lemma fails_fast_throw {A} (e : error) : fails_fast (throw (A := A) e).
Proof. intros tr. exists []. rewrite app_nil_r. split; [reflexivity | now left]. Qed.

Lemma fails_fast_lift {A} (r : result A) : fails_fast (lift r).
Proof. intros tr. exists []. rewrite app_nil_r. split; [reflexivity | now left]. Qed.

Lemma fails_fast_bind {A B} (m : M A) (k : A -> M B) :
  fails_fast m -> (forall a, fails_fast (k a)) -> fails_fast (bind m k).
Proof.
  intros Hm Hk tr. unfold bind.
  destruct (Hm tr) as (new1 & E1 & H1).
  destruct (m tr) as [[a|e] tr1]; cbn [fst snd] in *; subst tr1.
  - apply halted_quiet in H1.
    destruct (Hk a (tr ++ new1)) as (new2 & E2 & H2).
    exists (new1 ++ new2). split; [now rewrite E2, app_assoc|].
    destruct H2 as [Q2|(before & ev & err & -> & Q2 & T & R)].
    + left. now apply quiet_app.
    + right. exists (new1 ++ before), ev, err.
      split; [now rewrite app_assoc|]. split; [now apply quiet_app|].
      split; [now rewrite app_assoc | exact R].
  - exists new1. split; [reflexivity|].
    destruct H1 as [Q|(before & ev & err & -> & Q & T & R)]; [now left|].
    right. exists before, ev, err. injection R as ->. auto.
Qed.

Lemma fails_fast_if {A} (b : bool) (m1 m2 : M A) :
  fails_fast m1 -> fails_fast m2 -> fails_fast (if b then m1 else m2).
Proof. now destruct b. Qed.

Lemma fails_fast_now : fails_fast (now w).
Proof.
  intros tr. exists [EvNow (w_now w tr)]. split; [reflexivity|].
  left. cbn. auto.
Qed.

Lemma fails_fast_mkdir dir : fails_fast (mkdir w dir).
Proof.
  intros tr. exists [EvMkdir dir (w_mkdir w tr dir)]. split; [reflexivity|].
  unfold mkdir. cbn [fst]. destruct (w_mkdir w tr dir) as [e|]; cbn [of_option].
  - right. exists [], (EvMkdir dir (Some e)), e. repeat split.
  - left. cbn. auto.
Qed.

Lemma fails_fast_writeFile f data : fails_fast (writeFile w f data).
Proof.
  intros tr. exists [EvWriteFile f data (w_writeFile w tr f data)]. split; [reflexivity|].
  unfold writeFile. cbn [fst]. destruct (w_writeFile w tr f data) as [e|]; cbn [of_option].
  - right. exists [], (EvWriteFile f data (Some e)), e. repeat split.
  - left. cbn. auto.
Qed.

Lemma fails_fast_run cmd : fails_fast (run w cmd).
Proof.
  intros tr. exists [EvExec cmd (w_exec w tr cmd)]. split; [reflexivity|].
  unfold run. cbn [fst]. destruct (exec_err (w_exec w tr cmd)) as [err|] eqn:E.
  - right. eexists [], _, _. split; [reflexivity|]. split; [exact I|].
    split; [|reflexivity]. cbn [thrown_by]. now rewrite E.
  - left. cbn [quiet thrown_by]. now rewrite E.
Qed.

Lemma fails_fast_downloadToFile url out : fails_fast (downloadToFile w url out).
Proof.
  intros tr. unfold downloadToFile, bind, fetch.
  destruct (w_fetch w tr url) as [e|st] eqn:Hfetch; cbn [of_sum].
  { exists [EvFetch url (inl e)]. split; [reflexivity|].
    right. exists [], (EvFetch url (inl e)), e. repeat split. }
  destruct (res_ok st) eqn:Hok; cbn [negb].
  - assert (Q1 : quiet tr [EvFetch url (inr st)]).
    { cbn [quiet thrown_by]. now rewrite Hok. }
    unfold arrayBuffer.
    destruct (w_arrayBuffer w (tr ++ [EvFetch url (inr st)])) as [e|buf] eqn:Hbody;
      cbn [of_sum].
    { exists [EvFetch url (inr st); EvArrayBuffer (inl e)].
      rewrite <- app_assoc. split; [reflexivity|].
      right. exists [EvFetch url (inr st)], (EvArrayBuffer (inl e)), e. repeat split.
      cbn [thrown_by]. now rewrite Hok. }
    assert (Q2 : quiet tr [EvFetch url (inr st); EvArrayBuffer (inr buf)]).
    { cbn [quiet thrown_by]. now rewrite Hok. }
    unfold writeFile, ret.
    destruct (w_writeFile w ((tr ++ [EvFetch url (inr st)]) ++ [EvArrayBuffer (inr buf)])
                out buf) as [e|] eqn:Hwrite; cbn [of_option].
    + exists [EvFetch url (inr st); EvArrayBuffer (inr buf); EvWriteFile out buf (Some e)].
      rewrite <- !app_assoc. split; [reflexivity|].
      right. exists [EvFetch url (inr st); EvArrayBuffer (inr buf)],
               (EvWriteFile out buf (Some e)), e.
      repeat split; try exact Q2. cbn [thrown_by]. now rewrite Hok.
    + exists [EvFetch url (inr st); EvArrayBuffer (inr buf); EvWriteFile out buf None].
      rewrite <- !app_assoc. split; [reflexivity|].
      left. cbn [quiet thrown_by]. now rewrite Hok.
  - exists [EvFetch url (inr st)].
    assert (T : thrown_by (tr ++ []) (EvFetch url (inr st)) = Some (download_error url st)).
    { cbn [thrown_by]. now rewrite Hok. }
    unfold lift, throw, download_error in *.
    destruct (ToString url) as [u|e]; (split; [reflexivity|]);
      right; eexists [], _, _; repeat split; exact T.
Qed.

Lemma fails_fast_publish e finalFile outputPath :
  fails_fast (publish w e finalFile outputPath).
Proof.
  intros tr. unfold publish. cbv zeta.
  destruct (env_missing (env_SUPABASE_URL e) || env_missing (env_SUPABASE_SERVICE_ROLE_KEY e)).
  { exists []. rewrite app_nil_r. split; [reflexivity | now left]. }
  unfold bind, lift, readFile, upload, text, throw, ret. cbv beta zeta.
  destruct (w_readFile w tr finalFile) as [err|buf] eqn:Hread; cbn [of_sum]; cbv beta iota.
  { eexists. split; [reflexivity|]. right. eexists [], _, err. repeat split. }
  destruct (ToString outputPath) as [key|err] eqn:Hkey; cbv beta iota.
  2: { eexists. split; [reflexivity|]. left. cbn. auto. }
  match goal with
  | |- context [w_upload w ?h ?u ?hd ?d] => destruct (w_upload w h u hd d) as [err|st] eqn:Hup
  end; cbn [of_sum]; cbv beta iota.
  { rewrite <- app_assoc. eexists. split; [reflexivity|].
    right. eexists [_], _, err. repeat split. }
  destruct (res_ok st) eqn:Hok; cbn [negb]; cbv beta iota.
  { rewrite <- app_assoc. eexists. split; [reflexivity|]. left. cbn. auto. }
  match goal with
  | |- context [w_text w ?h] => destruct (w_text w h) as [err|txt] eqn:Htxt
  end; cbn [of_sum]; cbv beta iota; rewrite <- !app_assoc; cbn [app];
    eexists; (split; [reflexivity|]).
  - right. eexists [_; _], _, err. repeat split.
  - right. eexists [_; _], _, _. split; [reflexivity|]. split; [cbn; auto|].
    split; [|reflexivity].
    cbn [thrown_by]. rewrite last_app. reflexivity.
Qed.

Create HintDb throws.
#[local] Hint Resolve fails_fast_ret fails_fast_throw fails_fast_lift fails_fast_now
  fails_fast_mkdir fails_fast_writeFile fails_fast_run fails_fast_downloadToFile
  fails_fast_publish : throws.

Ltac tread :=
  repeat first [ solve [auto with throws]
               | apply fails_fast_bind; [|intros ?]
               | apply fails_fast_if ].

Lemma fails_fast_download_images workDir images i acc :
  fails_fast (download_images w workDir images i acc).
Proof.
  revert i acc. induction images as [|img rest IH]; intros i acc; cbn [download_images].
  - apply fails_fast_ret.
  - tread.
Qed.

#[local] Hint Resolve fails_fast_download_images : throws.

Lemma fails_fast_prepare images audio : fails_fast (prepare w images audio).
Proof. unfold prepare. tread. Qed.

Lemma fails_fast_encode workDir width height : fails_fast (encode w workDir width height).
Proof. unfold encode. tread. Qed.

#[local] Hint Resolve fails_fast_prepare fails_fast_encode : throws.

Lemma fails_fast_try_block e req : fails_fast (try_block w e req).
Proof. unfold try_block. tread. Qed.

(** The call that throws is the last one of the request: only the log of
    the exception follows it, and the response is built from it. *)
Lemma throw_ends_run (e : env) (req : request) (pre post : list event) (ev : event)
      (err : error) :
  fst (create_video w e req) = pre ++ ev :: post ->
  thrown_by pre ev = Some err ->
  post = [EvLog err] /\ snd (create_video w e req) = failure_response err.
Proof.
  unfold create_video.
  destruct (fails_fast_try_block e req []) as (new & E & H).
  destruct (try_block w e req []) as [[resp|thrown] tr]; cbn [fst snd] in *; subst tr;
    rewrite app_nil_l; intros Htr Hth.
  - apply halted_quiet in H. rewrite Htr in H. apply quiet_split in H.
    rewrite app_nil_l in H. congruence.
  - destruct H as [Q|(before & ev' & err' & -> & Q & T & R)].
    + assert (Q' : quiet [] (new ++ [EvLog thrown])).
      { apply quiet_app; [exact Q|]. cbn. auto. }
      rewrite Htr in Q'. apply quiet_split in Q'. rewrite app_nil_l in Q'. congruence.
    + injection R as ->. rewrite <- app_assoc in Htr. cbn [app] in Htr.
      rewrite app_nil_l in T.
      destruct (first_throw [] before [EvLog err'] pre post ev' ev) as (-> & -> & ->);
        rewrite ?app_nil_l; auto.
      * cbn. auto.
      * congruence.
      * split; [|f_equal]; congruence.
Qed.

End FailFast.

(** ** Failures, calls and responses of a request *)

Lemma preparation_not_log ev : is_preparation ev = true -> is_log ev = false.
Proof. destruct ev; simpl; congruence. Qed.

Lemma image_jobs_length workDir images i :
  length (image_jobs workDir images i) = length images.
Proof.
  revert i. induction images as [|img rest IH]; intros i; simpl; [reflexivity|].
  now rewrite IH.
Qed.

Section StageCounts.

Context {rt : Runtime}.

Lemma prepare_counts images audio r tr :
  prepare_outcome images audio r tr ->
  List.filter is_upload tr = [] /\ List.filter is_exec tr = []
  /\ List.filter is_log tr = [] /\ length (fetched tr) <= S (length images).
Proof.
  intros H. pose proof (prepare_preparation _ _ _ _ H) as P.
  split; [|split; [|split]];
    try (apply filter_none; eapply Forall_impl; [exact P|]; intros ev;
         first [apply preparation_not_upload | apply preparation_not_exec
               | apply preparation_not_log]).
  assert (Hjobs : forall t, length (map fst (jobs (workDir_of t) images audio))
                            = S (length images)).
  { intros t. unfold jobs.
    rewrite length_map, length_app, image_jobs_length. simpl. lia. }
  assert (Hskip : forall t r l, fetched (EvNow t :: EvMkdir (workDir_of t) r :: l) = fetched l)
    by reflexivity.
  destruct H as [t dl assets content Hdl _ _|t e|t e tr Hab|t dl data e Hdl];
    rewrite Hskip.
  - rewrite fetched_app, length_app, (downloaded_fetched _ _ Hdl), Hjobs. cbn. lia.
  - cbn. lia.
  - apply aborted_fetched in Hab as [rest Hab].
    pose proof (Hjobs t) as L. rewrite Hab, length_app in L. lia.
  - rewrite fetched_app, length_app, (downloaded_fetched _ _ Hdl), Hjobs. cbn. lia.
Qed.

Lemma encode_counts workDir width height r tr :
  encode_outcome workDir width height r tr ->
  List.filter is_upload tr = [] /\ length (List.filter is_exec tr) <= 2
  /\ List.filter is_log tr = [] /\ fetched tr = [].
Proof. destruct 1; cbn; repeat split; lia. Qed.

Lemma publish_counts e finalFile outputPath r tr :
  publish_outcome e finalFile outputPath r tr ->
  length (List.filter is_upload tr) <= 1 /\ List.filter is_exec tr = []
  /\ List.filter is_log tr = [] /\ fetched tr = [].
Proof. destruct 1; cbn; repeat split; lia. Qed.

End StageCounts.

Section Requests.

Context {rt : Runtime}.
Variable w : world.

(** X4.  When the outcome of a call to the outside makes the code throw (a
    rejected promise of the clock, the file system or the network, a
    download answered with a status outside 200 to 299, an encoder that
    exits with a failure, the body read from a refused upload), that call
    is the last one of the request and the only one with such an outcome:
    only the log of the exception follows it, no call before it makes the
    code throw, and the response is 500 with the message of the exception
    as [error] and its details, or the empty text, as [details]. *)
Theorem throwing_call_ends_request (e : env) (req : request) (pre post : list event)
        (ev : event) (err : error) :
  fst (create_video w e req) = pre ++ ev :: post ->
  thrown_by pre ev = Some err ->
  post = [EvLog err]
  /\ snd (create_video w e req)
     = mkResponse 500
         (VObject [("error", VString (message err));
                   ("details", js_or (details err) (VString EmptyString))])
  /\ (forall pre' ev' post', pre = pre' ++ ev' :: post' -> thrown_by pre' ev' = None).
Proof.
  intros Htr Hth.
  destruct (throw_ends_run w e req pre post ev err Htr Hth) as [Hpost Hresp].
  split; [exact Hpost|]. split; [exact Hresp|].
  intros pre' ev' post' Hpre.
  destruct (thrown_by pre' ev') as [err'|] eqn:Hth'; [exfalso | reflexivity].
  rewrite Hpre, <- app_assoc, <- app_comm_cons in Htr.
  destruct (throw_ends_run w e req pre' _ ev' err' Htr Hth') as [Hlast _].
  apply (f_equal (@length event)) in Hlast.
  rewrite Hpost, length_app in Hlast. simpl in Hlast. lia.
Qed.

(** X5.  When a download of the request is answered with a status outside
    200 to 299, the response is 500 and its [error] names the address and
    the status; the fetch is the last call of the request, so that nothing
    is read or written for it and the later downloads are not tried. *)
Theorem failed_download_message (e : env) (req : request) (url : value) (st : nat)
        (u : string) :
  In (EvFetch url (inr st)) (fst (create_video w e req)) ->
  res_ok st = false ->
  ToString url = Ok u ->
  snd (create_video w e req)
  = mkResponse 500
      (VObject [("error", VString ("Download failed: " +:+ u +:+ " -> " +:+ nat_to_string st));
                ("details", VString EmptyString)])
  /\ exists before,
      fst (create_video w e req)
      = before ++ [EvFetch url (inr st);
                   EvLog (new_Error ("Download failed: " +:+ u +:+ " -> "
                                       +:+ nat_to_string st))].
Proof.
  intros Hin Hok Hu.
  apply in_split in Hin as (pre & post & Htr).
  assert (Hth : thrown_by pre (EvFetch url (inr st))
                = Some (new_Error ("Download failed: " +:+ u +:+ " -> " +:+ nat_to_string st))).
  { cbn [thrown_by]. rewrite Hok. unfold download_error. now rewrite Hu. }
  destruct (throw_ends_run w e req pre post _ _ Htr Hth) as [-> Hresp].
  split; [exact Hresp|]. now exists pre.
Qed.

(** X6.  When the store answers the upload with a status outside 200 to
    299, the handler reads the body of the answer and makes no further
    call; the response is 500, with the status and the body in its [error],
    or with the error of the read when the body cannot be read. *)
Theorem refused_upload_response (e : env) (req : request) (url : string)
        (headers : list (string * string)) (data : bytes) (st : nat) :
  In (EvUpload url headers data (inr st)) (fst (create_video w e req)) ->
  res_ok st = false ->
  exists before r thrown,
    fst (create_video w e req)
    = before ++ [EvUpload url headers data (inr st); EvText r; EvLog thrown]
    /\ snd (create_video w e req) = failure_response thrown
    /\ thrown = match r with
                | inr txt => new_Error ("Supabase upload failed: " +:+ nat_to_string st
                                          +:+ " " +:+ txt)
                | inl err => err
                end.
Proof.
  intros Hin Hok.
  pose proof (create_video_run w e req) as Hrun.
  destruct (create_video w e req) as [tr resp]. cbn [fst snd] in *.
  destruct Hrun as [ | | |thrown tr1 _ H1|workDir tr1 thrown tr2 _ H1 H2
                   |workDir tr1 finalFile tr2 thrown tr3 _ H1 H2 H3
                   |workDir tr1 finalFile tr2 url' size tr3 _ H1 H2 H3];
    try (destruct Hin; fail);
    apply prepare_preparation in H1; try apply encode_execs in H2.
  - split_in Hin; try discriminate. wrong_kind Hin.
  - split_in Hin; try discriminate; wrong_kind Hin.
  - inversion H3 as [| | |buf key err Hc Hkey|buf key st' err Hc Hkey Hst
                    |buf key st' txt Hc Hkey Hst|]; subst;
      split_in Hin; try discriminate; try wrong_kind Hin;
      injection Hin as <- <- <- <-.
    + exists (tr1 ++ tr2 ++ [EvReadFile finalFile (inr buf)]), (inl thrown), thrown.
      rewrite <- !app_assoc. auto.
    + exists (tr1 ++ tr2 ++ [EvReadFile finalFile (inr buf)]), (inr txt). eexists.
      rewrite <- !app_assoc. split; [reflexivity|]. auto.
  - inversion H3 as [| | | | | |buf key st' Hc Hkey Hst]; subst.
    split_in Hin; try discriminate; try wrong_kind Hin.
    injection Hin as <- <- <- <-. congruence.
Qed.

(** X7.  A request answered 200 made exactly these calls, in this order:
    the clock, the creation of the workspace named after that reading, the
    complete download of every image in turn and of the audio track into
    the workspace, the write of the list of the downloaded images, the
    render pass from that list to [video.mp4] at the frame size of the
    request, the mux pass from [video.mp4] and the downloaded [audio.mp3]
    to [final.mp4], both exiting with status zero, the read of
    [final.mp4], and one upload of the bytes read, to the object address
    of the output path, answered with a success status. *)
Theorem successful_run (e : env) (req : request) :
  status (snd (create_video w e req)) = 200 ->
  exists t dl assets content sw sh r1 r2 buf key st,
    fst (create_video w e req)
    = EvNow t :: EvMkdir (workDir_of t) None
        :: dl ++ [EvWriteFile (path_join (workDir_of t) "list.txt")
                              (list_byte_of_string content) None;
                  EvExec (render_cmd (path_join (workDir_of t) "list.txt")
                                     (video_filter sw sh)
                                     (path_join (workDir_of t) "video.mp4")) r1;
                  EvExec (mux_cmd (path_join (workDir_of t) "video.mp4")
                                  (path_join (workDir_of t) "audio.mp3")
                                  (path_join (workDir_of t) "final.mp4")) r2;
                  EvReadFile (path_join (workDir_of t) "final.mp4") (inr buf);
                  EvUpload (uploadUrl (store_base e) (store_bucket e) key)
                           (store_headers e) buf (inr st)]
    /\ t = w_now w []
    /\ downloaded (jobs (workDir_of t) (elements (request_images req)) (request_audio req)) dl
    /\ assets_of (workDir_of t) (elements (request_images req)) 0 assets
    /\ concatContent assets = Ok content
    /\ ToString (request_width req) = Ok sw
    /\ ToString (request_height req) = Ok sh
    /\ exec_err r1 = None
    /\ exec_err r2 = None
    /\ ToString (request_outputPath req) = Ok key
    /\ res_ok st = true.
Proof.
  intros Hst.
  pose proof (create_video_consistent w e req) as Hcons.
  pose proof (create_video_run w e req) as Hrun.
  destruct (create_video w e req) as [tr resp]. cbn [fst snd] in *.
  destruct Hrun as [ | | |thrown tr1 _ H1|workDir tr1 thrown tr2 _ H1 H2
                   |workDir tr1 finalFile tr2 thrown tr3 _ H1 H2 H3
                   |workDir tr1 finalFile tr2 url' size tr3 _ H1 H2 H3];
    try discriminate Hst.
  inversion H1 as [t dl assets content Hdl Hassets Hcontent| | |]; subst.
  inversion H2 as [| | | |sw sh r1 r2 Hw Hh E1 E2]; subst.
  inversion H3 as [| | | | | |buf key st Hc Hkey Hok]; subst.
  exists t, dl, assets, content, sw, sh, r1, r2, buf, key, st.
  split; [rewrite <- !app_comm_cons, <- !app_assoc; reflexivity|].
  split; [exact (consistent_inv w [] _ (EvNow t) Hcons)|].
  repeat split; assumption.
Qed.

(** X8.  Nothing is retried: a request uploads at most once, invokes the
    encoder at most twice, fetches at most once per image and once for the
    audio track, and logs at most one error. *)
Theorem call_counts (e : env) (req : request) :
  length (List.filter is_upload (fst (create_video w e req))) <= 1
  /\ length (List.filter is_exec (fst (create_video w e req))) <= 2
  /\ length (fetched (fst (create_video w e req)))
     <= S (length (elements (request_images req)))
  /\ length (List.filter is_log (fst (create_video w e req))) <= 1.
Proof.
  pose proof (create_video_run w e req) as Hrun.
  destruct (create_video w e req) as [tr resp]. cbn [fst snd] in *.
  destruct Hrun as [ | | |thrown tr1 _ H1|workDir tr1 thrown tr2 _ H1 H2
                   |workDir tr1 finalFile tr2 thrown tr3 _ H1 H2 H3
                   |workDir tr1 finalFile tr2 url' size tr3 _ H1 H2 H3];
    try (cbn; lia);
    apply prepare_counts in H1 as (U1 & X1 & L1 & F1);
    try apply encode_counts in H2 as (U2 & X2 & L2 & F2);
    try apply publish_counts in H3 as (U3 & X3 & L3 & F3);
    rewrite !List.filter_app, !fetched_app, !length_app;
    rewrite ?U1, ?X1, ?L1, ?U2, ?L2, ?F2, ?X3, ?L3, ?F3;
    simpl; lia.
Qed.

(** X9.  What a client receives, by status.  A 200 carries [success] true
    and a [url] and no [error], and nothing was logged.  A 400 or a 401
    carries only an [error], and nothing was called outside.  A 500
    carries the message of the exception that ended the request, which was
    logged once, as the last thing the request did. *)
Theorem response_by_status (e : env) (req : request) :
  (status (snd (create_video w e req)) = 200
   /\ get_prop (body (snd (create_video w e req))) "success" = VBool true
   /\ (exists u, get_prop (body (snd (create_video w e req))) "url" = VString u)
   /\ get_prop (body (snd (create_video w e req))) "error" = VUndefined
   /\ List.filter is_log (fst (create_video w e req)) = [])
  \/ ((status (snd (create_video w e req)) = 400
       \/ status (snd (create_video w e req)) = 401)
      /\ (exists msg, body (snd (create_video w e req)) = error_body msg)
      /\ fst (create_video w e req) = [])
  \/ (status (snd (create_video w e req)) = 500
      /\ exists before err,
          fst (create_video w e req) = before ++ [EvLog err]
          /\ List.filter is_log before = []
          /\ body (snd (create_video w e req))
             = VObject [("error", VString (message err));
                        ("details", js_or (details err) (VString EmptyString))]).
Proof.
  pose proof (create_video_run w e req) as Hrun.
  destruct (create_video w e req) as [tr resp]. cbn [fst snd] in *.
  destruct Hrun as [ | | |thrown tr1 _ H1|workDir tr1 thrown tr2 _ H1 H2
                   |workDir tr1 finalFile tr2 thrown tr3 _ H1 H2 H3
                   |workDir tr1 finalFile tr2 url' size tr3 _ H1 H2 H3];
    try (right; left; cbn [status body]; split; [auto|]; split; [eexists|]; reflexivity);
    apply prepare_counts in H1 as (_ & _ & L1 & _);
    try apply encode_counts in H2 as (_ & _ & L2 & _);
    try apply publish_counts in H3 as (_ & _ & L3 & _).
  - right. right. split; [reflexivity|]. exists tr1, thrown. auto.
  - right. right. split; [reflexivity|]. exists (tr1 ++ tr2), thrown.
    rewrite <- app_assoc, List.filter_app, L1, L2. auto.
  - right. right. split; [reflexivity|]. exists (tr1 ++ tr2 ++ tr3), thrown.
    rewrite <- !app_assoc, !List.filter_app, L1, L2, L3. auto.
  - left. split; [reflexivity|]. split; [reflexivity|]. split; [now exists url'|].
    split; [reflexivity|]. now rewrite !List.filter_app, L1, L2, L3.
Qed.

End Requests.

(** ** The frame rate of a request *)

(** Names the fields that the handler destructures from the body of [r]. *)
Ltac name_fields r :=
  change (field_or (js_or (req_body r) (VObject [])) "images" (VArray []))
    with (request_images r);
  change (get_prop (js_or (req_body r) (VObject [])) "audio") with (request_audio r);
  change (field_or (js_or (req_body r) (VObject [])) "outputPath"
                   (VString "stories/output.mp4")) with (request_outputPath r);
  change (field_or (js_or (req_body r) (VObject [])) "width" (VNumber (num_of_Z 1920)))
    with (request_width r);
  change (field_or (js_or (req_body r) (VObject [])) "height" (VNumber (num_of_Z 1080)))
    with (request_height r);
  change (field_or (js_or (req_body r) (VObject [])) "fps" (VNumber (num_of_Z 25)))
    with (request_fps r).

Section FrameRate.

Context {rt : Runtime}.
Variable w : world.

(** X10.  The [fps] of a request is echoed in the response and used
    nowhere else: two requests that agree on the token, the images, the
    audio track, the output path and the frame size make the same calls
    with the same arguments, encoder commands included, and get the same
    status and, apart from [fps], the same response body. *)
Theorem fps_only_echoed (e : env) (req req' : request) :
  x_auth_token req = x_auth_token req' ->
  request_images req = request_images req' ->
  request_audio req = request_audio req' ->
  request_outputPath req = request_outputPath req' ->
  request_width req = request_width req' ->
  request_height req = request_height req' ->
  fst (create_video w e req) = fst (create_video w e req')
  /\ status (snd (create_video w e req)) = status (snd (create_video w e req'))
  /\ (forall k, k <> "fps" ->
                get_prop (body (snd (create_video w e req))) k
                = get_prop (body (snd (create_video w e req'))) k)
  /\ (status (snd (create_video w e req)) = 200 ->
      get_prop (body (snd (create_video w e req))) "fps" = request_fps req
      /\ get_prop (body (snd (create_video w e req'))) "fps" = request_fps req').
Proof.
  intros Htok Himg Haud Hout Hwd Hht.
  unfold create_video, try_block.
  replace (unauthorized e req') with (unauthorized e req)
    by (unfold unauthorized; now rewrite Htok).
  destruct (unauthorized e req).
  { repeat split; try reflexivity; discriminate. }
  cbv zeta. name_fields req. name_fields req'.
  rewrite <- Himg, <- Haud, <- Hout, <- Hwd, <- Hht.
  destruct (negb (isArray (request_images req))
            || Nat.eqb (length (elements (request_images req))) 0).
  { repeat split; try reflexivity; discriminate. }
  destruct (negb (truthy (request_audio req))).
  { repeat split; try reflexivity; discriminate. }
  unfold bind, ret.
  destruct (prepare w (elements (request_images req)) (request_audio req) [])
    as [[workDir|err] tr1]; [|repeat split; try reflexivity; discriminate].
  destruct (encode w workDir (request_width req) (request_height req) tr1)
    as [[finalFile|err] tr2]; [|repeat split; try reflexivity; discriminate].
  destruct (publish w e finalFile (request_outputPath req) tr2)
    as [[up|err] tr3]; [|repeat split; try reflexivity; discriminate].
  cbn [fst snd status body]. repeat split.
  intros k Hk. unfold success_body. cbn [get_prop lookup_field].
  destruct (String.eqb_spec "fps" k) as [<-|_]; [contradiction | reflexivity].
Qed.

End FrameRate.

(** ** An image entry that is no object *)

Section Holes.

Context {rt : Runtime}.
Variable w : world.

(** The loop of step 1 stops at an entry that is [null] or [undefined]:
    it throws, having fetched at most the entries before it. *)
Lemma download_images_hole (workDir : string) (before after : list value) (img : value)
      (i : nat) (acc : list local_asset) (tr : list event) :
  img = VNull \/ img = VUndefined ->
  exists e new rest,
    download_images w workDir (before ++ img :: after) i acc tr = (Throw e, tr ++ new)
    /\ map (fun x => get_prop x "url") before = fetched new ++ rest.
Proof.
  intros Himg. revert i acc tr.
  induction before as [|x before IH]; intros i acc tr.
  - cbn [app download_images]. unfold bind, lift.
    destruct Himg as [-> | ->]; cbn [get_member]; eexists; exists [], [];
      rewrite app_nil_r; split; reflexivity.
  - rewrite <- app_comm_cons. cbn [download_images map].
    assert (Hstop : forall e, exists e' new rest,
               (Throw e : result (list local_asset), tr) = (Throw e', tr ++ new)
               /\ get_prop x "url" :: map (fun x => get_prop x "url") before
                  = fetched new ++ rest).
    { intros e. exists e, []. eexists. rewrite app_nil_r. split; reflexivity. }
    unfold bind, lift.
    destruct (get_member x "url") as [imgUrl|e] eqn:Hurl; cbv beta iota; [|apply Hstop].
    assert (imgUrl = get_prop x "url") as ->.
    { destruct x; cbn in Hurl; first [discriminate | injection Hurl as <-; reflexivity]. }
    destruct (get_member x "duration") as [d|e]; cbv beta iota; [|apply Hstop].
    destruct (duration_of d) as [dur|e]; cbv beta iota; [|apply Hstop].
    destruct (downloadToFile_run w (get_prop x "url") (img_file workDir i) tr)
      as [(st & buf & Hok & ->)|(e & new & -> & Hfail)]; cbv beta iota.
    + destruct (IH (S i) (acc ++ [mkAsset (img_file workDir i) dur])
                  (tr ++ [EvFetch (get_prop x "url") (inr st); EvArrayBuffer (inr buf);
                          EvWriteFile (img_file workDir i) buf None]))
        as (e & new & rest & -> & Hrest).
      exists e. eexists. exists rest. rewrite <- !app_assoc.
      split; [reflexivity|]. rewrite fetched_app, <- app_assoc, <- Hrest. reflexivity.
    + exists e, new. eexists. split; [reflexivity|].
      now rewrite (download_failure_fetched _ _ _ Hfail).
Qed.

(** X11.  The validation does not look into the entries of [images]: a
    request that passes it with an entry that is [null] or [undefined] is
    answered 500, not 400.  Its workspace is created, at most the entries
    before that one are fetched, the audio track is not, and neither the
    encoder nor the upload is reached. *)
Theorem hole_in_images (e : env) (req : request) (before after : list value)
        (img : value) :
  accepted e req = true ->
  elements (request_images req) = before ++ img :: after ->
  img = VNull \/ img = VUndefined ->
  status (snd (create_video w e req)) = 500
  /\ (exists rest,
         map (fun x => get_prop x "url") before
         = fetched (fst (create_video w e req)) ++ rest)
  /\ Forall (fun ev => is_exec ev = false /\ is_upload ev = false)
            (fst (create_video w e req)).
Proof.
  intros Hacc Himgs Himg.
  assert (Hprep : exists err new,
             prepare w (elements (request_images req)) (request_audio req) []
             = (Throw err, new)
             /\ exists rest, map (fun x => get_prop x "url") before = fetched new ++ rest).
  { unfold prepare, bind, now, mkdir. cbv beta zeta. rewrite app_nil_l.
    destruct (w_mkdir w [EvNow (w_now w [])] (workDir_of (w_now w []))) as [err|];
      cbn [of_option]; cbv beta iota.
    - exists err. eexists. split; [reflexivity|]. now eexists.
    - rewrite Himgs.
      destruct (download_images_hole (workDir_of (w_now w [])) before after img 0 []
                  ([EvNow (w_now w [])] ++ [EvMkdir (workDir_of (w_now w [])) None]) Himg)
        as (err & new & rest & -> & Hrest).
      exists err. eexists. split; [reflexivity|]. exists rest.
      now rewrite !fetched_app. }
  destruct Hprep as (err & new & Hprep & rest & Hrest).
  pose proof (prepare_run w (elements (request_images req)) (request_audio req)) as Hout.
  rewrite Hprep in Hout. cbn [fst snd] in Hout. apply prepare_preparation in Hout.
  assert (Hrun : create_video w e req = (new ++ [EvLog err], failure_response err)).
  { unfold accepted in Hacc.
    destruct (unauthorized e req) eqn:Hauth; [discriminate|].
    destruct (rejected_images req) eqn:Hri; [discriminate|].
    destruct (rejected_audio req) eqn:Hra; [discriminate|].
    unfold create_video, try_block. rewrite Hauth. cbv zeta.
    change (field_or (js_or (req_body req) (VObject [])) "images" (VArray []))
      with (request_images req).
    change (get_prop (js_or (req_body req) (VObject [])) "audio") with (request_audio req).
    change (negb (isArray (request_images req))
            || Nat.eqb (length (elements (request_images req))) 0)
      with (rejected_images req).
    change (negb (truthy (request_audio req))) with (rejected_audio req).
    rewrite Hri, Hra. unfold bind at 1. now rewrite Hprep. }
  rewrite Hrun. cbn [fst snd]. split; [reflexivity|]. split.
  - exists rest. now rewrite fetched_app, app_nil_r.
  - apply Forall_app. split; [|repeat constructor].
    eapply Forall_impl; [exact Hout|]. intros ev Hev.
    split; [now apply preparation_not_exec | now apply preparation_not_upload].
Qed.

End Holes.

(** ** The files of a workspace *)

Lemma append_inj_l (a b c : string) : a +:+ b = a +:+ c -> b = c.
Proof.
  induction a as [|x a IH]; [now rewrite !append_nil_l|].
  rewrite !append_cons. intros H. injection H as H. exact (IH H).
Qed.

Lemma append_inj_r (a b c : string) : a +:+ c = b +:+ c -> a = b.
Proof.
  intros H. apply (f_equal list_ascii_of_string) in H.
  rewrite !list_ascii_append in H. apply app_inv_tail in H.
  rewrite <- (string_of_list_ascii_of_string a), <- (string_of_list_ascii_of_string b).
  now rewrite H.
Qed.

(** Reading the digits of a padded index gives the index back. *)
Lemma uint_of_zeros (k : nat) (s : string) :
  NilEmpty.uint_of_string (repeat_string k "0" +:+ s)
  = option_map (Nat.iter k D0) (NilEmpty.uint_of_string s).
Proof.
  induction k as [|k IH]; cbn [repeat_string Nat.iter].
  - rewrite append_nil_l. now destruct (NilEmpty.uint_of_string s).
  - rewrite !append_cons, append_nil_l. cbn [NilEmpty.uint_of_string]. rewrite IH.
    now destruct (NilEmpty.uint_of_string s).
Qed.

Lemma of_uint_zeros (k : nat) (d : uint) : Nat.of_uint (Nat.iter k D0 d) = Nat.of_uint d.
Proof. induction k as [|k IH]; [reflexivity | exact IH]. Qed.

Lemma padded_index (i : nat) :
  option_map Nat.of_uint (NilEmpty.uint_of_string (padStart 3 "0" (nat_to_string i)))
  = Some i.
Proof.
  unfold padStart. rewrite uint_of_zeros.
  assert (H : exists d, NilEmpty.uint_of_string (nat_to_string i) = Some d
                        /\ Nat.of_uint d = i).
  { unfold nat_to_string, NilZero.string_of_uint.
    pose proof (DecimalNat.Unsigned.of_to i) as Hi.
    destruct (Nat.to_uint i) eqn:E;
      [exists (D0 Nil); split; [reflexivity | exact Hi] | ..];
      rewrite <- E in Hi |- *; exists (Nat.to_uint i); (split; [apply NilEmpty.usu | exact Hi]). }
  destruct H as (d & -> & Hd). cbn [option_map]. now rewrite of_uint_zeros, Hd.
Qed.

(** X12.  The files of one workspace never collide: two images of a
    request are written to different files, whatever their indices, and no
    image is written to the file of the audio track, of the list, or of
    either video; these four differ from each other. *)
Theorem workspace_files_distinct (workDir : string) (i j : nat) :
  (img_file workDir i = img_file workDir j -> i = j)
  /\ ~ In (img_file workDir i)
          [path_join workDir "audio.mp3"; path_join workDir "list.txt";
           path_join workDir "video.mp4"; path_join workDir "final.mp4"]
  /\ List.NoDup [path_join workDir "audio.mp3"; path_join workDir "list.txt";
                 path_join workDir "video.mp4"; path_join workDir "final.mp4"].
Proof.
  unfold img_file, path_join. split; [|split].
  - intros H. do 3 apply append_inj_l in H. apply append_inj_r in H.
    pose proof (padded_index i) as Hi. rewrite H, padded_index in Hi. now injection Hi.
  - intros H. simpl in H.
    repeat (destruct H as [H|H]; [do 2 apply append_inj_l in H; discriminate H|]).
    exact H.
  - repeat (apply List.NoDup_cons;
            [simpl; intros H;
             repeat (destruct H as [H|H];
                     [do 2 apply append_inj_l in H; discriminate H|]); exact H|]).
    apply List.NoDup_nil.
Qed.

(** ** The addresses of stored objects *)

Lemma hex_digit_inj (a b : nat) : a < 16 -> b < 16 -> hex_digit a = hex_digit b -> a = b.
Proof.
  intros Ha Hb.
  do 16 (destruct a as [|a]; [do 16 (destruct b as [|b]; [first [reflexivity|discriminate]|]); lia|]).
  lia.
Qed.

Lemma percent_not_unreserved : uri_unreserved "%" = false.
Proof. reflexivity. Qed.

Lemma nat_of_ascii_inj (a b : ascii) : nat_of_ascii a = nat_of_ascii b -> a = b.
Proof.
  intros H. rewrite <- (ascii_nat_embedding a), <- (ascii_nat_embedding b). now rewrite H.
Qed.

Lemma encode_char_inj (c1 c2 : ascii) (r1 r2 : string) :
  encode_char c1 +:+ r1 = encode_char c2 +:+ r2 -> c1 = c2 /\ r1 = r2.
Proof.
  unfold encode_char, percent_encode. cbv zeta.
  pose proof (nat_ascii_bounded c1) as B1. pose proof (nat_ascii_bounded c2) as B2.
  pose proof (Nat.div_mod_eq (nat_of_ascii c1) 16) as D1.
  pose proof (Nat.div_mod_eq (nat_of_ascii c2) 16) as D2.
  assert (Q1 : Nat.div (nat_of_ascii c1) 16 < 16)
    by (apply Nat.Div0.div_lt_upper_bound; lia).
  assert (Q2 : Nat.div (nat_of_ascii c2) 16 < 16)
    by (apply Nat.Div0.div_lt_upper_bound; lia).
  assert (M1 : Nat.modulo (nat_of_ascii c1) 16 < 16) by (apply Nat.mod_upper_bound; lia).
  assert (M2 : Nat.modulo (nat_of_ascii c2) 16 < 16) by (apply Nat.mod_upper_bound; lia).
  set (q1 := Nat.div (nat_of_ascii c1) 16) in *.
  set (q2 := Nat.div (nat_of_ascii c2) 16) in *.
  set (m1 := Nat.modulo (nat_of_ascii c1) 16) in *.
  set (m2 := Nat.modulo (nat_of_ascii c2) 16) in *.
  destruct (uri_unreserved c1) eqn:U1, (uri_unreserved c2) eqn:U2;
    rewrite !append_cons, ?append_nil_l; intros H.
  - injection H as -> ->. auto.
  - injection H as -> _. rewrite percent_not_unreserved in U1. discriminate.
  - injection H as <- _. rewrite percent_not_unreserved in U2. discriminate.
  - injection H as Hhi Hlo ->. split; [|reflexivity].
    apply nat_of_ascii_inj.
    apply (hex_digit_inj q1 q2 Q1 Q2) in Hhi. apply (hex_digit_inj m1 m2 M1 M2) in Hlo.
    congruence.
Qed.

Lemma encodeURIComponent_inj (a b : string) :
  encodeURIComponent a = encodeURIComponent b -> a = b.
Proof.
  revert b. induction a as [|c a IH]; intros [|d b]; cbn [encodeURIComponent]; intros H.
  - reflexivity.
  - exfalso. unfold encode_char, percent_encode in H.
    destruct (uri_unreserved d); rewrite append_cons in H; discriminate.
  - exfalso. unfold encode_char, percent_encode in H.
    destruct (uri_unreserved c); rewrite append_cons in H; discriminate.
  - apply encode_char_inj in H as [-> H]. now rewrite (IH b H).
Qed.

(** Two texts without slash, each followed by a slash, split in one way. *)
Lemma split_at_slash (a b x y : string) :
  ~ In "/"%char (list_ascii_of_string a) ->
  ~ In "/"%char (list_ascii_of_string b) ->
  a +:+ "/" +:+ x = b +:+ "/" +:+ y -> a = b /\ x = y.
Proof.
  revert b. induction a as [|c a IH]; intros [|d b] Ha Hb;
    repeat rewrite append_cons; repeat rewrite append_nil_l; intros H.
  - injection H as ->. auto.
  - injection H as <- _. exfalso. apply Hb. now left.
  - injection H as -> _. exfalso. apply Ha. now left.
  - injection H as -> H.
    destruct (IH b) as [-> ->]; auto.
    + intros K. apply Ha. now right.
    + intros K. apply Hb. now right.
Qed.

Lemma object_url_inj (base segment b1 k1 b2 k2 : string) :
  object_url base segment b1 k1 = object_url base segment b2 k2 -> b1 = b2 /\ k1 = k2.
Proof.
  unfold object_url. intros H. do 2 apply append_inj_l in H.
  apply split_at_slash in H as [Hb Hk]; try apply encodeURIComponent_no_slash.
  split; now apply encodeURIComponent_inj.
Qed.

(** X13.  At one store, the address of an object determines its bucket
    and its key: two uploads go to the same address exactly when they name
    the same bucket and the same output path, and so do two public
    URLs. *)
Theorem object_addresses_distinct (base b1 k1 b2 k2 : string) :
  (uploadUrl base b1 k1 = uploadUrl base b2 k2 <-> b1 = b2 /\ k1 = k2)
  /\ (publicUrl base b1 k1 = publicUrl base b2 k2 <-> b1 = b2 /\ k1 = k2).
Proof.
  split; (split; [apply object_url_inj | now intros [-> ->]]).
Qed.

(** ** Confinement to the workspace *)

Lemma plain_name_append (a b : string) :
  plain_name (a +:+ b) = plain_name a && plain_name b.
Proof. unfold plain_name. now rewrite list_ascii_append, forallb_app. Qed.

Lemma plain_path_append (a b : string) :
  plain_path (a +:+ b) = plain_path a && plain_path b.
Proof. unfold plain_path. now rewrite list_ascii_append, forallb_app. Qed.

Lemma plain_name_path (s : string) : plain_name s = true -> plain_path s = true.
Proof.
  unfold plain_name, plain_path. induction (list_ascii_of_string s) as [|c l IH]; simpl;
    [reflexivity|].
  intros H. apply andb_prop in H as [-> H]. now rewrite IH.
Qed.

Lemma plain_name_uint (d : uint) : plain_name (NilEmpty.string_of_uint d) = true.
Proof. induction d; simpl; [reflexivity | exact IHd ..]. Qed.

Lemma plain_name_nat_to_string (n : nat) : plain_name (nat_to_string n) = true.
Proof.
  unfold nat_to_string, NilZero.string_of_uint.
  destruct (Nat.to_uint n) eqn:E; try reflexivity; rewrite <- E; apply plain_name_uint.
Qed.

Lemma plain_name_Z_to_string (z : Z) : plain_name (Z_to_string z) = true.
Proof.
  assert (H : forall d, plain_name (NilZero.string_of_uint d) = true).
  { intros d. unfold NilZero.string_of_uint.
    destruct d eqn:E; try reflexivity; rewrite <- E; apply plain_name_uint. }
  unfold Z_to_string, NilZero.string_of_int. destruct (Z.to_int z) as [d|d].
  - apply H.
  - change (String "-" ?x) with ("-" +:+ x). now rewrite plain_name_append, H.
Qed.

Lemma plain_name_repeat_zero (n : nat) : plain_name (repeat_string n "0") = true.
Proof.
  induction n as [|n IH]; [reflexivity|].
  cbn [repeat_string]. now rewrite plain_name_append, IH.
Qed.

Lemma plain_name_img (i : nat) :
  plain_name ("img_" +:+ padStart 3 "0" (nat_to_string i) +:+ ".png") = true.
Proof.
  unfold padStart.
  now rewrite !plain_name_append, plain_name_repeat_zero, plain_name_nat_to_string.
Qed.

Lemma plain_path_workDir (t : Z) : plain_path (workDir_of t) = true.
Proof.
  unfold workDir_of. rewrite plain_path_append.
  now rewrite (plain_name_path _ (plain_name_Z_to_string t)).
Qed.

Lemma plain_path_join (dir name : string) :
  plain_path dir = true -> plain_name name = true -> plain_path (path_join dir name) = true.
Proof.
  intros Hd Hn. unfold path_join.
  now rewrite !plain_path_append, Hd, (plain_name_path _ Hn).
Qed.

(** The file of every download job lies directly in the workspace. *)
Lemma image_jobs_files (workDir : string) (images : list value) (i : nat) (f : string) :
  In f (map snd (image_jobs workDir images i)) ->
  exists name, f = path_join workDir name /\ plain_name name = true.
Proof.
  revert i. induction images as [|img rest IH]; intros i; simpl; [tauto|].
  intros [<-|H]; [|exact (IH _ H)].
  eexists. split; [reflexivity | apply plain_name_img].
Qed.

Lemma jobs_files (workDir : string) (images : list value) (audio : value) (f : string) :
  In f (map snd (jobs workDir images audio)) ->
  exists name, f = path_join workDir name /\ plain_name name = true.
Proof.
  unfold jobs. rewrite map_app, in_app_iff. intros [H|[<-|[]]].
  - exact (image_jobs_files _ _ _ _ H).
  - now exists "audio.mp3".
Qed.

Lemma downloaded_files js tr f data r :
  downloaded js tr -> In (EvWriteFile f data r) tr -> In f (map snd js).
Proof.
  induction 1 as [|url out st buf js tr _ _ IH]; simpl; [tauto|].
  intros [H|[H|[H|H]]]; try discriminate; [|right; now apply IH].
  injection H as <- _ _. now left.
Qed.

Lemma aborted_files js tr f data r :
  aborted js tr -> In (EvWriteFile f data r) tr -> In f (map snd js).
Proof.
  induction 1 as [url out js tr Hf| |url out st buf js tr _ _ IH]; simpl.
  - destruct Hf; intros K; split_in K; try discriminate.
    injection K as <- _ _. now left.
  - tauto.
  - intros [H|[H|[H|H]]]; try discriminate; [|right; now apply IH].
    injection H as <- _ _. now left.
Qed.

Section Confinement.

Context {rt : Runtime}.
Variable w : world.

(** The first event of a request that calls anything is the reading of
    the clock that names its workspace. *)
Lemma prepared_at (e : env) (req : request) (r : result string) (tr1 rest : list event) :
  prepare_outcome (elements (request_images req)) (request_audio req) r tr1 ->
  fst (create_video w e req) = tr1 ++ rest ->
  exists tail, tr1 = EvNow (w_now w []) :: tail.
Proof.
  intros H1 Htr. pose proof (create_video_consistent w e req) as Hcons.
  rewrite Htr in Hcons.
  destruct H1 as [t dl assets content _ _ _|t e0|t e0 tr _|t dl data e0 _];
    rewrite <- app_comm_cons in Hcons;
    pose proof (consistent_inv w [] _ (EvNow t) Hcons) as Ht; cbn [answered] in Ht;
    subst t; eexists; reflexivity.
Qed.

(** The command lines of a request and the paths they name. *)
Lemma encoder_command_lines (e : env) (req : request) (cmd : string) (r : exec_outcome) :
  In (EvExec cmd r) (fst (create_video w e req)) ->
  exists sw sh,
    ToString (request_width req) = Ok sw
    /\ ToString (request_height req) = Ok sh
    /\ (cmd = render_cmd (path_join (workDir_of (w_now w [])) "list.txt")
                         (video_filter sw sh)
                         (path_join (workDir_of (w_now w [])) "video.mp4")
        \/ cmd = mux_cmd (path_join (workDir_of (w_now w [])) "video.mp4")
                         (path_join (workDir_of (w_now w [])) "audio.mp3")
                         (path_join (workDir_of (w_now w [])) "final.mp4"))
    /\ Forall (fun f => plain_path f = true)
              [path_join (workDir_of (w_now w [])) "list.txt";
               path_join (workDir_of (w_now w [])) "video.mp4";
               path_join (workDir_of (w_now w [])) "audio.mp3";
               path_join (workDir_of (w_now w [])) "final.mp4"].
Proof.
  intros Hin.
  assert (Hplain : Forall (fun f => plain_path f = true)
                     [path_join (workDir_of (w_now w [])) "list.txt";
                      path_join (workDir_of (w_now w [])) "video.mp4";
                      path_join (workDir_of (w_now w [])) "audio.mp3";
                      path_join (workDir_of (w_now w [])) "final.mp4"]).
  { repeat constructor; (apply plain_path_join; [apply plain_path_workDir | reflexivity]). }
  pose proof (prepared_at e req) as Hat.
  pose proof (create_video_run w e req) as Hrun.
  destruct (create_video w e req) as [tr resp]. cbn [fst snd] in *.
  assert (Hcase : forall workDir tr1 res tr2 rest,
             prepare_outcome (elements (request_images req)) (request_audio req)
                             (Ok workDir) tr1 ->
             encode_outcome workDir (request_width req) (request_height req) res tr2 ->
             tr = tr1 ++ tr2 ++ rest ->
             In (EvExec cmd r) tr2 ->
             exists sw sh,
               ToString (request_width req) = Ok sw
               /\ ToString (request_height req) = Ok sh
               /\ (cmd = render_cmd (path_join (workDir_of (w_now w [])) "list.txt")
                                    (video_filter sw sh)
                                    (path_join (workDir_of (w_now w [])) "video.mp4")
                   \/ cmd = mux_cmd (path_join (workDir_of (w_now w [])) "video.mp4")
                                    (path_join (workDir_of (w_now w [])) "audio.mp3")
                                    (path_join (workDir_of (w_now w [])) "final.mp4"))
               /\ Forall (fun f => plain_path f = true)
                         [path_join (workDir_of (w_now w [])) "list.txt";
                          path_join (workDir_of (w_now w [])) "video.mp4";
                          path_join (workDir_of (w_now w [])) "audio.mp3";
                          path_join (workDir_of (w_now w [])) "final.mp4"]).
  { intros workDir tr1 res tr2 rest H1 H2 Htr Hin2.
    destruct (Hat _ _ _ H1 Htr) as [tail Htail].
    assert (workDir = workDir_of (w_now w [])) as ->.
    { rewrite Htail in H1. inversion H1; subst. reflexivity. }
    inversion H2 as [e0 Hw|sw e0 Hw Hh|sw sh r1 err1 Hw Hh E1
                    |sw sh r1 r2 err2 Hw Hh E1 E2|sw sh r1 r2 Hw Hh E1 E2]; subst;
      split_in Hin2; try discriminate; injection Hin2 as <- <-;
      exists sw, sh; auto. }
  destruct Hrun as [ | | |thrown tr1 _ H1|workDir tr1 thrown tr2 _ H1 H2
                   |workDir tr1 finalFile tr2 thrown tr3 _ H1 H2 H3
                   |workDir tr1 finalFile tr2 url' size tr3 _ H1 H2 H3];
    try (destruct Hin; fail).
  - apply prepare_preparation in H1. split_in Hin; try discriminate. wrong_kind Hin.
  - pose proof (prepare_preparation _ _ _ _ H1) as P1.
    split_in Hin; try discriminate; try wrong_kind Hin.
    eapply Hcase; eauto.
  - pose proof (prepare_preparation _ _ _ _ H1) as P1.
    pose proof (publish_events _ _ _ _ _ H3) as P3.
    split_in Hin; try discriminate; try wrong_kind Hin.
    eapply Hcase; eauto.
  - pose proof (prepare_preparation _ _ _ _ H1) as P1.
    pose proof (publish_events _ _ _ _ _ H3) as P3.
    split_in Hin; try discriminate; try wrong_kind Hin.
    eapply (Hcase workDir tr1 _ tr2 tr3); eauto.
Qed.

(** X14.  Every command line that a request hands to [exec] is the render
    template or the mux template, written for the files [list.txt],
    [video.mp4], [audio.mp3] and [final.mp4] of the workspace named after
    the first reading of the clock.  These paths hold only lower-case
    letters, digits, dots, underscores, hyphens and slashes, so that no
    path closes the double quotes put around it.  The frame size is the
    only text of the request in a command line, and it is pasted as it
    prints, without check or escape: a width or a height that is a text
    is pasted unchanged, whatever characters it holds.  [exec] runs the
    line in a shell; what the shell starts for a frame size that closes
    the quotes is no part of this statement. *)
Theorem encoder_commands (e : env) (req : request) (cmd : string) (r : exec_outcome) :
  In (EvExec cmd r) (fst (create_video w e req)) ->
  exists sw sh,
    ToString (request_width req) = Ok sw
    /\ ToString (request_height req) = Ok sh
    /\ (cmd = render_cmd (path_join (workDir_of (w_now w [])) "list.txt")
                         (video_filter sw sh)
                         (path_join (workDir_of (w_now w [])) "video.mp4")
        \/ cmd = mux_cmd (path_join (workDir_of (w_now w [])) "video.mp4")
                         (path_join (workDir_of (w_now w [])) "audio.mp3")
                         (path_join (workDir_of (w_now w [])) "final.mp4"))
    /\ Forall (fun f => plain_path f = true)
              [path_join (workDir_of (w_now w [])) "list.txt";
               path_join (workDir_of (w_now w [])) "video.mp4";
               path_join (workDir_of (w_now w [])) "audio.mp3";
               path_join (workDir_of (w_now w [])) "final.mp4"]
    /\ (forall s, request_width req = VString s -> sw = s)
    /\ (forall s, request_height req = VString s -> sh = s).
Proof.
  intros Hin.
  destruct (encoder_command_lines e req cmd r Hin) as (sw & sh & Hw & Hh & Hcmd & Hplain).
  exists sw, sh. repeat (split; [assumption|]).
  split; intros s Hs; [rewrite Hs in Hw | rewrite Hs in Hh]; cbn in *; congruence.
Qed.


(** X16.  What a request uploads is the muxed file: every upload follows
    at once the read of [final.mp4] in the workspace, which follows at once
    a mux pass that exited with status zero, and it sends the bytes just
    read.  It is sent only when the storage address and the credential are
    configured, with the credential as bearer token, the content type
    [video/mp4] and the upsert flag; at most the read of the answer and
    the log follow it. *)
Theorem upload_request (e : env) (req : request) (url : string)
        (headers : list (string * string)) (data : bytes) (r : error + nat) :
  In (EvUpload url headers data r) (fst (create_video w e req)) ->
  configured e = true
  /\ env_get (env_SUPABASE_SERVICE_ROLE_KEY e) <> EmptyString
  /\ headers = [("Authorization", "Bearer " +:+ env_get (env_SUPABASE_SERVICE_ROLE_KEY e));
                ("Content-Type", "video/mp4");
                ("x-upsert", "true")]
  /\ exists before r2 after,
      fst (create_video w e req)
      = before
          ++ [EvExec (mux_cmd (path_join (workDir_of (w_now w [])) "video.mp4")
                              (path_join (workDir_of (w_now w [])) "audio.mp3")
                              (path_join (workDir_of (w_now w [])) "final.mp4")) r2;
              EvReadFile (path_join (workDir_of (w_now w [])) "final.mp4") (inr data);
              EvUpload url headers data r]
          ++ after
      /\ exec_err r2 = None
      /\ length after <= 2.
Proof.
  intros Hin.
  assert (Hkey : configured e = true ->
                 env_get (env_SUPABASE_SERVICE_ROLE_KEY e) <> EmptyString).
  { unfold configured, env_get, env_or, env_missing.
    destruct (env_SUPABASE_SERVICE_ROLE_KEY e) as [s|];
      [|rewrite orb_true_r; discriminate].
    destruct (String.eqb_spec s EmptyString) as [->|Hs];
      [rewrite orb_true_r; discriminate | now intros _]. }
  pose proof (prepared_at e req) as Hat.
  pose proof (create_video_run w e req) as Hrun.
  destruct (create_video w e req) as [tr resp]. cbn [fst snd] in *.
  assert (Hcase : forall workDir tr1 finalFile tr2 res tr3 rest,
             prepare_outcome (elements (request_images req)) (request_audio req)
                             (Ok workDir) tr1 ->
             encode_outcome workDir (request_width req) (request_height req)
                            (Ok finalFile) tr2 ->
             publish_outcome e finalFile (request_outputPath req) res tr3 ->
             tr = tr1 ++ tr2 ++ tr3 ++ rest ->
             length rest <= 1 ->
             In (EvUpload url headers data r) tr3 ->
             configured e = true
             /\ env_get (env_SUPABASE_SERVICE_ROLE_KEY e) <> EmptyString
             /\ headers = [("Authorization",
                            "Bearer " +:+ env_get (env_SUPABASE_SERVICE_ROLE_KEY e));
                           ("Content-Type", "video/mp4");
                           ("x-upsert", "true")]
             /\ exists before r2 after,
                 tr = before
                        ++ [EvExec (mux_cmd (path_join (workDir_of (w_now w [])) "video.mp4")
                                            (path_join (workDir_of (w_now w [])) "audio.mp3")
                                            (path_join (workDir_of (w_now w [])) "final.mp4"))
                                   r2;
                            EvReadFile (path_join (workDir_of (w_now w [])) "final.mp4")
                                       (inr data);
                            EvUpload url headers data r]
                        ++ after
                 /\ exec_err r2 = None
                 /\ length after <= 2).
  { intros workDir tr1 finalFile tr2 res tr3 rest H1 H2 H3 Htr Hrest Hin3.
    destruct (Hat _ _ _ H1 Htr) as [tail Htail].
    assert (workDir = workDir_of (w_now w [])) as ->.
    { rewrite Htail in H1. inversion H1; subst. reflexivity. }
    inversion H2 as [| | | |sw sh r1 r2 Hw Hh E1 E2]; subst tr2 finalFile.
    assert (Hshape : forall after,
               tr3 = [EvReadFile (path_join (workDir_of (w_now w [])) "final.mp4") (inr data);
                      EvUpload url headers data r] ++ after ->
               length after <= 1 ->
               exists before r2 after',
                 tr = before
                        ++ [EvExec (mux_cmd (path_join (workDir_of (w_now w [])) "video.mp4")
                                            (path_join (workDir_of (w_now w [])) "audio.mp3")
                                            (path_join (workDir_of (w_now w [])) "final.mp4"))
                                   r2;
                            EvReadFile (path_join (workDir_of (w_now w [])) "final.mp4")
                                       (inr data);
                            EvUpload url headers data r]
                        ++ after'
                 /\ exec_err r2 = None
                 /\ length after' <= 2).
    { intros after -> Hafter.
      exists (tr1 ++ [EvExec (render_cmd (path_join (workDir_of (w_now w [])) "list.txt")
                                         (video_filter sw sh)
                                         (path_join (workDir_of (w_now w [])) "video.mp4"))
                             r1]), r2, (after ++ rest).
      split; [rewrite Htr, <- !app_assoc; reflexivity|].
      split; [exact E2|]. rewrite length_app. lia. }
    inversion H3 as [Hc|err Hc|buf err Hc Hk|buf key err Hc Hk|buf key st err Hc Hk Hst
                    |buf key st txt Hc Hk Hst|buf key st Hc Hk Hst];
      subst tr3; split_in Hin3; try discriminate;
      injection Hin3 as <- <- <- <-;
      (split; [exact Hc|]); (split; [exact (Hkey Hc)|]); (split; [reflexivity|]);
      eapply Hshape; try reflexivity; simpl; lia. }
  destruct Hrun as [ | | |thrown tr1 _ H1|workDir tr1 thrown tr2 _ H1 H2
                   |workDir tr1 finalFile tr2 thrown tr3 _ H1 H2 H3
                   |workDir tr1 finalFile tr2 url' size tr3 _ H1 H2 H3];
    try (destruct Hin; fail).
  - apply prepare_preparation in H1. split_in Hin; try discriminate. wrong_kind Hin.
  - apply prepare_preparation in H1. apply encode_execs in H2.
    split_in Hin; try discriminate; wrong_kind Hin.
  - pose proof (prepare_preparation _ _ _ _ H1) as P1.
    pose proof (encode_execs _ _ _ _ _ H2) as P2.
    split_in Hin; try discriminate; try wrong_kind Hin.
    eapply (Hcase workDir tr1 finalFile tr2 _ tr3 [EvLog thrown]); eauto.
  - pose proof (prepare_preparation _ _ _ _ H1) as P1.
    pose proof (encode_execs _ _ _ _ _ H2) as P2.
    split_in Hin; try discriminate; try wrong_kind Hin.
    eapply (Hcase workDir tr1 finalFile tr2 _ tr3 []); eauto.
    now rewrite !app_nil_r.
Qed.

End Confinement.

(** ** The application *)

Section Application.

Context {rt : Runtime}.
Variable w : world.

Lemma cors_sets (method : string) :
  fst (cors method ∅) !! "Access-Control-Allow-Origin" = Some "*"
  /\ fst (cors method ∅) !! "Access-Control-Allow-Headers"
     = Some "Content-Type, Authorization, X-Auth-Token"
  /\ fst (cors method ∅) !! "Access-Control-Allow-Methods" = Some "POST, OPTIONS".
Proof.
  unfold cors, setHeader. cbn [fst]. split; [|split].
  - rewrite !lookup_insert_ne by discriminate. apply lookup_insert_eq.
  - rewrite lookup_insert_ne by discriminate. apply lookup_insert_eq.
  - apply lookup_insert_eq.
Qed.

Lemma app_headers (e : env) (method : string) (matched : option route) (req : request) :
  served_headers (snd (app_handle w e method matched (Some req))) = fst (cors method ∅).
Proof.
  unfold app_handle, cors. destruct (String.eqb method "OPTIONS"); [reflexivity|].
  destruct matched as [[|]|]; try reflexivity.
  now destruct (create_video w e req).
Qed.

(** X17.  Every answer to a request that the body parser hands on carries
    the three CORS headers, the 401, 400 and 500 of the handler included,
    and so does such a request that matches no route when it is left to
    the framework; a request on which the parser raises an error is
    answered by the framework without any of them.  A preflight (method
    OPTIONS) is answered 204 by the middleware, whatever route it matches.
    Only a request that is no preflight, is routed to [/create-video] and
    passes the token check and the validation calls anything outside; the
    liveness route answers 200 with the text OK without any check. *)
Theorem app_answers (e : env) (method : string) (matched : option route) (req : request) :
  served_headers (snd (app_handle w e method matched (Some req))) !! "Access-Control-Allow-Origin"
  = Some "*"
  /\ served_headers (snd (app_handle w e method matched (Some req)))
       !! "Access-Control-Allow-Headers"
     = Some "Content-Type, Authorization, X-Auth-Token"
  /\ served_headers (snd (app_handle w e method matched (Some req)))
       !! "Access-Control-Allow-Methods"
     = Some "POST, OPTIONS"
  /\ (forall name, served_headers (snd (app_handle w e method matched None)) !! name = None)
  /\ fst (app_handle w e method matched None) = []
  /\ (method = "OPTIONS" ->
      exists headers,
        app_handle w e method matched (Some req) = ([], Sent (mkHttp headers 204 StatusText)))
  /\ (fst (app_handle w e method matched (Some req)) <> [] ->
      method <> "OPTIONS" /\ matched = Some CreateVideo /\ accepted e req = true)
  /\ (method <> "OPTIONS" -> matched = Some CreateVideo ->
      exists headers,
        app_handle w e method matched (Some req)
        = (fst (create_video w e req),
           Sent (mkHttp headers (status (snd (create_video w e req)))
                        (Json (body (snd (create_video w e req)))))))
  /\ (method <> "OPTIONS" -> matched = Some Root ->
      exists headers,
        app_handle w e method matched (Some req) = ([], Sent (mkHttp headers 200 (Text "OK")))).
Proof.
  rewrite app_headers.
  destruct (cors_sets method) as (H1 & H2 & H3).
  split; [exact H1|]. split; [exact H2|]. split; [exact H3|].
  split; [intros name; apply lookup_empty|]. split; [reflexivity|].
  unfold app_handle, cors.
  destruct (String.eqb_spec method "OPTIONS") as [->|Hm].
  - split; [intros _; eexists; reflexivity|].
    split; [intros K; now destruct K|]. split; intros K; now destruct K.
  - split; [intros K; contradiction|]. split; [|split].
    + destruct matched as [[|]|]; try (intros K; now destruct K).
      pose proof (create_video_run w e req) as Hrun.
      destruct (create_video w e req) as [tr resp]. cbn [fst snd] in *.
      intros Htr. split; [exact Hm|]. split; [reflexivity|].
      destruct Hrun; try contradiction; assumption.
    + intros _ ->. destruct (create_video w e req) as [tr resp]. eexists. reflexivity.
    + intros _ ->. eexists. reflexivity.
Qed.

End Application.

(** ** How far the downloads of a request go *)

Lemma image_jobs_app (workDir : string) (a b : list value) (i : nat) :
  image_jobs workDir (a ++ b) i
  = image_jobs workDir a i ++ image_jobs workDir b (i + length a).
Proof.
  revert i. induction a as [|x a IH]; intros i; simpl.
  - now rewrite Nat.add_0_r.
  - rewrite IH. do 3 f_equal. lia.
Qed.

Lemma download_failure_throws {rt : Runtime} (url : value) (out : string)
      (failure : list event) :
  download_failure url out failure ->
  exists before ev err,
    failure = before ++ [ev] /\ is_preparation ev = true
    /\ forall pre, thrown_by pre ev = Some err.
Proof.
  destruct 1 as [e|st Hst|st e Hst|st buf e Hst].
  - exists [], (EvFetch url (inl e)), e. auto.
  - exists [], (EvFetch url (inr st)), (download_error url st).
    repeat split. intros pre. cbn [thrown_by]. now rewrite Hst.
  - exists [EvFetch url (inr st)], (EvArrayBuffer (inl e)), e. auto.
  - exists [EvFetch url (inr st); EvArrayBuffer (inr buf)], (EvWriteFile out buf (Some e)), e.
    auto.
Qed.

Section Progress.

Context {rt : Runtime}.
Variable w : world.

Lemma unreadable_entry (img : value) (key : string) (e : error) :
  get_member img key = Throw e -> ~ readable img.
Proof. intros H (Hn & Hu & _). destruct img; try discriminate; congruence. Qed.

(** The loop of step 1 downloads the entries in turn, and stops only
    at an entry that it cannot read or at a download that fails. *)
Lemma download_images_stops (workDir : string) (images : list value) (i : nat)
      (acc : list local_asset) (tr : list event) :
  (exists assets dl,
      download_images w workDir images i acc tr = (Ok (acc ++ assets), tr ++ dl)
      /\ assets_of workDir images i assets
      /\ downloaded (image_jobs workDir images i) dl
      /\ Forall readable images)
  \/ (exists e before img after dl stop,
         images = before ++ img :: after
         /\ Forall readable before
         /\ downloaded (image_jobs workDir before i) dl
         /\ download_images w workDir images i acc tr = (Throw e, tr ++ dl ++ stop)
         /\ ((~ readable img /\ stop = [])
             \/ (readable img
                 /\ download_failure (get_prop img "url")
                                     (img_file workDir (i + length before)) stop))).
Proof.
  revert i acc tr. induction images as [|img rest IH]; intros i acc tr.
  - left. exists [], []. rewrite !app_nil_r. repeat split; constructor.
  - cbn [download_images].
    assert (Hstop : forall e, ~ readable img ->
               exists e' before img' after dl stop,
                 img :: rest = before ++ img' :: after
                 /\ Forall readable before
                 /\ downloaded (image_jobs workDir before i) dl
                 /\ (Throw e : result (list local_asset), tr) = (Throw e', tr ++ dl ++ stop)
                 /\ ((~ readable img' /\ stop = [])
                     \/ (readable img'
                         /\ download_failure (get_prop img' "url")
                                             (img_file workDir (i + length before)) stop))).
    { intros e Hno. exists e, [], img, rest, [], []. rewrite !app_nil_r.
      split; [reflexivity|]. split; [constructor|]. split; [constructor|].
      split; [reflexivity|]. left. now split. }
    unfold bind, lift.
    destruct (get_member img "url") as [imgUrl|e] eqn:Hurl; cbv beta iota.
    2: { right. apply Hstop. eapply unreadable_entry, Hurl. }
    assert (Hobj : img <> VNull /\ img <> VUndefined)
      by (split; intros ->; discriminate).
    assert (imgUrl = get_prop img "url") as ->.
    { destruct img; cbn in Hurl; first [discriminate | injection Hurl as <-; reflexivity]. }
    destruct (get_member img "duration") as [d|e] eqn:Hd; cbv beta iota.
    2: { right. apply Hstop. eapply unreadable_entry, Hd. }
    assert (d = get_prop img "duration") as ->.
    { destruct img; cbn in Hd; first [discriminate | injection Hd as <-; reflexivity]. }
    destruct (duration_of (get_prop img "duration")) as [dur|e] eqn:Hdur; cbv beta iota.
    2: { right. apply Hstop. intros (_ & _ & dur & Hok). congruence. }
    assert (Hread : readable img).
    { destruct Hobj as [Hn Hu]. split; [exact Hn|]. split; [exact Hu|]. now exists dur. }
    destruct (downloadToFile_run w (get_prop img "url") (img_file workDir i) tr)
      as [(st & buf & Hok & ->)|(e & new & -> & Hfail)]; cbv beta iota.
    + destruct (IH (S i) (acc ++ [mkAsset (img_file workDir i) dur])
                  (tr ++ [EvFetch (get_prop img "url") (inr st); EvArrayBuffer (inr buf);
                          EvWriteFile (img_file workDir i) buf None]))
        as [(assets & dl & -> & Hassets & Hdl & Hall)
           |(e & before & img' & after & dl & stop & -> & Hbefore & Hdl & -> & Hwhy)].
      * left. exists (mkAsset (img_file workDir i) dur :: assets). eexists.
        rewrite <- !app_assoc. cbn [app]. split; [reflexivity|].
        split; [now constructor|]. split; [now constructor|]. now constructor.
      * right. exists e, (img :: before), img', after. eexists. exists stop.
        split; [reflexivity|]. split; [now constructor|].
        split; [cbn [image_jobs]; constructor; [exact Hok | exact Hdl]|].
        split; [rewrite <- !app_assoc; reflexivity|].
        cbn [length]. now rewrite Nat.add_succ_r.
    + right. exists e, [], img, rest, [], new. cbn [app length]. rewrite Nat.add_0_r.
      split; [reflexivity|]. split; [constructor|]. split; [constructor|].
      split; [reflexivity|]. right. now split.
Qed.

(** Steps 0 to 3 of a request with at least one image: the clock, the
    workspace, then the downloads as far as they go, then the list. *)
Lemma prepare_stops (images : list value) (audio : value) :
  images <> [] ->
  exists r rest,
    snd (prepare w images audio [])
    = EvNow (w_now w []) :: EvMkdir (workDir_of (w_now w [])) r :: rest
    /\ match r with
       | Some err => rest = [] /\ fst (prepare w images audio []) = Throw err
       | None =>
           exists done pending dl stop,
             jobs (workDir_of (w_now w [])) images audio = done ++ pending
             /\ downloaded done dl
             /\ rest = dl ++ stop
             /\ ((pending = [] /\ Forall readable images
                  /\ exists assets content r',
                      assets_of (workDir_of (w_now w [])) images 0 assets
                      /\ concatContent assets = Ok content
                      /\ stop = [EvWriteFile (path_join (workDir_of (w_now w [])) "list.txt")
                                             (list_byte_of_string content) r']
                      /\ fst (prepare w images audio [])
                         = match r' with
                           | Some err => Throw err
                           | None => Ok (workDir_of (w_now w []))
                           end)
                 \/ (exists url out more,
                        pending = (url, out) :: more
                        /\ download_failure url out stop
                        /\ exists err, fst (prepare w images audio []) = Throw err)
                 \/ (exists img,
                        images !! length done = Some img
                        /\ ~ readable img /\ stop = []
                        /\ exists err, fst (prepare w images audio []) = Throw err))
       end.
Proof.
  intros Hne.
  unfold prepare, bind, lift, now, mkdir. cbv beta iota zeta. cbn [app].
  set (t := w_now w []). set (wd := workDir_of t).
  destruct (w_mkdir w [EvNow t] wd) as [e|] eqn:Hmk; cbn [of_option app]; cbv beta iota.
  { exists (Some e), []. cbn [fst snd]. auto. }
  exists None.
  destruct (download_images_stops wd images 0 [] [EvNow t; EvMkdir wd None])
    as [(assets & dl & -> & Hassets & Hdl & Hall)
       |(e & before & img & after & dl & stop & Himgs & Hbefore & Hdl & -> & Hwhy)];
    cbv beta iota.
  2: { cbn [fst snd app]. exists (dl ++ stop). split; [reflexivity|].
       exists (image_jobs wd before 0),
         (image_jobs wd (img :: after) (length before)
            ++ [(audio, path_join wd "audio.mp3")]), dl, stop.
       split; [unfold jobs; now rewrite Himgs, image_jobs_app, <- app_assoc|].
       split; [exact Hdl|]. split; [reflexivity|]. right.
       destruct Hwhy as [[Hno ->]|[Hyes Hfail]].
       - right. exists img. rewrite image_jobs_length, Himgs.
         split; [apply list_lookup_middle; reflexivity|]. eauto.
       - left. eexists _, _, _. split; [reflexivity|]. split; [exact Hfail|]. eauto. }
  cbn [app].
  destruct (downloadToFile_run w audio (path_join wd "audio.mp3")
              (EvNow t :: EvMkdir wd None :: dl))
    as [(st & buf & Hok & ->)|(e & new & -> & Hfail)]; cbv beta iota.
  2: { cbn [fst snd app]. exists (dl ++ new). split; [reflexivity|].
       exists (image_jobs wd images 0), [(audio, path_join wd "audio.mp3")], dl, new.
       split; [reflexivity|]. split; [exact Hdl|]. split; [reflexivity|].
       right. left. exists audio, (path_join wd "audio.mp3"), []. eauto. }
  assert (Hjobs : downloaded (jobs wd images audio)
                    (dl ++ [EvFetch audio (inr st); EvArrayBuffer (inr buf);
                            EvWriteFile (path_join wd "audio.mp3") buf None])).
  { apply downloaded_app; [exact Hdl|]. constructor; [exact Hok | constructor]. }
  assert (Hcontent : exists content, concatContent assets = Ok content).
  { unfold concatContent. destruct (last assets) as [l|] eqn:Hlast; [eauto|].
    apply last_None in Hlast. subst assets. inversion Hassets; subst. contradiction. }
  destruct Hcontent as [content Hcontent]. rewrite Hcontent. cbv beta iota.
  unfold writeFile, ret. cbv beta zeta.
  match goal with
  | |- context [w_writeFile w ?h ?f ?d] => generalize (w_writeFile w h f d)
  end.
  intros r'.
  exists ((dl ++ [EvFetch audio (inr st); EvArrayBuffer (inr buf);
                  EvWriteFile (path_join wd "audio.mp3") buf None])
            ++ [EvWriteFile (path_join wd "list.txt") (list_byte_of_string content) r']).
  split; [destruct r'; cbn [of_option fst snd app]; now rewrite <- !app_assoc|].
  eexists (jobs wd images audio), [], _, _. rewrite app_nil_r.
  split; [reflexivity|]. split; [exact Hjobs|]. split; [reflexivity|].
  left. split; [reflexivity|]. split; [exact Hall|].
  exists assets, content, r'. split; [exact Hassets|]. split; [exact Hcontent|].
  split; [reflexivity|]. destruct r'; reflexivity.
Qed.

(** What a request that passes the checks does after steps 0 to 3. *)
Lemma run_of_prepare (e : env) (req : request) :
  accepted e req = true ->
  match prepare w (elements (request_images req)) (request_audio req) [] with
  | (Throw err, tr1) => create_video w e req = (tr1 ++ [EvLog err], failure_response err)
  | (Ok workDir, tr1) =>
      exists rest,
        fst (create_video w e req) = tr1 ++ rest
        /\ Forall (fun ev => is_preparation ev = false) rest
  end.
Proof.
  intros Hacc. unfold accepted in Hacc.
  destruct (unauthorized e req) eqn:Hauth; [discriminate|].
  destruct (rejected_images req) eqn:Hri; [discriminate|].
  destruct (rejected_audio req) eqn:Hra; [discriminate|].
  unfold create_video, try_block. rewrite Hauth. cbv zeta. name_fields req.
  change (negb (isArray (request_images req))
          || Nat.eqb (length (elements (request_images req))) 0)
    with (rejected_images req).
  change (negb (truthy (request_audio req))) with (rejected_audio req).
  rewrite Hri, Hra. unfold bind, ret.
  destruct (prepare w (elements (request_images req)) (request_audio req) [])
    as [[workDir|err] tr1]; [|reflexivity].
  destruct (encode_run w workDir (request_width req) (request_height req) tr1)
    as (tr2 & Htr2 & H2).
  apply encode_execs in H2.
  assert (P2 : Forall (fun ev => is_preparation ev = false) tr2).
  { eapply Forall_impl; [exact H2|]. intros ev Hev. destruct ev; try discriminate; reflexivity. }
  destruct (encode w workDir (request_width req) (request_height req) tr1)
    as [[finalFile|err] tr12]; cbn [fst snd] in Htr2 |- *; subst tr12.
  2: { exists (tr2 ++ [EvLog err]). rewrite <- app_assoc. split; [reflexivity|].
       apply Forall_app. split; [exact P2 | repeat constructor]. }
  destruct (publish_run w e finalFile (request_outputPath req) (tr1 ++ tr2))
    as (tr3 & Htr3 & H3).
  apply publish_events in H3.
  assert (P3 : Forall (fun ev => is_preparation ev = false) tr3).
  { eapply Forall_impl; [exact H3|]. now intros ev [Hev _]. }
  destruct (publish w e finalFile (request_outputPath req) (tr1 ++ tr2))
    as [[up|err] tr123]; cbn [fst snd] in Htr3 |- *; subst tr123.
  - exists (tr2 ++ tr3). rewrite <- app_assoc. split; [reflexivity|].
    apply Forall_app. now split.
  - exists (tr2 ++ tr3 ++ [EvLog err]). rewrite <- !app_assoc. split; [reflexivity|].
    apply Forall_app. split; [exact P2|]. apply Forall_app. split; [exact P3|].
    repeat constructor.
Qed.

(** A request that passes the checks reads the clock, creates its
    workspace and downloads job after job; it stops before the list is
    written only when the workspace cannot be created, at an entry that it
    cannot read, or at a download that fails. *)
Lemma fetch_progress (e : env) (req : request) :
  accepted e req = true ->
  exists r rest,
    fst (create_video w e req)
    = EvNow (w_now w []) :: EvMkdir (workDir_of (w_now w [])) r :: rest
    /\ match r with
       | Some err =>
           rest = [EvLog err] /\ snd (create_video w e req) = failure_response err
       | None =>
           exists done pending dl stop,
             jobs (workDir_of (w_now w [])) (elements (request_images req))
                  (request_audio req) = done ++ pending
             /\ downloaded done dl
             /\ rest = dl ++ stop
             /\ ((pending = [] /\ Forall readable (elements (request_images req))
                  /\ exists assets content r' after,
                      assets_of (workDir_of (w_now w [])) (elements (request_images req))
                                0 assets
                      /\ concatContent assets = Ok content
                      /\ stop = EvWriteFile (path_join (workDir_of (w_now w [])) "list.txt")
                                            (list_byte_of_string content) r' :: after
                      /\ Forall (fun ev => is_preparation ev = false) after
                      /\ forall err, r' = Some err ->
                                     after = [EvLog err]
                                     /\ snd (create_video w e req) = failure_response err)
                 \/ (exists url out more failure err,
                        pending = (url, out) :: more
                        /\ download_failure url out failure
                        /\ stop = failure ++ [EvLog err]
                        /\ snd (create_video w e req) = failure_response err)
                 \/ (exists img err,
                        elements (request_images req) !! length done = Some img
                        /\ ~ readable img
                        /\ stop = [EvLog err]
                        /\ snd (create_video w e req) = failure_response err))
       end.
Proof.
  intros Hacc.
  assert (Hne : elements (request_images req) <> []).
  { unfold accepted, rejected_images in Hacc.
    destruct (elements (request_images req)); [|discriminate].
    rewrite orb_true_r in Hacc. destruct (unauthorized e req); discriminate. }
  pose proof (run_of_prepare e req Hacc) as Hrun.
  destruct (prepare_stops (elements (request_images req)) (request_audio req) Hne)
    as (r & rest & Htr & Hcase).
  destruct (prepare w (elements (request_images req)) (request_audio req) [])
    as [res tr1]. cbn [fst snd] in *. subst tr1.
  destruct r as [err|].
  - destruct Hcase as [-> ->]. rewrite Hrun. cbn [fst snd].
    exists (Some err), [EvLog err]. auto.
  - destruct Hcase as (done & pending & dl & stop & Hjobs & Hdl & -> & Hwhy).
    exists None.
    destruct Hwhy as [(-> & Hall & assets & content & r' & Hassets & Hcontent & -> & Hres)
                     |[(url & out & more & -> & Hfail & err & ->)
                      |(img & Himg & Hno & -> & err & ->)]].
    + destruct r' as [err|]; subst res.
      * rewrite Hrun. cbn [fst snd]. eexists. rewrite <- !app_comm_cons, <- !app_assoc.
        split; [reflexivity|].
        exists done, [], dl. eexists. split; [exact Hjobs|]. split; [exact Hdl|].
        split; [reflexivity|]. left. split; [reflexivity|]. split; [exact Hall|].
        exists assets, content, (Some err), [EvLog err].
        split; [exact Hassets|]. split; [exact Hcontent|]. split; [reflexivity|].
        split; [repeat constructor|]. intros err' K. injection K as <-. auto.
      * destruct Hrun as (after & -> & Hafter).
        eexists. rewrite <- !app_comm_cons, <- !app_assoc. split; [reflexivity|].
        exists done, [], dl. eexists. split; [exact Hjobs|]. split; [exact Hdl|].
        split; [reflexivity|]. left. split; [reflexivity|]. split; [exact Hall|].
        exists assets, content, None, after.
        split; [exact Hassets|]. split; [exact Hcontent|]. split; [reflexivity|].
        split; [exact Hafter | discriminate].
    + rewrite Hrun. cbn [fst snd]. eexists. rewrite <- !app_comm_cons, <- !app_assoc.
      split; [reflexivity|].
      exists done, ((url, out) :: more), dl. eexists. split; [exact Hjobs|].
      split; [exact Hdl|]. split; [reflexivity|]. right. left.
      exists url, out, more, stop, err. auto.
    + rewrite Hrun. cbn [fst snd]. eexists. rewrite <- !app_comm_cons, <- !app_assoc.
      split; [reflexivity|].
      exists done, pending, dl. eexists. split; [exact Hjobs|].
      split; [exact Hdl|]. split; [reflexivity|]. right. right.
      exists img, err. auto.
Qed.

End Progress.

Section Downloads.

Context {rt : Runtime}.
Variable w : world.


End Downloads.

(** ** The durations of a request *)

Lemma assets_of_entry {rt : Runtime} (workDir : string) (images : list value) (i : nat)
      (assets : list local_asset) (k : nat) (img : value) :
  assets_of workDir images i assets ->
  images !! k = Some img ->
  exists dur,
    assets !! k = Some (mkAsset (img_file workDir (i + k)) dur)
    /\ duration_of (get_prop img "duration") = Ok dur.
Proof.
  intros H. revert k. induction H as [i|img0 rest i dur l Hd _ IH]; intros k Hk.
  - discriminate.
  - destruct k as [|k]; cbn in Hk.
    + injection Hk as <-. exists dur. rewrite Nat.add_0_r. now split.
    + destruct (IH k Hk) as (d & Ha & Hd'). exists d.
      rewrite Nat.add_succ_r. now split.
Qed.

Lemma entry_lines_at {rt : Runtime} (assets : list local_asset) (k : nat) (a : local_asset) :
  assets !! k = Some a ->
  exists pre post,
    flat_map entry_lines assets = pre ++ entry_lines a ++ post /\ length pre = 2 * k.
Proof.
  revert k. induction assets as [|a0 assets IH]; intros k H; [discriminate|].
  destruct k as [|k]; cbn in H.
  - injection H as ->. exists [], (flat_map entry_lines assets). now split.
  - destruct (IH k H) as (pre & post & E & L).
    exists (entry_lines a0 ++ pre), post. cbn [flat_map]. rewrite E, <- app_assoc.
    split; [reflexivity|]. rewrite length_app. cbn. lia.
Qed.

(** What [Number(d || 3)] gives when it does not throw. *)
Lemma duration_of_facts {rt : Runtime} (d : value) (dur : number) :
  duration_of d = Ok dur ->
  (truthy d = false -> dur = num_of_Z 3)
  /\ (truthy d = true -> ToNumber d = Ok dur)
  /\ (forall n, d = VNumber n -> num_falsy n = false -> dur = n)
  /\ (forall s, d = VString s -> s <> EmptyString -> dur = StringToNumber s)
  /\ (forall fields, d = VObject fields -> has_own fields "toString" = false /\ dur = NaN).
Proof.
  unfold duration_of, js_or. intros H.
  split; [intros Hf; rewrite Hf in H; now injection H as <-|].
  split; [intros Ht; now rewrite Ht in H|].
  split; [intros n -> Hn; cbn in H; rewrite Hn in H; now injection H as <-|].
  split.
  - intros s -> Hs. cbn in H. apply String.eqb_neq in Hs. rewrite Hs in H.
    now injection H as <-.
  - intros fields ->. cbn in H. destruct (has_own fields "toString"); [discriminate|].
    now injection H as <-.
Qed.

(** [Number] does not throw on a duration that is no array and no object,
    nor on an object without an own [toString] property; it throws on an
    object that has one. *)
Lemma duration_of_total {rt : Runtime} (d : value) :
  match d with
  | VArray _ => True
  | VObject fields =>
      if has_own fields "toString" then duration_of d = Throw not_primitive
      else duration_of d = Ok NaN
  | _ => exists dur, duration_of d = Ok dur
  end.
Proof.
  unfold duration_of, js_or.
  destruct d as [| |b|n|s|l|fields]; cbn; try exact I; eauto.
  - destruct b; eauto.
  - destruct (num_falsy n); eauto.
  - destruct (String.eqb s EmptyString); eauto.
  - destruct (has_own fields "toString"); reflexivity.
Qed.

Section Durations.

Context {rt : Runtime}.
Variable w : world.

(** An engine prints every number on one line. *)
Hypothesis one_line : forall n, no_newline (NumberToString n) = true.


End Durations.

(** * Examples *)

(** Finds an event in a computed trace. *)
Ltac in_trace := vm_compute; repeat first [left; reflexivity | right].

(** The sample request in a world where everything succeeds. *)
Example sample_run_response :
  snd (create_video (happy_world 0 [] sample_artifact) sample_env sample_request)
  = mkResponse 200
      (VObject [("success", VBool true);
                ("url", VString "https://proj.supabase.co/storage/v1/object/public/videos/stories%2Foutput.mp4");
                ("size", VNumber (num_of_Z 4));
                ("frames", VNumber (num_of_Z 2));
                ("fps", VNumber (num_of_Z 25));
                ("width", VNumber (num_of_Z 1920));
                ("height", VNumber (num_of_Z 1080))]).
Proof. vm_compute. reflexivity. Qed.

(** The list written for the sample request: the second image asks for a
    duration of zero and is listed with 3. *)
Example sample_run_list :
  In (EvWriteFile "/tmp/work-0/list.txt"
        (list_byte_of_string
           ("ffconcat version 1.0" +:+ nl
              +:+ "file /tmp/work-0/img_000.png" +:+ nl +:+ "duration 2" +:+ nl
              +:+ "file /tmp/work-0/img_001.png" +:+ nl +:+ "duration 3" +:+ nl
              +:+ "file /tmp/work-0/img_001.png" +:+ nl))
        None)
     (fst (create_video (happy_world 0 [] sample_artifact) sample_env sample_request)).
Proof. in_trace. Qed.

(** A download answered 404 ends the sample request: one fetch, the log
    of the error, no encoder, and a 500 that names the address and the
    status. *)
Example failed_download_run :
  create_video (failing_fetch_world 0 404) sample_env sample_request
  = ([EvNow 0; EvMkdir "/tmp/work-0" None;
      EvFetch (VString "http://cdn/a.png") (inr 404);
      EvLog (new_Error "Download failed: http://cdn/a.png -> 404")],
     mkResponse 500
       (VObject [("error", VString "Download failed: http://cdn/a.png -> 404");
                 ("details", VString EmptyString)])).
Proof. vm_compute. reflexivity. Qed.

Lemma demo_one_line (n : number) : no_newline (NumberToString n) = true.
Proof.
  destruct n as [s|s| |s m e]; try destruct s; try reflexivity;
    cbn [NumberToString demo_runtime demo_NumberToString];
    rewrite no_newline_append;
    repeat match goal with |- context [if ?c then _ else _] => destruct c end;
    rewrite ?no_newline_append, ?no_newline_Z_to_string; reflexivity.
Qed.

(** X1 on the sample request. *)
Lemma timeline_of_request_witness :
  In (EvExec sample_render_cmd (mkExec None EmptyString EmptyString))
     (fst (create_video (happy_world 0 [] sample_artifact) sample_env sample_request))
  /\ exists t assets content final,
      In (EvWriteFile (path_join (workDir_of t) "list.txt") (list_byte_of_string content) None)
         (fst (create_video (happy_world 0 [] sample_artifact) sample_env sample_request)) /\
      assets_of (workDir_of t) (elements (request_images sample_request)) 0 assets /\
      last assets = Some final /\
      directives content
      = Other "ffconcat version 1.0"
          :: flat_map entry_lines assets ++ [File (file final); Other EmptyString] /\
      length (List.filter is_File (directives content))
      = S (length (elements (request_images sample_request))).
Proof.
  assert (H1 : In (EvExec sample_render_cmd (mkExec None EmptyString EmptyString))
                 (fst (create_video (happy_world 0 [] sample_artifact)
                                    sample_env sample_request))) by in_trace.
  split; [exact H1|].
  exact (timeline_of_request _ demo_one_line sample_env sample_request _ _ H1).
Defined.

(** C1 on the two assets of a request that arrived at time 0. *)
Lemma concat_timeline_entries_witness :
  sample_assets <> []
  /\ Forall printable sample_assets
  /\ exists content final,
      concatContent sample_assets = Ok content /\
      last sample_assets = Some final /\
      directives content
      = Other "ffconcat version 1.0"
          :: flat_map entry_lines sample_assets ++ [File (file final); Other EmptyString] /\
      length (List.filter is_File (directives content)) = S (length sample_assets).
Proof.
  assert (H1 : sample_assets <> []) by discriminate.
  assert (H2 : Forall printable sample_assets) by (repeat constructor).
  split; [exact H1|]. split; [exact H2|].
  exact (concat_timeline_entries sample_assets H1 H2).
Defined.

(** C2, as stated, fails: with a token configured, a request without token
    and without images is answered 401, not 400. *)
Lemma token_check_precedes_validation :
  get_prop (req_body anonymous_request) "images" = VUndefined
  /\ create_video (happy_world 0 [] []) guarded_env anonymous_request
     = ([], mkResponse 401 (error_body "Unauthorized"))
  /\ status (snd (create_video (happy_world 0 [] []) guarded_env anonymous_request)) <> 400.
Proof. split; [reflexivity|]. split; [reflexivity|]. vm_compute. discriminate. Qed.

(** C2, amended, on the same request when no token is configured. *)
Lemma invalid_request_rejected_witness :
  unauthorized sample_env anonymous_request = false
  /\ (get_prop (req_body anonymous_request) "images" = VUndefined
      \/ isArray (get_prop (req_body anonymous_request) "images") = false
      \/ get_prop (req_body anonymous_request) "images" = VArray []
      \/ get_prop (req_body anonymous_request) "audio" = VUndefined)
  /\ (create_video (happy_world 0 [] []) sample_env anonymous_request
      = ([], mkResponse 400 (error_body "images[] required"))
      \/ create_video (happy_world 0 [] []) sample_env anonymous_request
         = ([], mkResponse 400 (error_body "audio url required"))).
Proof.
  assert (H1 : unauthorized sample_env anonymous_request = false) by reflexivity.
  assert (H2 : get_prop (req_body anonymous_request) "images" = VUndefined
               \/ isArray (get_prop (req_body anonymous_request) "images") = false
               \/ get_prop (req_body anonymous_request) "images" = VArray []
               \/ get_prop (req_body anonymous_request) "audio" = VUndefined)
    by (left; reflexivity).
  split; [exact H1|]. split; [exact H2|].
  exact (invalid_request_rejected (happy_world 0 [] []) sample_env anonymous_request H1 H2).
Defined.

(** C3 on the sample request when the first encoder pass fails. *)
Lemma encoder_failure_response_witness :
  In (EvExec sample_render_cmd sample_failure)
     (fst (create_video (failing_encoder_world 0 [] "Command failed"
                           "list.txt: Invalid data found") sample_env sample_request))
  /\ exec_err sample_failure = Some (new_Error "Command failed")
  /\ snd (create_video (failing_encoder_world 0 [] "Command failed"
                          "list.txt: Invalid data found") sample_env sample_request)
     = mkResponse 500
         (VObject [("error", VString "Command failed");
                   ("details", VString "list.txt: Invalid data found")]).
Proof.
  assert (H1 : In (EvExec sample_render_cmd sample_failure)
                 (fst (create_video (failing_encoder_world 0 [] "Command failed"
                                       "list.txt: Invalid data found")
                                    sample_env sample_request))) by in_trace.
  assert (H2 : exec_err sample_failure = Some (new_Error "Command failed")) by reflexivity.
  split; [exact H1|]. split; [exact H2|].
  exact (proj1 (encoder_failure_response _ sample_env sample_request _ _ _ H1 H2)).
Defined.

(** C5 on the sample request in a world where everything succeeds. *)
Lemma success_response_witness :
  In (EvUpload sample_upload_url (upload_headers "service-key") sample_artifact (inr 200))
     (fst (create_video (happy_world 0 [] sample_artifact) sample_env sample_request))
  /\ res_ok 200 = true
  /\ exists key,
      ToString (request_outputPath sample_request) = Ok key /\
      sample_upload_url
      = store_base sample_env +:+ "/storage/v1/object/"
          +:+ encodeURIComponent (store_bucket sample_env)
          +:+ "/" +:+ encodeURIComponent key /\
      snd (create_video (happy_world 0 [] sample_artifact) sample_env sample_request)
      = mkResponse 200
          (VObject [("success", VBool true);
                    ("url", VString (store_base sample_env +:+ "/storage/v1/object/public/"
                                       +:+ encodeURIComponent (store_bucket sample_env)
                                       +:+ "/" +:+ encodeURIComponent key));
                    ("size", VNumber (num_of_nat (length sample_artifact)));
                    ("frames",
                     VNumber (num_of_nat (length (elements (request_images sample_request)))));
                    ("fps", request_fps sample_request);
                    ("width", request_width sample_request);
                    ("height", request_height sample_request)]).
Proof.
  assert (H1 : In (EvUpload sample_upload_url (upload_headers "service-key")
                            sample_artifact (inr 200))
                 (fst (create_video (happy_world 0 [] sample_artifact)
                                    sample_env sample_request))) by in_trace.
  assert (H2 : res_ok 200 = true) by reflexivity.
  split; [exact H1|]. split; [exact H2|].
  exact (success_response _ sample_env sample_request _ _ _ _ H1 H2).
Defined.

(** C8 on the sample request: its two encoder passes complete with the
    sample configuration, and with the storage credential unset the
    response is the configuration error. *)
Lemma missing_storage_configuration_witness :
  configured unconfigured_env = false
  /\ env_AUTH_TOKEN sample_env = env_AUTH_TOKEN unconfigured_env
  /\ List.filter is_exec
       (fst (create_video (happy_world 0 [] sample_artifact) sample_env sample_request))
     = [EvExec sample_render_cmd quiet_success; EvExec sample_mux_cmd quiet_success]
  /\ exec_err quiet_success = None
  /\ snd (create_video (happy_world 0 [] sample_artifact) unconfigured_env sample_request)
     = mkResponse 500
         (VObject [("error", VString "Missing SUPABASE_URL or SUPABASE_SERVICE_ROLE_KEY");
                   ("details", VString EmptyString)]).
Proof.
  assert (H1 : configured unconfigured_env = false) by reflexivity.
  assert (H2 : env_AUTH_TOKEN sample_env = env_AUTH_TOKEN unconfigured_env) by reflexivity.
  assert (H3 : List.filter is_exec
                 (fst (create_video (happy_world 0 [] sample_artifact)
                                    sample_env sample_request))
               = [EvExec sample_render_cmd quiet_success;
                  EvExec sample_mux_cmd quiet_success])
    by (vm_compute; reflexivity).
  assert (H4 : exec_err quiet_success = None) by reflexivity.
  split; [exact H1|]. split; [exact H2|]. split; [exact H3|]. split; [exact H4|].
  exact (proj2 (proj2 (proj2 (missing_storage_configuration
                                (happy_world 0 [] sample_artifact)
                                unconfigured_env sample_request H1)
                             sample_env _ _ _ _ H2 H3 H4))).
Defined.

(** Without storage credential the sample request still runs both encoder
    passes, and then fails with the configuration error. *)
Example unconfigured_run :
  create_video (happy_world 0 [] sample_artifact) unconfigured_env sample_request
  = (List.filter (fun ev => is_preparation ev || is_exec ev)
       (fst (create_video (happy_world 0 [] sample_artifact) sample_env sample_request))
       ++ [EvLog missing_configuration],
     mkResponse 500
       (VObject [("error", VString "Missing SUPABASE_URL or SUPABASE_SERVICE_ROLE_KEY");
                 ("details", VString EmptyString)])).
Proof. vm_compute. reflexivity. Qed.

(** C10 on the sample request, which publishes to the default path. *)
Lemma storage_urls_agree_witness :
  In (EvUpload sample_upload_url (upload_headers "service-key") sample_artifact (inr 200))
     (fst (create_video (happy_world 0 [] sample_artifact) sample_env sample_request))
  /\ get_prop (body (snd (create_video (happy_world 0 [] sample_artifact)
                                       sample_env sample_request))) "url"
     = VString "https://proj.supabase.co/storage/v1/object/public/videos/stories%2Foutput.mp4".
Proof.
  assert (H1 : In (EvUpload sample_upload_url (upload_headers "service-key")
                            sample_artifact (inr 200))
                 (fst (create_video (happy_world 0 [] sample_artifact)
                                    sample_env sample_request))) by in_trace.
  split; [exact H1|].
  destruct (storage_urls_agree _ sample_env sample_request _ _ _ _ H1)
    as (key & Hkey & _ & Hurl & _).
  injection Hkey as <-. exact (Hurl eq_refl).
Defined.

(** C6 on two requests that publish the same bytes to the default path of
    an empty store, one at time 0, one at time 1. *)
Lemma publishing_twice_same_url_witness :
  request_outputPath sample_request = request_outputPath repeat_request
  /\ In (EvUpload sample_upload_url (upload_headers "service-key") sample_artifact (inr 200))
        (fst (create_video (with_store (happy_world 0 [] sample_artifact) ∅)
                           sample_env sample_request))
  /\ In (EvUpload sample_upload_url (upload_headers "service-key") sample_artifact (inr 200))
        (fst (create_video
                (with_store (happy_world 1 [] sample_artifact)
                   (store_after ∅
                      (fst (create_video (with_store (happy_world 0 [] sample_artifact) ∅)
                                         sample_env sample_request))))
                sample_env repeat_request))
  /\ status (snd (create_video
                    (with_store (happy_world 1 [] sample_artifact)
                       (store_after ∅
                          (fst (create_video (with_store (happy_world 0 [] sample_artifact) ∅)
                                             sample_env sample_request))))
                    sample_env repeat_request)) = 200.
Proof.
  assert (H0 : request_outputPath sample_request = request_outputPath repeat_request)
    by reflexivity.
  assert (H1 : In (EvUpload sample_upload_url (upload_headers "service-key")
                            sample_artifact (inr 200))
                 (fst (create_video (with_store (happy_world 0 [] sample_artifact) ∅)
                                    sample_env sample_request))) by in_trace.
  assert (H2 : In (EvUpload sample_upload_url (upload_headers "service-key")
                            sample_artifact (inr 200))
                 (fst (create_video
                         (with_store (happy_world 1 [] sample_artifact)
                            (store_after ∅
                               (fst (create_video
                                       (with_store (happy_world 0 [] sample_artifact) ∅)
                                       sample_env sample_request))))
                         sample_env repeat_request))) by in_trace.
  split; [exact H0|]. split; [exact H1|]. split; [exact H2|].
  exact (proj1 (proj2 (proj2 (proj2 (proj2 (proj2 (proj2 (proj2
           (publishing_twice_same_url _ _ ∅ sample_env sample_request repeat_request
              _ _ _ _ _ _ _ _ H0 H1 H2))))))))).
Defined.

(** C4 on the code: two different requests that read the same millisecond
    on the clock are given the same workspace, and write their first image
    to the same file. *)
Theorem same_millisecond_same_workspace :
  sample_request <> other_request
  /\ In (EvMkdir "/tmp/work-1700000000000" None)
        (fst (create_video (happy_world 1700000000000 [] []) sample_env sample_request))
  /\ In (EvMkdir "/tmp/work-1700000000000" None)
        (fst (create_video (happy_world 1700000000000 [] []) sample_env other_request))
  /\ In (EvWriteFile "/tmp/work-1700000000000/img_000.png" [] None)
        (fst (create_video (happy_world 1700000000000 [] []) sample_env sample_request))
  /\ In (EvWriteFile "/tmp/work-1700000000000/img_000.png" [] None)
        (fst (create_video (happy_world 1700000000000 [] []) sample_env other_request)).
Proof.
  split; [discriminate|]. repeat split; in_trace.
Qed.

(** The sample request when the workspace cannot be created. *)
Example readonly_run :
  create_video (readonly_world 0) sample_env sample_request
  = ([EvNow 0;
      EvMkdir "/tmp/work-0" (Some (new_Error "EROFS: read-only file system, mkdir"));
      EvLog (new_Error "EROFS: read-only file system, mkdir")],
     mkResponse 500
       (VObject [("error", VString "EROFS: read-only file system, mkdir");
                 ("details", VString EmptyString)])).
Proof. vm_compute. reflexivity. Qed.

(** X4 on the sample request when the workspace cannot be created. *)
Lemma throwing_call_ends_request_witness :
  fst (create_video (readonly_world 0) sample_env sample_request)
  = [EvNow 0]
      ++ EvMkdir "/tmp/work-0" (Some (new_Error "EROFS: read-only file system, mkdir"))
      :: [EvLog (new_Error "EROFS: read-only file system, mkdir")]
  /\ thrown_by [EvNow 0]
       (EvMkdir "/tmp/work-0" (Some (new_Error "EROFS: read-only file system, mkdir")))
     = Some (new_Error "EROFS: read-only file system, mkdir")
  /\ snd (create_video (readonly_world 0) sample_env sample_request)
     = mkResponse 500
         (VObject [("error", VString "EROFS: read-only file system, mkdir");
                   ("details", VString EmptyString)]).
Proof.
  assert (H1 : fst (create_video (readonly_world 0) sample_env sample_request)
               = [EvNow 0]
                   ++ EvMkdir "/tmp/work-0"
                        (Some (new_Error "EROFS: read-only file system, mkdir"))
                   :: [EvLog (new_Error "EROFS: read-only file system, mkdir")])
    by (vm_compute; reflexivity).
  assert (H2 : thrown_by [EvNow 0]
                 (EvMkdir "/tmp/work-0"
                    (Some (new_Error "EROFS: read-only file system, mkdir")))
               = Some (new_Error "EROFS: read-only file system, mkdir")) by reflexivity.
  split; [exact H1|]. split; [exact H2|].
  exact (proj1 (proj2 (throwing_call_ends_request _ sample_env sample_request _ _ _ _
                         H1 H2))).
Defined.

(** X5 on the sample request when the first download is answered 404. *)
Lemma failed_download_message_witness :
  In (EvFetch (VString "http://cdn/a.png") (inr 404))
     (fst (create_video (failing_fetch_world 0 404) sample_env sample_request))
  /\ res_ok 404 = false
  /\ ToString (VString "http://cdn/a.png") = Ok "http://cdn/a.png"
  /\ snd (create_video (failing_fetch_world 0 404) sample_env sample_request)
     = mkResponse 500
         (VObject [("error", VString ("Download failed: " +:+ "http://cdn/a.png" +:+ " -> "
                                        +:+ nat_to_string 404));
                   ("details", VString EmptyString)]).
Proof.
  assert (H1 : In (EvFetch (VString "http://cdn/a.png") (inr 404))
                 (fst (create_video (failing_fetch_world 0 404) sample_env sample_request)))
    by in_trace.
  assert (H2 : res_ok 404 = false) by reflexivity.
  assert (H3 : ToString (VString "http://cdn/a.png") = Ok "http://cdn/a.png") by reflexivity.
  split; [exact H1|]. split; [exact H2|]. split; [exact H3|].
  exact (proj1 (failed_download_message _ sample_env sample_request _ _ _ H1 H2 H3)).
Defined.

(** X6 on the sample request when the store answers 403. *)
Lemma refused_upload_response_witness :
  In (EvUpload sample_upload_url (upload_headers "service-key") sample_artifact (inr 403))
     (fst (create_video (refusing_store_world 0 sample_artifact 403 "denied")
                        sample_env sample_request))
  /\ res_ok 403 = false
  /\ exists before r thrown,
      fst (create_video (refusing_store_world 0 sample_artifact 403 "denied")
                        sample_env sample_request)
      = before ++ [EvUpload sample_upload_url (upload_headers "service-key")
                            sample_artifact (inr 403);
                   EvText r; EvLog thrown]
      /\ snd (create_video (refusing_store_world 0 sample_artifact 403 "denied")
                           sample_env sample_request)
         = failure_response thrown
      /\ thrown = match r with
                  | inr txt => new_Error ("Supabase upload failed: " +:+ nat_to_string 403
                                            +:+ " " +:+ txt)
                  | inl err => err
                  end.
Proof.
  assert (H1 : In (EvUpload sample_upload_url (upload_headers "service-key")
                            sample_artifact (inr 403))
                 (fst (create_video (refusing_store_world 0 sample_artifact 403 "denied")
                                    sample_env sample_request))) by in_trace.
  assert (H2 : res_ok 403 = false) by reflexivity.
  split; [exact H1|]. split; [exact H2|].
  exact (refused_upload_response _ sample_env sample_request _ _ _ _ H1 H2).
Defined.

(** The response of that request. *)
Example refused_upload_run :
  snd (create_video (refusing_store_world 0 sample_artifact 403 "denied")
                    sample_env sample_request)
  = mkResponse 500
      (VObject [("error", VString "Supabase upload failed: 403 denied");
                ("details", VString EmptyString)]).
Proof. vm_compute. reflexivity. Qed.

(** X7 on the sample request in a world where everything succeeds: its
    trace ends with the two encoder passes, the read of the muxed file and
    the upload. *)
Lemma successful_run_witness :
  status (snd (create_video (happy_world 0 [] sample_artifact) sample_env sample_request))
  = 200
  /\ exists t dl content sw sh r1 r2 buf key st,
      fst (create_video (happy_world 0 [] sample_artifact) sample_env sample_request)
      = EvNow t :: EvMkdir (workDir_of t) None
          :: dl ++ [EvWriteFile (path_join (workDir_of t) "list.txt")
                                (list_byte_of_string content) None;
                    EvExec (render_cmd (path_join (workDir_of t) "list.txt")
                                       (video_filter sw sh)
                                       (path_join (workDir_of t) "video.mp4")) r1;
                    EvExec (mux_cmd (path_join (workDir_of t) "video.mp4")
                                    (path_join (workDir_of t) "audio.mp3")
                                    (path_join (workDir_of t) "final.mp4")) r2;
                    EvReadFile (path_join (workDir_of t) "final.mp4") (inr buf);
                    EvUpload (uploadUrl (store_base sample_env) (store_bucket sample_env) key)
                             (store_headers sample_env) buf (inr st)]
      /\ t = 0%Z
      /\ downloaded (jobs (workDir_of t) (elements (request_images sample_request))
                          (request_audio sample_request)) dl.
Proof.
  assert (H1 : status (snd (create_video (happy_world 0 [] sample_artifact)
                                         sample_env sample_request)) = 200)
    by (vm_compute; reflexivity).
  split; [exact H1|].
  destruct (successful_run _ sample_env sample_request H1)
    as (t & dl & assets & content & sw & sh & r1 & r2 & buf & key & st & Htr & Ht & Hdl & _).
  exists t, dl, content, sw, sh, r1, r2, buf, key, st.
  split; [exact Htr|]. split; [exact Ht | exact Hdl].
Defined.

(** X10 on the sample request and the same request at 60 frames per
    second: the same encoder commands run for both. *)
Lemma fps_only_echoed_witness :
  x_auth_token sample_request = x_auth_token fast_request
  /\ request_images sample_request = request_images fast_request
  /\ request_fps sample_request <> request_fps fast_request
  /\ fst (create_video (happy_world 0 [] sample_artifact) sample_env sample_request)
     = fst (create_video (happy_world 0 [] sample_artifact) sample_env fast_request).
Proof.
  assert (H1 : x_auth_token sample_request = x_auth_token fast_request) by reflexivity.
  assert (H2 : request_images sample_request = request_images fast_request) by reflexivity.
  assert (H3 : request_audio sample_request = request_audio fast_request) by reflexivity.
  assert (H4 : request_outputPath sample_request = request_outputPath fast_request)
    by reflexivity.
  assert (H5 : request_width sample_request = request_width fast_request) by reflexivity.
  assert (H6 : request_height sample_request = request_height fast_request) by reflexivity.
  split; [exact H1|]. split; [exact H2|]. split; [vm_compute; discriminate|].
  exact (proj1 (fps_only_echoed (happy_world 0 [] sample_artifact) sample_env
                  sample_request fast_request H1 H2 H3 H4 H5 H6)).
Defined.

(** X11 on a request whose second image entry is [null]. *)
Lemma hole_in_images_witness :
  accepted sample_env holed_request = true
  /\ elements (request_images holed_request)
     = [image "http://cdn/a.png" 2] ++ VNull :: [image "http://cdn/c.png" 1]
  /\ (VNull = VNull \/ VNull = VUndefined)
  /\ status (snd (create_video (happy_world 0 [] sample_artifact) sample_env holed_request))
     = 500.
Proof.
  assert (H1 : accepted sample_env holed_request = true) by reflexivity.
  assert (H2 : elements (request_images holed_request)
               = [image "http://cdn/a.png" 2] ++ VNull :: [image "http://cdn/c.png" 1])
    by reflexivity.
  assert (H3 : VNull = VNull \/ VNull = VUndefined) by (left; reflexivity).
  split; [exact H1|]. split; [exact H2|]. split; [exact H3|].
  exact (proj1 (hole_in_images (happy_world 0 [] sample_artifact) sample_env holed_request
                  _ _ _ H1 H2 H3)).
Defined.

(** The run of that request: the first image is downloaded, the reading of
    the second entry throws. *)
Example holed_run :
  create_video (happy_world 0 [] sample_artifact) sample_env holed_request
  = ([EvNow 0; EvMkdir "/tmp/work-0" None;
      EvFetch (VString "http://cdn/a.png") (inr 200); EvArrayBuffer (inr []);
      EvWriteFile "/tmp/work-0/img_000.png" [] None;
      EvLog (new_Error "Cannot read properties of null (reading 'url')")],
     mkResponse 500
       (VObject [("error", VString "Cannot read properties of null (reading 'url')");
                 ("details", VString EmptyString)])).
Proof. vm_compute. reflexivity. Qed.

(** X14 on the render command of the sample request. *)
Lemma encoder_commands_witness :
  In (EvExec sample_render_cmd quiet_success)
     (fst (create_video (happy_world 0 [] sample_artifact) sample_env sample_request))
  /\ exists sw sh,
      ToString (request_width sample_request) = Ok sw
      /\ ToString (request_height sample_request) = Ok sh
      /\ (sample_render_cmd
          = render_cmd (path_join (workDir_of 0) "list.txt") (video_filter sw sh)
                       (path_join (workDir_of 0) "video.mp4")
          \/ sample_render_cmd
             = mux_cmd (path_join (workDir_of 0) "video.mp4")
                       (path_join (workDir_of 0) "audio.mp3")
                       (path_join (workDir_of 0) "final.mp4"))
      /\ Forall (fun f => plain_path f = true)
                [path_join (workDir_of 0) "list.txt"; path_join (workDir_of 0) "video.mp4";
                 path_join (workDir_of 0) "audio.mp3"; path_join (workDir_of 0) "final.mp4"]
      /\ (forall s, request_width sample_request = VString s -> sw = s)
      /\ (forall s, request_height sample_request = VString s -> sh = s).
Proof.
  assert (H1 : In (EvExec sample_render_cmd quiet_success)
                 (fst (create_video (happy_world 0 [] sample_artifact)
                                    sample_env sample_request))) by in_trace.
  split; [exact H1|].
  exact (encoder_commands (happy_world 0 [] sample_artifact) sample_env sample_request
           _ _ H1).
Defined.

(** X16 on the upload of the sample request. *)
Lemma upload_request_witness :
  In (EvUpload sample_upload_url (upload_headers "service-key") sample_artifact (inr 200))
     (fst (create_video (happy_world 0 [] sample_artifact) sample_env sample_request))
  /\ configured sample_env = true
  /\ upload_headers "service-key"
     = [("Authorization", "Bearer " +:+ env_get (env_SUPABASE_SERVICE_ROLE_KEY sample_env));
        ("Content-Type", "video/mp4");
        ("x-upsert", "true")].
Proof.
  assert (H1 : In (EvUpload sample_upload_url (upload_headers "service-key")
                            sample_artifact (inr 200))
                 (fst (create_video (happy_world 0 [] sample_artifact)
                                    sample_env sample_request))) by in_trace.
  split; [exact H1|].
  destruct (upload_request (happy_world 0 [] sample_artifact) sample_env sample_request
              _ _ _ _ H1) as (Hc & _ & Hh & _).
  split; [exact Hc | exact Hh].
Defined.

(** A preflight for any route, and the liveness route. *)
Example preflight_run :
  app_handle (happy_world 0 [] []) guarded_env "OPTIONS" (Some CreateVideo) (Some anonymous_request)
  = ([], Sent (mkHttp (fst (cors "OPTIONS" ∅)) 204 StatusText)).
Proof. reflexivity. Qed.

Example liveness_run :
  app_handle (happy_world 0 [] []) guarded_env "GET" (Some Root) (Some anonymous_request)
  = ([], Sent (mkHttp (fst (cors "GET" ∅)) 200 (Text "OK"))).
Proof. reflexivity. Qed.


(** The fetches of the sample request: each image once, in order, then
    the audio track. *)
Example sample_run_fetches :
  fetched (fst (create_video (happy_world 0 [] sample_artifact) sample_env sample_request))
  = [VString "http://cdn/a.png"; VString "http://cdn/b.png"; VString "http://cdn/track.mp3"].
Proof. vm_compute. reflexivity. Qed.




(** Durations that are no numbers: a text in which the engine reads no
    number and a plain object are listed as NaN, the empty text as 3. *)
Example odd_durations_list :
  In (EvWriteFile "/tmp/work-0/list.txt"
        (list_byte_of_string
           ("ffconcat version 1.0" +:+ nl
              +:+ "file /tmp/work-0/img_000.png" +:+ nl +:+ "duration NaN" +:+ nl
              +:+ "file /tmp/work-0/img_001.png" +:+ nl +:+ "duration NaN" +:+ nl
              +:+ "file /tmp/work-0/img_002.png" +:+ nl +:+ "duration 3" +:+ nl
              +:+ "file /tmp/work-0/img_002.png" +:+ nl))
        None)
     (fst (create_video (happy_world 0 [] sample_artifact) sample_env odd_durations_request)).
Proof. in_trace. Qed.

(** A width that closes the double quote of the filter argument is pasted
    into the command line as it is. *)
Example quoting_run :
  In (EvExec ("ffmpeg -y -f concat -safe 0 -i " +:+ dq +:+ "/tmp/work-0/list.txt" +:+ dq
                +:+ " -vf " +:+ dq +:+ "scale=1" +:+ dq +:+ "; id; " +:+ dq
                +:+ ":1080:force_original_aspect_ratio=decrease,pad=1" +:+ dq +:+ "; id; "
                +:+ dq +:+ ":1080:(ow-iw)/2:(oh-ih)/2,format=yuv420p" +:+ dq
                +:+ " -pix_fmt yuv420p -c:v libx264 -vsync vfr " +:+ dq
                +:+ "/tmp/work-0/video.mp4" +:+ dq)
             quiet_success)
     (fst (create_video (happy_world 0 [] sample_artifact) sample_env quoting_request)).
Proof. in_trace. Qed.
